(** * Xenonite Mission Control: the simulation core

    A shallow embedding of the collision threat scoring engine
    (js/cts-engine.js), of the coordinate conversion, the propagation
    wrappers and the satellite store of the orbital module
    (js/orbital.js), of the frame scheduler (js/app.js) and of the
    loader of element sets (js/data-loader.js), with the properties the
    specification states about them and further properties of the code.
    The libraries the code calls (THREE.js for distances, satellite.js
    for parsing and propagation) are parameters.

    Numbers.  A JavaScript number is modelled as an exact rational, or one
    of NaN, +Infinity, -Infinity.  The rounding error of IEEE doubles and
    the sign of zero are not modelled.  The time value of a [Date] is a
    whole number of milliseconds, so it is an integer here, and there is
    none for an Invalid Date. *)

From Stdlib Require Import ZArith QArith Qabs Qround List Bool Lia Lqa.
From Stdlib Require Import Sorted Permutation.
From Stdlib Require String.
Import ListNotations.

Open Scope Q_scope.

(* ================================================================== *)
(** ** JavaScript numbers *)
(* ================================================================== *)

Module JS.

Inductive num : Type :=
| Fin (q : Q)
| NaN
| PosInf
| NegInf.

Definition isNaN (n : num) : bool :=
  match n with NaN => true | _ => false end.

Definition isFinite (n : num) : bool :=
  match n with Fin _ => true | _ => false end.

(** Unary minus. *)
Definition neg (n : num) : num :=
  match n with
  | Fin q => Fin (- q)
  | NaN => NaN
  | PosInf => NegInf
  | NegInf => PosInf
  end.

(** [a + b] *)
Definition add (a b : num) : num :=
  match a, b with
  | NaN, _ | _, NaN => NaN
  | Fin x, Fin y => Fin (x + y)
  | PosInf, NegInf | NegInf, PosInf => NaN
  | PosInf, _ | _, PosInf => PosInf
  | NegInf, _ | _, NegInf => NegInf
  end.

(** [a - b] *)
Definition sub (a b : num) : num := add a (neg b).

(** An infinity scaled by a finite factor. *)
Definition scaleInf (inf : num) (x : Q) : num :=
  match x ?= 0 with
  | Eq => NaN
  | Gt => inf
  | Lt => neg inf
  end.

(** [a * b] *)
Definition mul (a b : num) : num :=
  match a, b with
  | NaN, _ | _, NaN => NaN
  | Fin x, Fin y => Fin (x * y)
  | Fin x, inf => scaleInf inf x
  | inf, Fin y => scaleInf inf y
  | PosInf, PosInf | NegInf, NegInf => PosInf
  | PosInf, NegInf | NegInf, PosInf => NegInf
  end.

(** [a / b] *)
Definition div (a b : num) : num :=
  match a, b with
  | NaN, _ | _, NaN => NaN
  | Fin x, Fin y =>
      match y ?= 0 with
      | Eq => match x ?= 0 with Eq => NaN | Gt => PosInf | Lt => NegInf end
      | _ => Fin (x / y)
      end
  | Fin _, _ => Fin 0
  | inf, Fin y => match y ?= 0 with Lt => neg inf | _ => inf end
  | _, _ => NaN
  end.

(** The order of two numbers; none when either is NaN. *)
Definition cmp (a b : num) : option comparison :=
  match a, b with
  | NaN, _ | _, NaN => None
  | Fin x, Fin y => Some (x ?= y)
  | PosInf, PosInf | NegInf, NegInf => Some Eq
  | PosInf, _ | _, NegInf => Some Gt
  | NegInf, _ | _, PosInf => Some Lt
  end.

(** [a < b] *)
Definition lt (a b : num) : bool :=
  match cmp a b with Some Lt => true | _ => false end.

(** [a > b] *)
Definition gt (a b : num) : bool :=
  match cmp a b with Some Gt => true | _ => false end.

(** [a >= b] *)
Definition ge (a b : num) : bool :=
  match cmp a b with Some Gt | Some Eq => true | _ => false end.

(** [a <= b] *)
Definition le (a b : num) : bool :=
  match cmp a b with Some Lt | Some Eq => true | _ => false end.

(** [Math.round]: the nearest integer, halves rounded up. *)
Definition round (n : num) : num :=
  match n with
  | Fin q => Fin (inject_Z (Qfloor (q + (1 # 2))))
  | other => other
  end.

(** [Math.min(a, b)] *)
Definition min (a b : num) : num :=
  match cmp a b with
  | None => NaN
  | Some Gt => b
  | Some _ => a
  end.

(** [Math.max(a, b)] *)
Definition max (a b : num) : num :=
  match cmp a b with
  | None => NaN
  | Some Lt => b
  | Some _ => a
  end.

(** A number that is a whole number between [lo] and [hi]. *)
Definition integerIn (lo hi : Z) (n : num) : Prop :=
  exists z : Z, n = Fin (inject_Z z) /\ (lo <= z <= hi)%Z.

(** Equality of numbers up to the representation of a fraction. *)
Definition eqv (a b : num) : Prop :=
  match a, b with
  | Fin x, Fin y => x == y
  | NaN, NaN | PosInf, PosInf | NegInf, NegInf => True
  | _, _ => False
  end.

End JS.

Import JS.

(* ================================================================== *)
(** ** The collision threat scoring engine (js/cts-engine.js) *)
(* ================================================================== *)

(** A [THREE.Vector3]. *)
Record Vector3 : Type := mkVector3 { vx : num; vy : num; vz : num }.

Module CTSEngine.

(** Threat zones, in kilometres. *)
Definition DANGER_RADIUS : num := Fin 100.
Definition CRITICAL_RADIUS : num := Fin 10.
Definition EXTREME_RADIUS : num := Fin 5.

(** Scoring weights. *)
Definition DANGER_WEIGHT : num := Fin (1 # 2).
Definition CRITICAL_BONUS : num := Fin 50.
Definition EXTREME_BONUS : num := Fin 80.

Definition MAX_HISTORY : nat := 120.

(** An entry of the [threats] array: [{index, distance, threat}]. *)
Record Threat : Type := mkThreat
  { index : nat; distance : num; threat : num }.

(** The module's variables. *)
Record State : Type := mkState
  { historicalScores : list num;
    forceScore : option num;
    lastThreats : list Threat }.

Definition initial : State := mkState [] None [].

Inductive Status : Type := CRITICAL | WARNING | ELEVATED | NOMINAL.

(** [historicalScores.push(v)], then [shift()] when longer than
    [MAX_HISTORY]. *)
Definition pushHistory (v : num) (h : list num) : list num :=
  let h' := h ++ [v] in
  if (MAX_HISTORY <? length h')%nat then tl h' else h'.

(** [threats.sort((a, b) => a.distance - b.distance)]: a stable sort,
    closest first. *)
Fixpoint insertThreat (t : Threat) (l : list Threat) : list Threat :=
  match l with
  | [] => [t]
  | h :: r =>
      if lt (distance h) (distance t)
      then h :: insertThreat t r
      else t :: h :: r
  end.

Definition sortThreats (l : list Threat) : list Threat :=
  fold_right insertThreat [] l.

Section Engine.

(** [a.distanceTo(b)] of THREE.js, in scene units. *)
Variable distanceTo : Vector3 -> Vector3 -> num.

(** The callback of [debrisPositions.forEach], acting on the two
    accumulators [threatScore] and [threats]. *)
Definition analyzeDebris (playerPosition : Vector3)
    (acc : num * list Threat) (debrisPos : Vector3) (i : nat)
    : num * list Threat :=
  let '(threatScore, threats) := acc in
  let dist := distanceTo playerPosition debrisPos in
  let distanceKm := mul dist (Fin 1000) in
  if negb (isFinite distanceKm) || isNaN distanceKm then acc
  else if lt distanceKm DANGER_RADIUS then
    let proximityThreat :=
      mul (sub DANGER_RADIUS distanceKm) DANGER_WEIGHT in
    let threatScore := add threatScore proximityThreat in
    let threats := threats ++ [mkThreat i distanceKm proximityThreat] in
    if lt distanceKm CRITICAL_RADIUS then
      let threatScore := add threatScore CRITICAL_BONUS in
      if lt distanceKm EXTREME_RADIUS
      then (add threatScore EXTREME_BONUS, threats)
      else (threatScore, threats)
    else (threatScore, threats)
  else acc.

Fixpoint forEachDebris (playerPosition : Vector3)
    (debrisPositions : list Vector3) (i : nat)
    (acc : num * list Threat) : num * list Threat :=
  match debrisPositions with
  | [] => acc
  | debrisPos :: rest =>
      forEachDebris playerPosition rest (S i)
        (analyzeDebris playerPosition acc debrisPos i)
  end.

(** The accumulated [threatScore] and the [threats] array when the
    loop is over, before the score is rounded and capped. *)
Definition scanDebris (playerPosition : Vector3)
    (debrisPositions : list Vector3) : num * list Threat :=
  forEachDebris playerPosition debrisPositions 0%nat (Fin 0, []).

(** [calculateScore(playerPosition, debrisPositions)]: the returned
    score and the module's variables afterwards.  A null or undefined
    argument is [None].  The arguments are a [THREE.Vector3] and an
    array of them, on which the call returns; the call on other values,
    with the exception it can throw, is [CTSCall.calculateScore]
    below. *)
Definition calculateScore (playerPosition : option Vector3)
    (debrisPositions : option (list Vector3)) (s : State)
    : num * State :=
  match forceScore s with
  | Some f =>
      (f, mkState (pushHistory f (historicalScores s))
                  (forceScore s) (lastThreats s))
  | None =>
      match playerPosition, debrisPositions with
      | Some p, Some (d :: ds) =>
          let '(acc, threats) := scanDebris p (d :: ds) in
          let threatScore := min (round acc) (Fin 100) in
          (threatScore,
           mkState (pushHistory threatScore (historicalScores s))
                   (forceScore s)
                   (firstn 5 (sortThreats threats)))
      | _, _ =>
          (Fin 0, mkState (pushHistory (Fin 0) (historicalScores s))
                          (forceScore s) (lastThreats s))
      end
  end.

End Engine.

(** [getScoreStatus(score)] *)
Definition getScoreStatus (score : num) : Status :=
  if ge score (Fin 86) then CRITICAL
  else if ge score (Fin 61) then WARNING
  else if ge score (Fin 31) then ELEVATED
  else NOMINAL.

(** [getClosestThreats()] *)
Definition getClosestThreats (s : State) : list Threat := lastThreats s.

(** [getHistory()] *)
Definition getHistory (s : State) : list num := historicalScores s.

(** [setForceScore(score)]; [None] is [null]. *)
Definition setForceScore (score : option num) (s : State) : State :=
  match score with
  | None => mkState (historicalScores s) None (lastThreats s)
  | Some v =>
      mkState (historicalScores s)
              (Some (min (max (round v) (Fin 0)) (Fin 100)))
              (lastThreats s)
  end.

(** [resetHistory()] *)
Definition resetHistory (s : State) : State :=
  mkState [] (forceScore s) [].

End CTSEngine.

(* ================================================================== *)
(** ** The orbital module (js/orbital.js) *)
(* ================================================================== *)

Module OrbitalPropagator.

Definition SCALE_FACTOR : num := Fin 1000.
Definition MAX_ACTIVE_RENDER : nat := 500.

(** An ECI position object [{x, y, z}].  A property is a number, or
    [None] when it is missing or [typeof] does not give ['number']. *)
Record EciPosition : Type := mkEci
  { ex : option num; ey : option num; ez : option num }.

(** [eciToScenePosition(eciPosition)].  [threeLoaded] says whether the
    global [THREE] is defined; a null or undefined argument is [None]. *)
Definition eciToScenePosition (threeLoaded : bool)
    (eciPosition : option EciPosition) : option Vector3 :=
  match eciPosition with
  | None => None
  | Some e =>
      match ex e, ey e, ez e with
      | Some x, Some y, Some z =>
          if isNaN x || isNaN y || isNaN z then None
          else if negb (isFinite x) || negb (isFinite y)
                  || negb (isFinite z) then None
          else if negb threeLoaded then None
          else
            let x' := div x SCALE_FACTOR in
            let y' := div z SCALE_FACTOR in
            let z' := div (neg y) SCALE_FACTOR in
            if isNaN x' || isNaN y' || isNaN z' then None
            else Some (mkVector3 x' y' z')
      | _, _, _ => None
      end
  end.

(** The [position] and [velocity] properties of what
    [satellite.propagate] returns: [false], undefined, or an object. *)
Inductive Field : Type :=
| FFalse
| FUndefined
| FObject (p : EciPosition).

Record PositionAndVelocity : Type := mkPV
  { position : Field; velocity : Field }.

(** A call of the SGP4 library returns or throws. *)
Inductive Outcome : Type :=
| Returned (pv : PositionAndVelocity)
| Thrown.

(** The argument [pv.position] as [eciToScenePosition] tests it. *)
Definition truthy (f : Field) : option EciPosition :=
  match f with
  | FObject p => Some p
  | FFalse | FUndefined => None
  end.

Section Propagation.

(** A satellite record of the SGP4 library. *)
Variable Satrec : Type.

(** The test [position === satellite.error]. *)
Variable isSatelliteError : Field -> bool.

(** What [propagate] makes of the library's answer: null on an
    exception, on [position === false] and on
    [position === satellite.error]. *)
Definition propagateOutcome (o : Outcome)
    : option PositionAndVelocity :=
  match o with
  | Thrown => None
  | Returned positionAndVelocity =>
      if (match position positionAndVelocity with
          | FFalse => true
          | _ => false
          end) || isSatelliteError (position positionAndVelocity)
      then None
      else Some (mkPV (position positionAndVelocity)
                      (velocity positionAndVelocity))
  end.

(** [satellite.propagate(satrec, date)] as a function. *)
Variable satellite_propagate : Satrec -> Z -> Outcome.

(** [propagate(satrec, date)] *)
Definition propagate (satrec : Satrec) (date : Z)
    : option PositionAndVelocity :=
  propagateOutcome (satellite_propagate satrec date).

Variable threeLoaded : bool.

(** An entry [{name, satrec}] of the satellite arrays. *)
Record Satellite : Type := mkSatellite
  { name : String.string; satrec : Satrec }.

(** The body of the loop of [getActiveSatellitePositions] at index
    [i]. *)
Definition activeStep (activeSatellites : list Satellite) (date : Z)
    (i : nat) (positions : list (option Vector3))
    : list (option Vector3) :=
  match nth_error activeSatellites i with
  | None => positions
  | Some sat =>
      match propagate (satrec sat) date with
      | Some pv =>
          positions
            ++ [eciToScenePosition threeLoaded (truthy (position pv))]
      | None => positions
      end
  end.

(** [for (let i = ...; i < limit; i++)], with [remaining] the
    number of iterations left. *)
Fixpoint activeLoop (activeSatellites : list Satellite) (date : Z)
    (i remaining : nat) (positions : list (option Vector3))
    : list (option Vector3) :=
  match remaining with
  | O => positions
  | S r =>
      activeLoop activeSatellites date (S i) r
        (activeStep activeSatellites date i positions)
  end.

(** [getActiveSatellitePositions(date)]; an entry is [None] where
    [eciToScenePosition] gave null. *)
Definition getActiveSatellitePositions
    (activeSatellites : list Satellite) (date : Z)
    : list (option Vector3) :=
  let limit := Nat.min (length activeSatellites) MAX_ACTIVE_RENDER in
  activeLoop activeSatellites date 0 limit [].

(** The satellites that are propagated by a call. *)
Definition propagatedSatellites (activeSatellites : list Satellite)
    : list Satellite :=
  firstn (Nat.min MAX_ACTIVE_RENDER (length activeSatellites))
         activeSatellites.

(** The position a single satellite adds to the result, if any. *)
Definition positionOf (date : Z) (sat : Satellite)
    : list (option Vector3) :=
  match propagate (satrec sat) date with
  | Some pv => [eciToScenePosition threeLoaded (truthy (position pv))]
  | None => []
  end.

End Propagation.

End OrbitalPropagator.

(* ================================================================== *)
(** ** [calculateScore] on the values a caller can pass *)
(* ================================================================== *)

(** [CTSEngine.calculateScore] above takes a player position that is a
    [THREE.Vector3] or missing, and debris positions that are an array
    of [THREE.Vector3] or missing.  JavaScript lets a caller pass more:
    [OrbitalPropagator.getDebrisPositions] pushes what
    [eciToScenePosition] returns, which can be [null], and
    [App.updateCTSScore] hands that array over.  Here the call is
    modelled on such arguments too, with the exception it then throws. *)
Module CTSCall.

Import CTSEngine.

(** The first argument: a falsy value, a [THREE.Vector3], or a truthy
    value without a method [distanceTo]. *)
Inductive Player : Type :=
| NoPosition
| Position (v : Vector3)
| NotAVector.

(** The second argument: a falsy value, an array whose entries are each
    a [THREE.Vector3] or [null] or [undefined] ([None]), or a truthy
    value that is no array (its [length] is not 0 and it has no
    [forEach]). *)
Inductive Debris : Type :=
| NoDebris
| Positions (entries : list (option Vector3))
| NotAnArray.

(** How a call ends, with the module's variables afterwards. *)
Inductive Outcome : Type :=
| Returned (score : num) (s : State)
| Thrown (s : State).

Definition stateOf (o : Outcome) : State :=
  match o with
  | Returned _ s => s
  | Thrown s => s
  end.

Definition scoreOf (o : Outcome) : option num :=
  match o with
  | Returned score _ => Some score
  | Thrown _ => None
  end.

(** A missing position is [null]; a missing array is [null]. *)
Definition position (p : option Vector3) : Player :=
  match p with
  | Some v => Position v
  | None => NoPosition
  end.

Definition positions (ds : option (list Vector3)) : Debris :=
  match ds with
  | Some l => Positions (map Some l)
  | None => NoDebris
  end.

Section Engine.

Variable distanceTo : Vector3 -> Vector3 -> num.

(** [debrisPositions.forEach]: [playerPosition.distanceTo(debrisPos)]
    reads [debrisPos.x], which throws a [TypeError] on [null] and
    [undefined]; the loop is left and the accumulators are lost. *)
Fixpoint forEachEntry (playerPosition : Vector3)
    (entries : list (option Vector3)) (i : nat)
    (acc : num * list Threat) : option (num * list Threat) :=
  match entries with
  | [] => Some acc
  | None :: _ => None
  | Some debrisPos :: rest =>
      forEachEntry playerPosition rest (S i)
        (analyzeDebris distanceTo playerPosition acc debrisPos i)
  end.

(** [calculateScore(playerPosition, debrisPositions)].  The history and
    [lastThreats] are written after the loop only, so a call that
    throws leaves the module's variables as they were. *)
Definition calculateScore (playerPosition : Player)
    (debrisPositions : Debris) (s : State) : Outcome :=
  match forceScore s with
  | Some f =>
      Returned f (mkState (pushHistory f (historicalScores s))
                          (forceScore s) (lastThreats s))
  | None =>
      let invalid :=
        Returned (Fin 0)
          (mkState (pushHistory (Fin 0) (historicalScores s))
                   (forceScore s) (lastThreats s)) in
      match playerPosition, debrisPositions with
      | NoPosition, _ => invalid
      | _, NoDebris => invalid
      | _, Positions [] => invalid
      | _, NotAnArray => Thrown s
      | NotAVector, Positions (_ :: _) => Thrown s
      | Position p, Positions (e :: es) =>
          match forEachEntry p (e :: es) 0%nat (Fin 0, []) with
          | None => Thrown s
          | Some (acc, threats) =>
              let threatScore := min (round acc) (Fin 100) in
              Returned threatScore
                (mkState (pushHistory threatScore (historicalScores s))
                         (forceScore s)
                         (firstn 5 (sortThreats threats)))
          end
      end
  end.

End Engine.

End CTSCall.

(* ================================================================== *)
(** ** The frame scheduler (js/app.js) *)
(* ================================================================== *)

Module App.

(** Throttle intervals, in milliseconds. *)
Definition DEBRIS_UPDATE_INTERVAL : Z := 100.
Definition ACTIVE_SAT_INTERVAL : Z := 500.
Definition CTS_UPDATE_INTERVAL : Z := 100.
Definition UI_UPDATE_INTERVAL : Z := 100.

(** The update routines [animate] can run. *)
Inductive Update : Type :=
| UpdatePlayer
| UpdateDebris
| UpdateActiveSatellites
| UpdateCTSScore
| UpdateUI.

(** A [Date]: its time value, a whole number of milliseconds, or none
    for an Invalid Date. *)
Definition Date : Type := option Z.

(** The module's variables, the variables of the scoring engine, and
    [ran], the update routines run so far, oldest first. *)
Record State : Type := mkState
  { isRunning : bool;
    currentDate : Date;
    lastUpdateTime : Z;
    timeMultiplier : num;
    frameCount : nat;
    lastDebrisUpdate : Z;
    lastActiveSatUpdate : Z;
    lastCTSUpdate : Z;
    lastUIUpdate : Z;
    engine : CTSEngine.State;
    ran : list Update }.

(** The largest time value of a [Date], in milliseconds. *)
Definition MAX_TIME : Z := 8640000000000000.

(** A finite number with its fraction dropped, towards zero. *)
Definition truncate (t : Q) : Z := Z.quot (Qnum t) (Zpos (Qden t)).

(** [date.getTime()]: NaN for an Invalid Date. *)
Definition getTime (date : Date) : num :=
  match date with
  | Some t => Fin (inject_Z t)
  | None => NaN
  end.

(** [new Date(t)]: an Invalid Date when [t] is no finite number or is
    beyond the range of time values, else [t] with its fraction
    dropped. *)
Definition newDate (t : num) : Date :=
  match t with
  | Fin q =>
      if Qle_bool (Qabs q) (inject_Z MAX_TIME)
      then Some (truncate q)
      else None
  | _ => None
  end.

(** Assignments to single variables. *)
Definition setRunning (b : bool) (s : State) : State :=
  mkState b (currentDate s) (lastUpdateTime s)
    (timeMultiplier s) (frameCount s) (lastDebrisUpdate s)
    (lastActiveSatUpdate s) (lastCTSUpdate s) (lastUIUpdate s)
    (engine s) (ran s).

Definition setLastDebrisUpdate (now : Z) (s : State) : State :=
  mkState (isRunning s) (currentDate s) (lastUpdateTime s)
    (timeMultiplier s) (frameCount s) now
    (lastActiveSatUpdate s) (lastCTSUpdate s) (lastUIUpdate s)
    (engine s) (ran s).

Definition setLastActiveSatUpdate (now : Z) (s : State) : State :=
  mkState (isRunning s) (currentDate s) (lastUpdateTime s)
    (timeMultiplier s) (frameCount s) (lastDebrisUpdate s)
    now (lastCTSUpdate s) (lastUIUpdate s)
    (engine s) (ran s).

Definition setLastCTSUpdate (now : Z) (s : State) : State :=
  mkState (isRunning s) (currentDate s) (lastUpdateTime s)
    (timeMultiplier s) (frameCount s) (lastDebrisUpdate s)
    (lastActiveSatUpdate s) now (lastUIUpdate s)
    (engine s) (ran s).

Definition setLastUIUpdate (now : Z) (s : State) : State :=
  mkState (isRunning s) (currentDate s) (lastUpdateTime s)
    (timeMultiplier s) (frameCount s) (lastDebrisUpdate s)
    (lastActiveSatUpdate s) (lastCTSUpdate s) now
    (engine s) (ran s).

Definition setEngine (e : CTSEngine.State) (s : State) : State :=
  mkState (isRunning s) (currentDate s) (lastUpdateTime s)
    (timeMultiplier s) (frameCount s) (lastDebrisUpdate s)
    (lastActiveSatUpdate s) (lastCTSUpdate s) (lastUIUpdate s)
    e (ran s).

Definition record (u : Update) (s : State) : State :=
  mkState (isRunning s) (currentDate s) (lastUpdateTime s)
    (timeMultiplier s) (frameCount s) (lastDebrisUpdate s)
    (lastActiveSatUpdate s) (lastCTSUpdate s) (lastUIUpdate s)
    (engine s) (ran s ++ [u]).

(** [updatePlayer()], [updateDebris()], [updateActiveSatellites()]
    and [updateUI()] move objects of the scene and fill the panels,
    each inside its own [try]; they leave the variables above as they
    are. *)
Definition updatePlayer (s : State) : State := record UpdatePlayer s.
Definition updateDebris (s : State) : State := record UpdateDebris s.
Definition updateActiveSatellites (s : State) : State :=
  record UpdateActiveSatellites s.
Definition updateUI (s : State) : State := record UpdateUI s.

(** The head of [animate()]: the time delta, [lastUpdateTime], the
    simulation time and the frame count, with [now] what [Date.now()]
    gives. *)
Definition advanceClock (now : Z) (s : State) : State :=
  let deltaTime :=
    div (Fin (inject_Z (now - lastUpdateTime s))) (Fin 1000) in
  mkState (isRunning s)
    (newDate (add (getTime (currentDate s))
                  (mul (mul deltaTime (Fin 1000)) (timeMultiplier s))))
    now (timeMultiplier s) (S (frameCount s))
    (lastDebrisUpdate s) (lastActiveSatUpdate s)
    (lastCTSUpdate s) (lastUIUpdate s) (engine s) (ran s).

(** Player updates, every frame. *)
Definition playerUpdates (s : State) : State :=
  if isRunning s then updatePlayer s else s.

(** Debris updates, throttled. *)
Definition debrisUpdates (now : Z) (s : State) : State :=
  if isRunning s && (DEBRIS_UPDATE_INTERVAL <? now - lastDebrisUpdate s)%Z
  then setLastDebrisUpdate now (updateDebris s)
  else s.

(** Active satellites updates, throttled. *)
Definition activeSatellitesUpdates (now : Z) (s : State) : State :=
  if (ACTIVE_SAT_INTERVAL <? now - lastActiveSatUpdate s)%Z
  then setLastActiveSatUpdate now (updateActiveSatellites s)
  else s.

(** UI updates, throttled. *)
Definition uiUpdates (now : Z) (s : State) : State :=
  if isRunning s && (UI_UPDATE_INTERVAL <? now - lastUIUpdate s)%Z
  then setLastUIUpdate now (updateUI s)
  else s.

Section Scheduler.

Variable distanceTo : Vector3 -> Vector3 -> num.

(** [OrbitalPropagator.getPlayerPosition] and
    [OrbitalPropagator.getDebrisPositions] at a date: a
    [THREE.Vector3] or [null], and an array whose entries are each a
    [THREE.Vector3] or [null]. *)
Variable getPlayerPosition : Date -> option Vector3.
Variable getDebrisPositions : Date -> list (option Vector3).

(** [updateCTSScore()]: the [catch] swallows what [calculateScore]
    throws. *)
Definition updateCTSScore (s : State) : State :=
  let s := record UpdateCTSScore s in
  let playerPosition := getPlayerPosition (currentDate s) in
  let debrisPositions := getDebrisPositions (currentDate s) in
  match playerPosition, debrisPositions with
  | Some p, _ :: _ =>
      setEngine
        (CTSCall.stateOf
           (CTSCall.calculateScore distanceTo (CTSCall.Position p)
              (CTSCall.Positions debrisPositions) (engine s))) s
  | _, _ => s
  end.

(** CTS calculation, throttled. *)
Definition ctsCalculation (now : Z) (s : State) : State :=
  if isRunning s && (CTS_UPDATE_INTERVAL <? now - lastCTSUpdate s)%Z
  then setLastCTSUpdate now (updateCTSScore s)
  else s.

(** One frame of [animate()]: its blocks in order. *)
Definition animate (now : Z) (s : State) : State :=
  uiUpdates now
    (ctsCalculation now
       (activeSatellitesUpdates now
          (debrisUpdates now
             (playerUpdates (advanceClock now s))))).

(** Frames at the successive times [nows]. *)
Fixpoint frames (nows : list Z) (s : State) : State :=
  match nows with
  | [] => s
  | now :: rest => frames rest (animate now s)
  end.

End Scheduler.


(** [pause()] and [resume()] *)
Definition pause (s : State) : State := setRunning false s.
Definition resume (s : State) : State := setRunning true s.

End App.

(** [x < y] on rationals, as a boolean. *)
Definition Qltb (x y : Q) : bool :=
  match x ?= y with Lt => true | _ => false end.

(* ================================================================== *)
(** ** The score as the specification words it *)
(* ================================================================== *)

Module ScoringSpec.

(** What one debris object at [d] kilometres adds to the score:
    nothing at 100 km or more; otherwise [(100 - d) * 0.5], and 50 more
    below 10 km, and 80 more below 5 km. *)
Definition contribution (d : Q) : Q :=
  if Qle_bool 100 d then 0
  else (100 - d) * (1 # 2)
       + (if Qltb d 10 then 50 else 0)
       + (if Qltb d 5 then 80 else 0).

Definition total (kms : list Q) : Q :=
  fold_right Qplus 0 (map contribution kms).

(** The objects within 100 km, from index [i] on, each with its
    distance and [(100 - d) * 0.5]. *)
Fixpoint activeThreats (kms : list Q) (i : nat) : list CTSEngine.Threat :=
  match kms with
  | [] => []
  | d :: rest =>
      (if Qltb d 100
       then [CTSEngine.mkThreat i (Fin d) (Fin ((100 - d) * (1 # 2)))]
       else [])
      ++ activeThreats rest (S i)
  end.

(** The distances to the player, in kilometres, when they are finite. *)
Definition kilometres (units : list Q) : list Q :=
  map (fun u => u * 1000) units.

End ScoringSpec.

Module Examples.

(** Positions on the x axis, given in kilometres from the centre. *)
Definition onAxis (km : Q) : Vector3 :=
  mkVector3 (Fin (km / 1000)) (Fin 0) (Fin 0).

(** The distance from [a] to a position [b] further along the x axis. *)
Definition alongAxis (a b : Vector3) : num := sub (vx b) (vx a).

Definition player : Vector3 := onAxis 7000.

End Examples.

Module Scenario.

Import Examples CTSEngine.

(** The scene distance from [player] to the position [km] kilometres
    further along the axis. *)
Definition gap (km : Q) : Q := (7000 + km) / 1000 - 7000 / 1000.

Definition debrisAt (km : Q) : Vector3 := onAxis (7000 + km).

(** The engine after one scoring tick with a fragment 3 km away. *)
Definition afterCloseApproach : State :=
  snd (calculateScore alongAxis (Some player) (Some [debrisAt 3]) initial).

End Scenario.

(** A call of the engine's interface that changes its variables. *)
Inductive Call : Type :=
| Calculate (playerPosition : CTSCall.Player)
            (debrisPositions : CTSCall.Debris)
| SetForceScore (score : option num).

Section Calls.

Variable distanceTo : Vector3 -> Vector3 -> num.

Definition call (c : Call) (s : CTSEngine.State) : CTSEngine.State :=
  match c with
  | Calculate p ds =>
      CTSCall.stateOf (CTSCall.calculateScore distanceTo p ds s)
  | SetForceScore v => CTSEngine.setForceScore v s
  end.

(** The call is one of [calculateScore] that returns. *)
Definition scores (c : Call) (s : CTSEngine.State) : bool :=
  match c with
  | Calculate p ds =>
      match CTSCall.calculateScore distanceTo p ds s with
      | CTSCall.Returned _ _ => true
      | CTSCall.Thrown _ => false
      end
  | SetForceScore _ => false
  end.

Fixpoint calls (cs : list Call) (s : CTSEngine.State) : CTSEngine.State :=
  match cs with
  | [] => s
  | c :: rest => calls rest (call c s)
  end.

(** The number of calls of [calculateScore] among [cs], run from [s],
    that return. *)
Fixpoint scoringCalls (cs : list Call) (s : CTSEngine.State) : nat :=
  match cs with
  | [] => 0%nat
  | c :: rest =>
      ((if scores c s then 1 else 0) + scoringCalls rest (call c s))%nat
  end.


End Calls.

(** What [setForceScore] stores for a number: the number rounded to
    the nearest whole number and clamped to 0..100; NaN stays NaN. *)
Definition clampedScore (v : num) : num :=
  match v with
  | Fin q => Fin (inject_Z (Z.min (Z.max (Qfloor (q + (1 # 2))) 0) 100))
  | NaN => NaN
  | PosInf => Fin 100
  | NegInf => Fin 0
  end.

Module OrbitExamples.

Import OrbitalPropagator.

(** [satellite.error] is undefined. *)
Definition errorIsUndefined (f : Field) : bool :=
  match f with FUndefined => true | _ => false end.

(** A library for trying things out: the record is a radius in
    kilometres, the object sits still on the x axis, and a record
    that is not positive has decayed. *)
Definition still (satrec : Z) (date : Z) : Outcome :=
  if (0 <? satrec)%Z
  then Returned
         (mkPV (FObject (mkEci (Some (Fin (inject_Z satrec)))
                               (Some (Fin 0)) (Some (Fin 0))))
               (FObject (mkEci (Some (Fin 0)) (Some (Fin 0))
                               (Some (Fin 0)))))
  else Returned (mkPV FFalse FFalse).

(** A library as [still], but for a record that is not positive the
    position it gives has NaN for [x]. *)
Definition adrift (satrec : Z) (date : Z) : Outcome :=
  if (0 <? satrec)%Z
  then still satrec date
  else Returned
         (mkPV (FObject (mkEci (Some NaN) (Some (Fin 0)) (Some (Fin 0))))
               (FObject (mkEci (Some (Fin 0)) (Some (Fin 0))
                               (Some (Fin 0))))).

Definition fleet (n : nat) : list (Satellite Z) :=
  map (fun i => mkSatellite Z String.EmptyString (Z.of_nat i + 6771)%Z) (seq 0 n).

End OrbitExamples.

(** A component that is missing, NaN or infinite. *)
Definition notFinite (c : option num) : bool :=
  match c with
  | Some (Fin _) => false
  | _ => true
  end.

Module ClockExamples.

(** A paused scheduler at half speed, one frame of 17 ms ahead. *)
Definition pausedAtHalfSpeed : App.State :=
  App.mkState false (Some 1700000000000%Z) 1700000000000 (Fin (1 # 2)) 0
    0 0 0 0 CTSEngine.initial [].

Definition nextFrame : Z := 1700000000017.

(** A running scheduler at ten times real time. *)
Definition runningTenfold : App.State :=
  App.mkState true (Some 1700000000000%Z) 1700000000000 (Fin 10) 0
    0 0 0 0 CTSEngine.initial [].

Definition playerAt (date : App.Date) : option Vector3 :=
  Some Examples.player.

Definition debrisNear (date : App.Date) : list (option Vector3) :=
  [Some (Scenario.debrisAt 50)].

(** A debris array whose second entry is [null]. *)
Definition debrisWithNull (date : App.Date) : list (option Vector3) :=
  [Some (Scenario.debrisAt 50); None].

End ClockExamples.

(** The updates a paused frame can run. *)
Definition pausedUpdates (now : Z) (s : App.State) : list App.Update :=
  if (App.ACTIVE_SAT_INTERVAL <? now - App.lastActiveSatUpdate s)%Z
  then [App.UpdateActiveSatellites]
  else [].

(** The virtual time after a frame at [now]: the date made from the
    time before plus the elapsed real time multiplied by the time
    multiplier. *)
Definition advanced (now : Z) (s : App.State) : App.Date :=
  App.newDate
    (add (App.getTime (App.currentDate s))
         (mul (Fin (inject_Z (now - App.lastUpdateTime s)))
              (App.timeMultiplier s))).

(** The engine after [updateCTSScore] on an engine [e] at [date]: the
    engine after the call of [calculateScore] when there are a player
    position and debris, whether the call returns or throws. *)
Definition scoredEngine (distanceTo : Vector3 -> Vector3 -> num)
    (getPlayerPosition : App.Date -> option Vector3)
    (getDebrisPositions : App.Date -> list (option Vector3))
    (date : App.Date) (e : CTSEngine.State) : CTSEngine.State :=
  match getPlayerPosition date, getDebrisPositions date with
  | Some p, d :: ds =>
      CTSCall.stateOf
        (CTSCall.calculateScore distanceTo (CTSCall.Position p)
           (CTSCall.Positions (d :: ds)) e)
  | _, _ => e
  end.

(* ================================================================== *)
(** ** More of the scoring engine (js/cts-engine.js) *)
(* ================================================================== *)

Module CTSDisplay.

Import String.




End CTSDisplay.

Module CTSStatistics.

Import CTSEngine.

(** The numbers of the object that [getStatistics()] returns.  Its
    [average] is a string made by [toFixed] and is left out. *)
Record Statistics : Type := mkStatistics
  { current : num;
    maximum : num;
    threatsInRange : nat;
    historyLength : nat }.

(** [x || 0] for [x] a number or [undefined] ([None]): [undefined], 0
    and NaN are falsy. *)
Definition orZero (x : option num) : num :=
  match x with
  | Some (Fin q) => if Qeq_bool q 0 then Fin 0 else Fin q
  | Some NaN => Fin 0
  | Some inf => inf
  | None => Fin 0
  end.

(** [Math.max(...scores)] *)
Definition maxOf (scores : list num) : num := fold_left max scores NegInf.

(** [getStatistics()] *)
Definition getStatistics (s : State) : Statistics :=
  let currentScore :=
    orZero (nth_error (historicalScores s)
              (length (historicalScores s) - 1)) in
  let maxScore :=
    match historicalScores s with
    | [] => Fin 0
    | _ :: _ => maxOf (historicalScores s)
    end in
  mkStatistics currentScore maxScore (length (lastThreats s))
    (length (historicalScores s)).

End CTSStatistics.

(** The variables of the engine are in range: every sample of the
    history and the override, if any, are whole numbers from 0 to 100,
    the history holds at most 120 samples, and at most five threats are
    kept. *)
Definition inRange (s : CTSEngine.State) : Prop :=
  Forall (integerIn 0 100) (CTSEngine.historicalScores s)
  /\ (length (CTSEngine.historicalScores s) <= 120)%nat
  /\ (length (CTSEngine.lastThreats s) <= 5)%nat
  /\ match CTSEngine.forceScore s with
     | Some f => integerIn 0 100 f
     | None => True
     end.

(** A call other than [setForceScore(NaN)]. *)
Definition keepsNumbers (c : Call) : Prop :=
  match c with
  | SetForceScore (Some NaN) => False
  | _ => True
  end.

(** [a] is not further away than [b]. *)
Definition closerOrEqual (a b : CTSEngine.Threat) : Prop :=
  le (CTSEngine.distance a) (CTSEngine.distance b) = true.

(** A threat whose distance is a finite number below the danger radius. *)
Definition inDangerZone (t : CTSEngine.Threat) : Prop :=
  exists q : Q, CTSEngine.distance t = Fin q /\ q < 100.

(** [d] is out of range for [p]: the distance is no finite number, or
    it is 100 km or more. *)
Definition outOfRange (distanceTo : Vector3 -> Vector3 -> num)
    (p d : Vector3) : Prop :=
  match distanceTo p d with
  | Fin u => 100 <= u * 1000
  | _ => True
  end.

(* ================================================================== *)
(** ** More of the frame scheduler (js/app.js) *)
(* ================================================================== *)

(** The scoring is due on a frame at [now]. *)
Definition scoringDue (now : Z) (s : App.State) : bool :=
  App.isRunning s && (App.CTS_UPDATE_INTERVAL <? now - App.lastCTSUpdate s)%Z.

(** The variables of [s'] that only the head of a frame and the scoring
    block set are those of [s]. *)
Definition sameControls (s s' : App.State) : Prop :=
  App.isRunning s' = App.isRunning s
  /\ App.currentDate s' = App.currentDate s
  /\ App.lastUpdateTime s' = App.lastUpdateTime s
  /\ App.timeMultiplier s' = App.timeMultiplier s
  /\ App.frameCount s' = App.frameCount s
  /\ App.lastCTSUpdate s' = App.lastCTSUpdate s
  /\ App.engine s' = App.engine s.

(* ================================================================== *)
(** ** The satellite store of the orbital module (js/orbital.js) *)
(* ================================================================== *)

(** A parsed element set [{name, tle1, tle2}]. *)
Record Tle : Type := mkTle
  { tleName : String.string; tle1 : String.string; tle2 : String.string }.

Module OrbitalStore.

Import OrbitalPropagator.

(** The argument of [initSatellites]; a property is [None] when it is
    missing or no array. *)
Record TleData : Type := mkTleData
  { active : option (list Tle);
    debris : option (list Tle);
    critical : option (list Tle) }.

(** The counts [initSatellites] returns. *)
Record Counts : Type := mkCounts
  { activeCount : nat; debrisCount : nat; criticalCount : nat }.

Section Store.

Variable Satrec : Type.
Variable isSatelliteError : Field -> bool.
Variable satellite_propagate : Satrec -> Z -> Outcome.
Variable threeLoaded : bool.

(** [satrec.error] *)
Variable satrecError : Satrec -> Z.

(** [satellite.twoline2satrec(tle1, tle2)]; none when it throws. *)
Variable twoline2satrec : String.string -> String.string -> option Satrec.

(** The module's variables. *)
Record Store : Type := mkStore
  { activeSatellites : list (Satellite Satrec);
    debrisSatellites : list (Satellite Satrec);
    criticalSatellites : list (Satellite Satrec);
    playerSatellite : option (Satellite Satrec) }.

(** The [forEach] of one category, pushing onto [stored]; the boolean
    is false when [twoline2satrec] has thrown, which ends the loop. *)
Fixpoint pushValid (tles : list Tle) (stored : list (Satellite Satrec))
    : list (Satellite Satrec) * bool :=
  match tles with
  | [] => (stored, true)
  | tle :: rest =>
      match twoline2satrec (tle1 tle) (tle2 tle) with
      | None => (stored, false)
      | Some satrec =>
          if (satrecError satrec =? 0)%Z
          then pushValid rest
                 (stored ++ [mkSatellite Satrec (tleName tle) satrec])
          else pushValid rest stored
      end
  end.

Definition pushCategory (category : option (list Tle))
    (stored : list (Satellite Satrec)) : list (Satellite Satrec) * bool :=
  match category with
  | None => (stored, true)
  | Some tles => pushValid tles stored
  end.

(** [initSatellites(tleData)]: the variables afterwards and the counts,
    or no counts when an exception has left the function. *)
Definition initSatellites (tleData : TleData) (st : Store)
    : Store * option Counts :=
  let '(a, completed) := pushCategory (active tleData) [] in
  if negb completed then (mkStore a [] [] (playerSatellite st), None)
  else
    let '(d, completed) := pushCategory (debris tleData) [] in
    if negb completed then (mkStore a d [] (playerSatellite st), None)
    else
      let '(c, completed) := pushCategory (critical tleData) [] in
      if negb completed then (mkStore a d c (playerSatellite st), None)
      else (mkStore a d c (playerSatellite st),
            Some (mkCounts (length a) (length d) (length c))).

(** [initPlayerSatellite(tle)] *)
Definition initPlayerSatellite (tle : Tle) (st : Store) : Store * bool :=
  match twoline2satrec (tle1 tle) (tle2 tle) with
  | None => (st, false)
  | Some satrec =>
      if (satrecError satrec =? 0)%Z
      then (mkStore (activeSatellites st) (debrisSatellites st)
              (criticalSatellites st)
              (Some (mkSatellite Satrec (tleName tle) satrec)), true)
      else (st, false)
  end.

(** [getPlayerPosition(date)] *)
Definition getPlayerPosition (st : Store) (date : Z) : option Vector3 :=
  match playerSatellite st with
  | None => None
  | Some sat =>
      match propagate Satrec isSatelliteError satellite_propagate
              (satrec Satrec sat) date with
      | None => None
      | Some pv => eciToScenePosition threeLoaded (truthy (position pv))
      end
  end.

(** The callback of the [forEach] of [getDebrisPositions] and of
    [getCriticalDebrisPositions]. *)
Definition pushPosition (date : Z) (positions : list (option Vector3))
    (sat : Satellite Satrec) : list (option Vector3) :=
  match propagate Satrec isSatelliteError satellite_propagate
          (satrec Satrec sat) date with
  | Some pv =>
      positions ++ [eciToScenePosition threeLoaded (truthy (position pv))]
  | None => positions
  end.

(** [getDebrisPositions(date)] *)
Definition getDebrisPositions (st : Store) (date : Z)
    : list (option Vector3) :=
  fold_left (pushPosition date) (debrisSatellites st) [].

(** [getCriticalDebrisPositions(date)] *)
Definition getCriticalDebrisPositions (st : Store) (date : Z)
    : list (option Vector3) :=
  fold_left (pushPosition date) (criticalSatellites st) [].

(** The satellites of a category that [initSatellites] keeps. *)
Definition validSatellites (category : option (list Tle))
    : list (Satellite Satrec) :=
  match category with
  | None => []
  | Some tles =>
      flat_map
        (fun tle =>
           match twoline2satrec (tle1 tle) (tle2 tle) with
           | Some satrec =>
               if (satrecError satrec =? 0)%Z
               then [mkSatellite Satrec (tleName tle) satrec]
               else []
           | None => []
           end) tles
  end.

(** The propagation of a satellite gives a result. *)
Definition locatable (date : Z) (sat : Satellite Satrec) : bool :=
  match propagate Satrec isSatelliteError satellite_propagate
          (satrec Satrec sat) date with
  | Some _ => true
  | None => false
  end.

End Store.

End OrbitalStore.

Module StoreExamples.

Import String.

(** A parser for trying things out: it throws on an empty first line,
    the record is 6700 plus the length of the second line, and the
    record of a second line shorter than 69 letters has an error. *)
Definition parseRecord (line1 line2 : string) : option Z :=
  if String.eqb line1 "" then None
  else Some (Z.of_nat (String.length line2) + 6700)%Z.

Definition errorOf (satrec : Z) : Z :=
  if (satrec <? 6769)%Z then 4%Z else 0%Z.

Definition line1 : string :=
  "1 25544U 98067A   25276.49892031  .00013095  00000+0  23997-3 0  9998".

Definition line2 : string :=
  "2 25544  51.6325 130.2428 0001007 193.4972 166.5990 15.49648180531963".

Definition one : string := "1 ".

Definition two : string := "2 ".

Definition userSatellite : string := "USER SATELLITE".

Definition unknown : string := "UNKNOWN".

Definition station : Tle := mkTle "ISS (ZARYA)" line1 line2.

Definition telescope : Tle := mkTle "HST" line1 line2.

Definition truncated : Tle := mkTle "FRAGMENT" line1 "2 25544  51.6325".

Definition emptyStore : OrbitalStore.Store Z :=
  OrbitalStore.mkStore Z [] [] [] None.

Definition catalogue : OrbitalStore.TleData :=
  OrbitalStore.mkTleData (Some [station; truncated]) (Some [truncated; station])
    None.

End StoreExamples.

(* ================================================================== *)
(** ** The data loader (js/data-loader.js) *)
(* ================================================================== *)

(** A string is a [String.string]: a list of code units below 256. *)
Module DataLoader.

Import Ascii String.

Definition newline : ascii := ascii_of_nat 10.

Definition quote : string := String (ascii_of_nat 34) EmptyString.

(** [text.split(newline)] *)
Fixpoint split (text : string) : list string :=
  match text with
  | EmptyString => [EmptyString]
  | String c rest =>
      if Ascii.eqb c newline then EmptyString :: split rest
      else
        match split rest with
        | line :: lines => String c line :: lines
        | [] => [String c EmptyString]
        end
  end.

(** The white space and line terminators [trim] removes, among the code
    units below 256: tab, line feed, vertical tab, form feed, carriage
    return, space and no-break space. *)
Definition isWhiteSpace (c : ascii) : bool :=
  let n := nat_of_ascii c in
  ((9 <=? n) && (n <=? 13))%nat || (n =? 32)%nat || (n =? 160)%nat.

Fixpoint trimStart (s : string) : string :=
  match s with
  | EmptyString => EmptyString
  | String c rest => if isWhiteSpace c then trimStart rest else s
  end.

Fixpoint trimEnd (s : string) : string :=
  match s with
  | EmptyString => EmptyString
  | String c rest =>
      match trimEnd rest with
      | EmptyString => if isWhiteSpace c then EmptyString
                       else String c EmptyString
      | kept => String c kept
      end
  end.

(** [s.trim()] *)
Definition trim (s : string) : string := trimEnd (trimStart s).

(** [s.startsWith(p)] *)
Definition startsWith (p s : string) : bool := prefix p s.

(** The trimmed lines of a text that are not empty. *)
Definition linesOf (text : string) : list string :=
  filter (fun line => (0 <? length line)%nat) (map trim (split text)).

(** The name [parseTLE] gives the element set whose first line is at
    index [i]. *)
Definition nameBefore (lines : list string) (i : nat) : string :=
  match i with
  | O => "UNKNOWN"
  | S j =>
      match nth_error lines j with
      | Some previous =>
          if negb (startsWith "1 " previous)
             && negb (startsWith "2 " previous)
          then previous
          else "UNKNOWN"
      | None => "UNKNOWN"
      end
  end.

(** The [while] loop of [parseTLE], for at most [fuel] iterations. *)
Fixpoint parseLoop (lines : list string) (fuel i : nat)
    (satellites : list Tle) : list Tle :=
  match fuel with
  | O => satellites
  | S fuel' =>
      match nth_error lines i with
      | None => satellites
      | Some line =>
          if startsWith "1 " line then
            match nth_error lines (i + 1) with
            | Some next =>
                if startsWith "2 " next then
                  parseLoop lines fuel' (i + 2)
                    (satellites
                       ++ [mkTle (trim (nameBefore lines i))
                                 (trim line) (trim next)])
                else parseLoop lines fuel' (i + 1) satellites
            | None => parseLoop lines fuel' (i + 1) satellites
            end
          else parseLoop lines fuel' (i + 1) satellites
      end
  end.

(** [parseTLE(tleText)]; [None] is an argument that is no string.  Every
    iteration of the loop moves on by a line at least, so as many
    iterations as there are lines are enough. *)
Definition parseTLE (tleText : option string) : list Tle :=
  match tleText with
  | None => []
  | Some EmptyString => []
  | Some text =>
      let lines := linesOf text in
      parseLoop lines (List.length lines) 0 []
  end.

(** What [validateTLEInput] returns. *)
Record Validation : Type := mkValidation
  { valid : bool; satellite : option Tle; error : option string }.

Definition invalid (message : string) : Validation :=
  mkValidation false None (Some message).

(** [lines.findIndex(line => line.startsWith(p))], from index [i] on;
    none for -1. *)
Fixpoint findIndexFrom (p : string) (lines : list string) (i : nat)
    : option nat :=
  match lines with
  | [] => None
  | line :: rest =>
      if startsWith p line then Some i else findIndexFrom p rest (S i)
  end.

(** [validateTLEInput(inputText)]; [None] is null or undefined. *)
Definition validateTLEInput (inputText : option string) : Validation :=
  match inputText with
  | None => invalid "Please paste TLE data into the input field."
  | Some text =>
      if (length (trim text) =? 0)%nat
      then invalid "Please paste TLE data into the input field."
      else
        let lines := linesOf text in
        if (List.length lines <? 2)%nat
        then invalid
               "TLE data must contain at least 2 lines (Line 1 and Line 2)."
        else
          match findIndexFrom "1 " lines 0 with
          | None =>
              invalid
                ("TLE Line 1 not found. Line 1 must start with "
                 ++ quote ++ "1 " ++ quote
                 ++ " followed by catalog number.")%string
          | Some line1Index =>
              match nth_error lines (line1Index + 1),
                    nth_error lines line1Index with
              | Some line2, Some line1 =>
                  if negb (startsWith "2 " line2)
                  then invalid
                         ("TLE Line 2 is invalid. Line 2 must start with "
                          ++ quote ++ "2 " ++ quote
                          ++ " followed by catalog number.")%string
                  else
                    let name :=
                      match line1Index with
                      | O => "USER SATELLITE"%string
                      | S j => nth j lines "USER SATELLITE"%string
                      end in
                    if (length line1 <? 69)%nat
                    then invalid
                           "TLE Line 1 is too short. Standard TLE Line 1 should be 69 characters."
                    else if (length line2 <? 69)%nat
                    then invalid
                           "TLE Line 2 is too short. Standard TLE Line 2 should be 69 characters."
                    else mkValidation true
                           (Some (mkTle (trim name) (trim line1)
                                        (trim line2)))
                           None
              | _, _ =>
                  invalid
                    "TLE Line 2 is missing. Line 2 must follow Line 1."
              end
          end
  end.

(** A text file of element sets: for each one its name and its two
    lines, every line but the last followed by a line feed. *)
Fixpoint joinLines (lines : list string) : string :=
  match lines with
  | [] => EmptyString
  | [line] => line
  | line :: rest => (line ++ String newline (joinLines rest))%string
  end.

Definition linesOfRecords (records : list Tle) : list string :=
  flat_map (fun r => [tleName r; tle1 r; tle2 r]) records.

Definition formatTLE (records : list Tle) : string :=
  joinLines (linesOfRecords records).

(** A line as a file has it after trimming: not empty, no line feed in
    it, no white space at either end. *)
Definition cleanLine (line : string) : Prop :=
  line <> EmptyString
  /\ trim line = line
  /\ ~ In newline (list_ascii_of_string line).

(** An element set with a name that is no element line, a first line
    that starts with 1 and a second line that starts with 2. *)
Definition wellFormed (r : Tle) : Prop :=
  cleanLine (tleName r) /\ cleanLine (tle1 r) /\ cleanLine (tle2 r)
  /\ startsWith "1 " (tleName r) = false
  /\ startsWith "2 " (tleName r) = false
  /\ startsWith "1 " (tle1 r) = true
  /\ startsWith "2 " (tle2 r) = true.

(** No white space at the start of a string. *)
Definition headKept (s : string) : Prop :=
  match s with
  | EmptyString => True
  | String c _ => isWhiteSpace c = false
  end.

(** What [parseTLE] makes sure of for an element set it returns. *)
Definition parsedRecord (r : Tle) : Prop :=
  startsWith "1 " (tle1 r) = true
  /\ startsWith "2 " (tle2 r) = true
  /\ startsWith "1 " (tleName r) = false
  /\ startsWith "2 " (tleName r) = false
  /\ tleName r <> EmptyString
  /\ trim (tleName r) = tleName r
  /\ trim (tle1 r) = tle1 r
  /\ trim (tle2 r) = tle2 r.

End DataLoader.

(* ================================================================== *)
(** ** Loading the three files (js/data-loader.js) *)
(* ================================================================== *)

Module DataLoading.

(** The keys of [dataFiles]. *)
Inductive Key : Type := Active | Debris | Critical.

(** The object [results]. *)
Record Results : Type := mkResults
  { active : list Tle; debris : list Tle; critical : list Tle }.

(** [results[key] = satellites] *)
Definition setResult (key : Key) (satellites : list Tle) (r : Results)
    : Results :=
  match key with
  | Active => mkResults satellites (debris r) (critical r)
  | Debris => mkResults (active r) satellites (critical r)
  | Critical => mkResults (active r) (debris r) satellites
  end.

(** The variables of a call of [loadAllData], and [called], the
    results its [callback] has been called with so far (always with a
    null error). *)
Record Loading : Type := mkLoading
  { results : Results; pending : Z; called : list Results }.

(** The variables when [loadAllData] has started the three fetches. *)
Definition started : Loading := mkLoading (mkResults [] [] []) 3 [].

Section Load.

(** The [callback] given to [loadAllData] throws. *)
Variable callbackThrows : bool.

(** The callback [loadAllData] gives to [loadTLEFile] for [key], with
    [satellites] none for an error: the variables afterwards, and
    whether it has thrown. *)
Definition fileCallback (key : Key) (satellites : option (list Tle))
    (l : Loading) : Loading * bool :=
  let results :=
    match satellites with
    | Some s => setResult key s (results l)
    | None => results l
    end in
  let pending := (pending l - 1)%Z in
  if (pending =? 0)%Z
  then (mkLoading results pending (called l ++ [results]), callbackThrows)
  else (mkLoading results pending (called l), false).

(** [loadTLEFile(filePath, callback)] when its fetch has settled, with
    the text of the file or none for a failure: what [callback] throws
    inside [then] goes to [catch], which calls it again with the
    error. *)
Definition loadTLEFile (key : Key) (fetched : option String.string)
    (l : Loading) : Loading :=
  match fetched with
  | Some tleText =>
      let '(l1, thrown) :=
        fileCallback key (Some (DataLoader.parseTLE (Some tleText))) l in
      if thrown then fst (fileCallback key None l1) else l1
  | None => fst (fileCallback key None l)
  end.

(** [loadAllData(callback)] when the fetches of [keys] have settled, in
    that order, each with what [fetched] gives for its key. *)
Definition loadAllData (fetched : Key -> option String.string)
    (keys : list Key) : Loading :=
  fold_left (fun l key => loadTLEFile key (fetched key) l) keys started.

End Load.

(** The element sets of a file: those [parseTLE] finds in its text,
    none for a file that could not be fetched. *)
Definition loaded (fetched : option String.string) : list Tle :=
  match fetched with
  | Some tleText => DataLoader.parseTLE (Some tleText)
  | None => []
  end.

End DataLoading.

(* ================================================================== *)
(** ** Facts about numbers *)
(* ================================================================== *)

Lemma Qltb_lt (x y : Q) : Qltb x y = true <-> x < y.
Proof.
  unfold Qltb. rewrite Qlt_alt.
  destruct (x ?= y); split; congruence.
Qed.

Lemma Qltb_ge (x y : Q) : Qltb x y = false <-> y <= x.
Proof.
  split; intro H.
  - apply Qnot_lt_le. intro L. apply Qltb_lt in L. congruence.
  - destruct (Qltb x y) eqn:E; [|reflexivity].
    apply Qltb_lt in E. exfalso. exact (Qlt_not_le _ _ E H).
Qed.

Lemma lt_Fin (x y : Q) : lt (Fin x) (Fin y) = Qltb x y.
Proof. reflexivity. Qed.

Lemma ge_Fin (x y : Q) : ge (Fin x) (Fin y) = true <-> y <= x.
Proof.
  unfold ge; simpl. rewrite Qle_alt.
  rewrite <- (Qcompare_antisym x y).
  destruct (x ?= y); simpl; split; intro H; congruence.
Qed.

Lemma round_nonneg (q : Q) : 0 <= q -> (0 <= Qfloor (q + (1 # 2)))%Z.
Proof.
  intro H. change 0%Z with (Qfloor 0).
  apply Qfloor_resp_le. lra.
Qed.

(** [Math.min(n, 100)] of a whole number that is not negative. *)
Lemma min_100_integer (z : Z) :
  (0 <= z)%Z -> integerIn 0 100 (min (Fin (inject_Z z)) (Fin 100)).
Proof.
  intro Hz. unfold min; simpl.
  destruct (inject_Z z ?= 100) eqn:E.
  - apply Qeq_alt in E. exists z. split; [reflexivity|].
    unfold Qeq in E; simpl in E. lia.
  - apply Qlt_alt in E. exists z. split; [reflexivity|].
    unfold Qlt in E; simpl in E. lia.
  - exists 100%Z. split; [reflexivity | lia].
Qed.

Lemma round_inject_Z (z : Z) : round (Fin (inject_Z z)) = Fin (inject_Z z).
Proof.
  cbn [round]. do 2 f_equal. unfold Qfloor, Qplus.
  cbn [inject_Z Qnum Qden]. rewrite Z.mul_1_l.
  change (Z.pos (1 * 2)) with 2%Z. change (Z.pos 2) with 2%Z.
  rewrite Z.div_add_l by lia. change (1 / 2)%Z with 0%Z. lia.
Qed.

Lemma last_cons_default {A : Type} (l : list A) :
  forall a d : A, last (a :: l) d = last l a.
Proof.
  induction l as [|b l IH]; intros a d; [reflexivity|].
  change (last (a :: b :: l) d) with (last (b :: l) d).
  rewrite (IH b d), (IH b a). reflexivity.
Qed.

Section ScoreSum.

Import CTSEngine ScoringSpec.

Variable distanceTo : Vector3 -> Vector3 -> num.

Lemma analyzeDebris_finite (p d : Vector3) (u a : Q)
    (ts : list Threat) (i : nat) :
  distanceTo p d = Fin u ->
  exists a',
    analyzeDebris distanceTo p (Fin a, ts) d i
      = (Fin a', ts ++ activeThreats [u * 1000] i)
    /\ a' == a + contribution (u * 1000).
Proof.
  intro Hd. unfold analyzeDebris. rewrite Hd. simpl mul. simpl negb.
  cbv [orb isNaN isFinite negb].
  unfold DANGER_RADIUS, CRITICAL_RADIUS, EXTREME_RADIUS.
  rewrite !lt_Fin. unfold contribution. simpl activeThreats.
  set (km := u * 1000).
  destruct (Qltb km 100) eqn:E100.
  - assert (L100 : km < 100) by (apply Qltb_lt; exact E100).
    assert (N100 : Qle_bool 100 km = false).
    { destruct (Qle_bool 100 km) eqn:E; [|reflexivity].
      apply Qle_bool_iff in E. lra. }
    rewrite N100.
    destruct (Qltb km 10) eqn:E10.
    + destruct (Qltb km 5) eqn:E5; eexists; (split; [reflexivity|]);
        simpl; unfold Qminus; ring.
    + assert (N5 : Qltb km 5 = false).
      { apply Qltb_ge. apply Qltb_ge in E10. lra. }
      rewrite N5. eexists; (split; [reflexivity|]).
      simpl; unfold Qminus; ring.
  - assert (G100 : Qle_bool 100 km = true).
    { apply Qle_bool_iff. apply Qltb_ge. exact E100. }
    rewrite G100. exists a. split.
    + rewrite app_nil_r. reflexivity.
    + ring.
Qed.

Lemma forEachDebris_finite (p : Vector3) (ds : list Vector3)
    (units : list Q) :
  Forall2 (fun d u => distanceTo p d = Fin u) ds units ->
  forall (i : nat) (a : Q) (ts : list Threat),
  exists a',
    forEachDebris distanceTo p ds i (Fin a, ts)
      = (Fin a', ts ++ activeThreats (kilometres units) i)
    /\ a' == a + total (kilometres units).
Proof.
  induction 1 as [|d u ds units Hd _ IH]; intros i a ts.
  - exists a. simpl. rewrite app_nil_r. split; [reflexivity|].
    unfold total; simpl. ring.
  - destruct (analyzeDebris_finite p d u a ts i Hd) as (a1 & E1 & Q1).
    destruct (IH (S i) a1 (ts ++ activeThreats [u * 1000] i))
      as (a2 & E2 & Q2).
    exists a2. split.
    + cbn [forEachDebris]. rewrite E1, E2.
      f_equal. rewrite <- app_assoc. f_equal.
      simpl. rewrite app_nil_r. reflexivity.
    + rewrite Q2, Q1. unfold total, kilometres; simpl. ring.
Qed.

End ScoreSum.

Section ScoreFacts.

Import CTSEngine ScoringSpec.

Variable distanceTo : Vector3 -> Vector3 -> num.

(** The accumulated score is a finite number that is not negative,
    whatever the distances are. *)
Lemma analyzeDebris_nonneg (p d : Vector3) (a : Q)
    (ts : list Threat) (i : nat) :
  0 <= a ->
  exists a' ts',
    analyzeDebris distanceTo p (Fin a, ts) d i = (Fin a', ts')
    /\ 0 <= a'.
Proof.
  intro Ha. destruct (distanceTo p d) as [u| | |] eqn:Hd.
  - destruct (analyzeDebris_finite distanceTo p d u a ts i Hd)
      as (a' & E & Q').
    exists a', (ts ++ activeThreats [u * 1000] i). split; [exact E|].
    rewrite Q'. unfold contribution.
    destruct (Qle_bool 100 (u * 1000)) eqn:E100; [lra|].
    assert (u * 1000 < 100).
    { apply Qnot_le_lt. intro L. apply Qle_bool_iff in L. congruence. }
    destruct (Qltb (u * 1000) 10), (Qltb (u * 1000) 5); lra.
  - exists a, ts. unfold analyzeDebris. rewrite Hd. split; [reflexivity|exact Ha].
  - exists a, ts. unfold analyzeDebris. rewrite Hd. split; [reflexivity|exact Ha].
  - exists a, ts. unfold analyzeDebris. rewrite Hd. split; [reflexivity|exact Ha].
Qed.

Lemma forEachDebris_nonneg (p : Vector3) (ds : list Vector3) :
  forall (i : nat) (a : Q) (ts : list Threat),
  0 <= a ->
  exists a' ts',
    forEachDebris distanceTo p ds i (Fin a, ts) = (Fin a', ts')
    /\ 0 <= a'.
Proof.
  induction ds as [|d ds IH]; intros i a ts Ha.
  - exists a, ts. split; [reflexivity | exact Ha].
  - destruct (analyzeDebris_nonneg p d a ts i Ha) as (a1 & ts1 & E1 & H1).
    cbn [forEachDebris]. rewrite E1. apply IH. exact H1.
Qed.

(** Without an override the returned score is a whole number from 0
    to 100. *)
Lemma calculateScore_live_integer (p : option Vector3)
    (ds : option (list Vector3)) (s : State) :
  forceScore s = None ->
  integerIn 0 100 (fst (calculateScore distanceTo p ds s)).
Proof.
  intro Hf. unfold calculateScore. rewrite Hf.
  assert (Z0 : integerIn 0 100 (Fin 0)).
  { exists 0%Z. split; [reflexivity | lia]. }
  destruct p as [p|]; [|exact Z0].
  destruct ds as [[|d ds]|]; [exact Z0| |exact Z0].
  unfold scanDebris.
  destruct (forEachDebris_nonneg p (d :: ds) 0%nat 0 [] (Qle_refl 0))
    as (a & ts & E & Ha).
  rewrite E. cbn [fst round]. apply min_100_integer.
  apply round_nonneg. exact Ha.
Qed.

(** The history after any call is the history before with the returned
    score pushed; the override is left as it is. *)
Lemma calculateScore_history (p : option Vector3)
    (ds : option (list Vector3)) (s : State) :
  historicalScores (snd (calculateScore distanceTo p ds s))
    = pushHistory (fst (calculateScore distanceTo p ds s))
        (historicalScores s)
  /\ forceScore (snd (calculateScore distanceTo p ds s)) = forceScore s.
Proof.
  unfold calculateScore.
  destruct (forceScore s) eqn:Hf; [split; reflexivity|].
  destruct p as [p|]; [|split; reflexivity].
  destruct ds as [[|d ds]|]; try (split; reflexivity).
  destruct (scanDebris distanceTo p (d :: ds)) as [acc ts].
  split; reflexivity.
Qed.

End ScoreFacts.

Lemma pushHistory_length (v : num) (h : list num) :
  (length h <= CTSEngine.MAX_HISTORY)%nat ->
  length (CTSEngine.pushHistory v h)
    = Nat.min (S (length h)) CTSEngine.MAX_HISTORY.
Proof.
  intro H. unfold CTSEngine.pushHistory.
  assert (L : length (h ++ [v]) = S (length h)).
  { rewrite length_app. simpl. lia. }
  destruct (Nat.ltb_spec CTSEngine.MAX_HISTORY (length (h ++ [v]))) as [G|G];
    unfold CTSEngine.MAX_HISTORY in *.
  - destruct (h ++ [v]) as [|x r] eqn:E; simpl in *; lia.
  - rewrite L in *. lia.
Qed.

Lemma pushHistory_room (v : num) (h : list num) :
  (length h < CTSEngine.MAX_HISTORY)%nat ->
  CTSEngine.pushHistory v h = h ++ [v].
Proof.
  intro H. unfold CTSEngine.pushHistory.
  destruct (Nat.ltb_spec CTSEngine.MAX_HISTORY (length (h ++ [v]))) as [G|G];
    [|reflexivity].
  rewrite length_app in G. simpl in G. unfold CTSEngine.MAX_HISTORY in *. lia.
Qed.

Lemma pushHistory_full (v : num) (h : list num) :
  length h = CTSEngine.MAX_HISTORY ->
  CTSEngine.pushHistory v h = tl h ++ [v].
Proof.
  intro H. unfold CTSEngine.pushHistory.
  destruct (Nat.ltb_spec CTSEngine.MAX_HISTORY (length (h ++ [v]))) as [G|G].
  - destruct h as [|x r]; [discriminate H | reflexivity].
  - rewrite length_app in G. simpl in G. unfold CTSEngine.MAX_HISTORY in *. lia.
Qed.


(** C1.  When every distance from the player to a debris object is a
    finite number, the score [calculateScore] has accumulated when its
    loop ends, before rounding and the cap, is the sum over the objects
    of: nothing for an object at 100 km or more, and otherwise
    [(100 - d) * 0.5], with 50 more below 10 km and 80 more below 5 km,
    where [d] is the scene distance times 1000; the [threats] array holds
    exactly the objects below 100 km, in order, each with its distance
    and [(100 - d) * 0.5]; and the returned score is that sum rounded and
    capped at 100. *)
Theorem calculateScore_accumulated_sum
    (distanceTo : Vector3 -> Vector3 -> num) (p : Vector3)
    (ds : list Vector3) (units : list Q) :
  Forall2 (fun d u => distanceTo p d = Fin u) ds units ->
  exists acc : Q,
    CTSEngine.scanDebris distanceTo p ds
      = (Fin acc,
         ScoringSpec.activeThreats (ScoringSpec.kilometres units) 0)
    /\ acc == ScoringSpec.total (ScoringSpec.kilometres units)
    /\ forall s : CTSEngine.State,
         CTSEngine.forceScore s = None -> ds <> [] ->
         fst (CTSEngine.calculateScore distanceTo (Some p) (Some ds) s)
           = min (round (Fin acc)) (Fin 100).
Proof.
  intro H.
  destruct (forEachDebris_finite distanceTo p ds units H 0%nat 0 [])
    as (acc & E & Hq).
  exists acc. split; [exact E|]. split.
  - rewrite Hq. ring.
  - intros s Hf Hne. unfold CTSEngine.calculateScore. rewrite Hf.
    destruct ds as [|d rest]; [congruence|].
    unfold CTSEngine.scanDebris in *. rewrite E. reflexivity.
Qed.

Lemma calculateScore_accumulated_sum_witness :
  Forall2 (fun d u => Examples.alongAxis Examples.player d = Fin u)
    [Scenario.debrisAt 3; Scenario.debrisAt 50; Scenario.debrisAt 300]
    [Scenario.gap 3; Scenario.gap 50; Scenario.gap 300]
  /\ exists acc : Q,
       CTSEngine.scanDebris Examples.alongAxis Examples.player
         [Scenario.debrisAt 3; Scenario.debrisAt 50; Scenario.debrisAt 300]
       = (Fin acc,
          ScoringSpec.activeThreats
            (ScoringSpec.kilometres
               [Scenario.gap 3; Scenario.gap 50; Scenario.gap 300]) 0)
       /\ acc == ScoringSpec.total
                   (ScoringSpec.kilometres
                      [Scenario.gap 3; Scenario.gap 50; Scenario.gap 300])
       /\ forall s : CTSEngine.State,
            CTSEngine.forceScore s = None ->
            [Scenario.debrisAt 3; Scenario.debrisAt 50; Scenario.debrisAt 300]
              <> [] ->
            fst (CTSEngine.calculateScore Examples.alongAxis
                   (Some Examples.player)
                   (Some [Scenario.debrisAt 3; Scenario.debrisAt 50;
                          Scenario.debrisAt 300]) s)
              = min (round (Fin acc)) (Fin 100).
Proof.
  assert (H : Forall2
                (fun d u => Examples.alongAxis Examples.player d = Fin u)
                [Scenario.debrisAt 3; Scenario.debrisAt 50;
                 Scenario.debrisAt 300]
                [Scenario.gap 3; Scenario.gap 50; Scenario.gap 300]).
  { repeat constructor. }
  split; [exact H|].
  exact (calculateScore_accumulated_sum Examples.alongAxis Examples.player
           _ _ H).
Defined.

Example accumulated_three_objects :
  exists acc ts,
    CTSEngine.scanDebris Examples.alongAxis Examples.player
      [Scenario.debrisAt 3; Scenario.debrisAt 50; Scenario.debrisAt 300]
    = (Fin acc, ts)
    /\ acc == (97 # 2) + 50 + 80 + 25
    /\ map CTSEngine.index ts = [0%nat; 1%nat].
Proof.
  eexists. eexists. split; [vm_compute; reflexivity|].
  split; reflexivity.
Qed.

(** An override set from any number but NaN is a whole number from 0 to
    100. *)
Lemma setForceScore_integer (v : num) (s : CTSEngine.State) :
  v <> NaN ->
  exists f,
    CTSEngine.forceScore (CTSEngine.setForceScore (Some v) s) = Some f
    /\ integerIn 0 100 f.
Proof.
  intro Hv. eexists. split; [reflexivity|].
  destruct v as [q| | |]; [|congruence| |].
  - cbn [round]. set (z := Qfloor (q + (1 # 2))).
    unfold max; simpl cmp.
    destruct (inject_Z z ?= 0) eqn:E.
    + apply min_100_integer. apply Qeq_alt in E.
      unfold Qeq in E; simpl in E. lia.
    + exists 0%Z. split; [reflexivity | lia].
    + apply min_100_integer. apply Qgt_alt in E.
      unfold Qlt in E; simpl in E. lia.
  - exists 100%Z. split; [reflexivity | lia].
  - exists 0%Z. split; [reflexivity | lia].
Qed.

(** C2.  With the override set from NaN, [calculateScore] returns NaN
    for every player position and debris list, and NaN is no whole
    number from 0 to 100. *)
Theorem calculateScore_override_NaN
    (distanceTo : Vector3 -> Vector3 -> num) (p : option Vector3)
    (ds : option (list Vector3)) (s : CTSEngine.State) :
  fst (CTSEngine.calculateScore distanceTo p ds
         (CTSEngine.setForceScore (Some NaN) s)) = NaN
  /\ ~ integerIn 0 100 NaN.
Proof.
  split; [reflexivity|].
  intros (z & E & _). discriminate E.
Qed.

(** In every other case the returned score is a whole number from 0 to
    100: with no override, and with one set from a number that is not
    NaN. *)
Lemma calculateScore_integer_otherwise
    (distanceTo : Vector3 -> Vector3 -> num) (p : option Vector3)
    (ds : option (list Vector3)) (s : CTSEngine.State) :
  (CTSEngine.forceScore s = None ->
   integerIn 0 100 (fst (CTSEngine.calculateScore distanceTo p ds s)))
  /\ (forall v, v <> NaN ->
      integerIn 0 100
        (fst (CTSEngine.calculateScore distanceTo p ds
                (CTSEngine.setForceScore (Some v) s)))).
Proof.
  split.
  - apply calculateScore_live_integer.
  - intros v Hv.
    destruct (setForceScore_integer v s Hv) as (f & Ef & Hf).
    unfold CTSEngine.calculateScore. rewrite Ef. exact Hf.
Qed.

(** C3 as the specification has it does not hold: one object 50 km away
    gives the score 25, whose status is not Elevated. *)
Lemma status_at_50km_not_elevated :
  fst (CTSEngine.calculateScore Examples.alongAxis
         (Some Examples.player) (Some [Scenario.debrisAt 50])
         CTSEngine.initial) = Fin 25
  /\ CTSEngine.getScoreStatus
       (fst (CTSEngine.calculateScore Examples.alongAxis
               (Some Examples.player) (Some [Scenario.debrisAt 50])
               CTSEngine.initial))
     <> CTSEngine.ELEVATED.
Proof.
  split; [reflexivity|].
  vm_compute. discriminate.
Qed.

(** C3, amended.  With one debris object 50 km from the player and no
    override, [calculateScore] returns 25, and [getScoreStatus] of that
    score is Nominal. *)
Theorem score_at_50km_is_25_nominal
    (distanceTo : Vector3 -> Vector3 -> num) (p d : Vector3) (u : Q)
    (s : CTSEngine.State) :
  distanceTo p d = Fin u ->
  u * 1000 == 50 ->
  CTSEngine.forceScore s = None ->
  fst (CTSEngine.calculateScore distanceTo (Some p) (Some [d]) s) = Fin 25
  /\ CTSEngine.getScoreStatus
       (fst (CTSEngine.calculateScore distanceTo (Some p) (Some [d]) s))
     = CTSEngine.NOMINAL.
Proof.
  intros Hd Hu Hf.
  assert (Hall : Forall2 (fun d u => distanceTo p d = Fin u) [d] [u])
    by (repeat constructor; exact Hd).
  destruct (forEachDebris_finite distanceTo p [d] [u] Hall 0%nat 0 [])
    as (acc & Escan & Hacc).
  assert (E : fst (CTSEngine.calculateScore distanceTo (Some p) (Some [d]) s)
              = Fin 25).
  { unfold CTSEngine.calculateScore, CTSEngine.scanDebris.
    rewrite Hf, Escan. cbn [fst].
    assert (A : acc == 25).
    { rewrite Hacc. unfold ScoringSpec.total, ScoringSpec.kilometres.
      simpl. unfold ScoringSpec.contribution.
      assert (N100 : Qle_bool 100 (u * 1000) = false).
      { destruct (Qle_bool 100 (u * 1000)) eqn:E; [|reflexivity].
        apply Qle_bool_iff in E. lra. }
      assert (N10 : Qltb (u * 1000) 10 = false) by (apply Qltb_ge; lra).
      assert (N5 : Qltb (u * 1000) 5 = false) by (apply Qltb_ge; lra).
      rewrite N100, N10, N5. lra. }
    cbn [round]. rewrite A. reflexivity. }
  rewrite E. split; reflexivity.
Qed.

Lemma score_at_50km_is_25_nominal_witness :
  Examples.alongAxis Examples.player (Scenario.debrisAt 50)
    = Fin (Scenario.gap 50)
  /\ Scenario.gap 50 * 1000 == 50
  /\ CTSEngine.forceScore CTSEngine.initial = None
  /\ fst (CTSEngine.calculateScore Examples.alongAxis
            (Some Examples.player) (Some [Scenario.debrisAt 50])
            CTSEngine.initial) = Fin 25
  /\ CTSEngine.getScoreStatus
       (fst (CTSEngine.calculateScore Examples.alongAxis
               (Some Examples.player) (Some [Scenario.debrisAt 50])
               CTSEngine.initial))
     = CTSEngine.NOMINAL.
Proof.
  split; [reflexivity|]. split; [reflexivity|]. split; [reflexivity|].
  apply (score_at_50km_is_25_nominal Examples.alongAxis Examples.player
           (Scenario.debrisAt 50) (Scenario.gap 50) CTSEngine.initial);
    reflexivity.
Defined.

Section CallFacts.

Import CTSEngine.

Variable distanceTo : Vector3 -> Vector3 -> num.

Lemma calculateScore_length (p : option Vector3)
    (ds : option (list Vector3)) (s : State) :
  (length (historicalScores s) <= MAX_HISTORY)%nat ->
  length (historicalScores (snd (calculateScore distanceTo p ds s)))
    = Nat.min (S (length (historicalScores s))) MAX_HISTORY.
Proof.
  intro H.
  rewrite (proj1 (calculateScore_history distanceTo p ds s)).
  apply pushHistory_length. exact H.
Qed.

(** On an array of vectors the loop runs to its end, as
    [forEachDebris]. *)
Lemma forEachEntry_positions (p : Vector3) (ds : list Vector3) :
  forall (i : nat) (acc : num * list Threat),
  CTSCall.forEachEntry distanceTo p (map Some ds) i acc
    = Some (forEachDebris distanceTo p ds i acc).
Proof.
  induction ds as [|d ds IH]; intros i acc; [reflexivity|].
  cbn [map CTSCall.forEachEntry forEachDebris]. apply IH.
Qed.

(** On an array that holds [null] the loop throws. *)
Lemma forEachEntry_null (p : Vector3) (ds : list Vector3)
    (rest : list (option Vector3)) :
  forall (i : nat) (acc : num * list Threat),
  CTSCall.forEachEntry distanceTo p (map Some ds ++ None :: rest) i acc
    = None.
Proof.
  induction ds as [|d ds IH]; intros i acc; [reflexivity|].
  cbn [map app CTSCall.forEachEntry]. apply IH.
Qed.

(** On a position or [null] and an array of vectors or [null], the call
    returns, and what it returns and leaves behind is what
    [CTSEngine.calculateScore] gives. *)
Lemma calculateScore_well_typed (p : option Vector3)
    (ds : option (list Vector3)) (s : State) :
  CTSCall.calculateScore distanceTo (CTSCall.position p)
    (CTSCall.positions ds) s
  = CTSCall.Returned (fst (calculateScore distanceTo p ds s))
      (snd (calculateScore distanceTo p ds s)).
Proof.
  unfold CTSCall.calculateScore, calculateScore.
  destruct (forceScore s) as [f|]; [reflexivity|].
  destruct p as [p|]; [|reflexivity].
  destruct ds as [[|d ds]|]; [reflexivity| |reflexivity].
  cbn [CTSCall.position CTSCall.positions map].
  change (Some d :: map Some ds) with (map Some (d :: ds)).
  rewrite forEachEntry_positions. unfold scanDebris.
  destruct (forEachDebris distanceTo p (d :: ds) 0 (Fin 0, []))
    as [acc ts].
  reflexivity.
Qed.

(** A call that returns has pushed the score it returns and kept the
    override; a call that throws has changed nothing. *)
Lemma calculateScore_outcome (p : CTSCall.Player) (ds : CTSCall.Debris)
    (s : State) :
  match CTSCall.calculateScore distanceTo p ds s with
  | CTSCall.Returned score s' =>
      historicalScores s' = pushHistory score (historicalScores s)
      /\ forceScore s' = forceScore s
  | CTSCall.Thrown s' => s' = s
  end.
Proof.
  unfold CTSCall.calculateScore.
  destruct (forceScore s) as [f|].
  - split; [reflexivity | reflexivity].
  - destruct p as [|p|]; [split; [reflexivity | reflexivity]| |].
    + destruct ds as [|[|e es]|];
        [split; [reflexivity | reflexivity]
        |split; [reflexivity | reflexivity]| |reflexivity].
      destruct (CTSCall.forEachEntry distanceTo p (e :: es) 0 (Fin 0, []))
        as [[acc ts]|]; [|reflexivity].
      split; [reflexivity | reflexivity].
    + destruct ds as [|[|e es]|];
        [split; [reflexivity | reflexivity]
        |split; [reflexivity | reflexivity]|reflexivity|reflexivity].
Qed.

Lemma call_length (c : Call) (s : State) :
  (length (historicalScores s) <= MAX_HISTORY)%nat ->
  length (historicalScores (call distanceTo c s))
    = Nat.min (length (historicalScores s)
               + (if scores distanceTo c s then 1 else 0)) MAX_HISTORY.
Proof.
  intro H. destruct c as [p ds|v].
  - cbn [call scores].
    pose proof (calculateScore_outcome p ds s) as O.
    destruct (CTSCall.calculateScore distanceTo p ds s) as [score s'|s'].
    + destruct O as [O _]. cbn [CTSCall.stateOf]. rewrite O.
      rewrite pushHistory_length by exact H.
      unfold MAX_HISTORY in *. lia.
    + cbn [CTSCall.stateOf]. subst s'. unfold MAX_HISTORY in *. lia.
  - cbn [call scores]. destruct v; cbn [setForceScore historicalScores];
      unfold MAX_HISTORY in *; lia.
Qed.

Lemma calls_length (cs : list Call) :
  forall s : State,
  (length (historicalScores s) <= MAX_HISTORY)%nat ->
  length (historicalScores (calls distanceTo cs s))
    = Nat.min (length (historicalScores s) + scoringCalls distanceTo cs s)
        MAX_HISTORY.
Proof.
  induction cs as [|c cs IH]; intros s H.
  - cbn [calls scoringCalls]. unfold MAX_HISTORY in *. lia.
  - cbn [calls scoringCalls].
    pose proof (call_length c s H) as L.
    rewrite IH by (rewrite L; unfold MAX_HISTORY; lia).
    rewrite L. unfold MAX_HISTORY in *.
    destruct (scores distanceTo c s); lia.
Qed.



(** Without an override, a missing player position or a missing or
    empty debris list gives 0, pushes 0, and leaves [lastThreats] as
    it was. *)
Lemma calculateScore_invalid_input (p : option Vector3)
    (ds : option (list Vector3)) (s : State) :
  forceScore s = None ->
  p = None \/ ds = None \/ ds = Some [] ->
  calculateScore distanceTo p ds s
    = (Fin 0, mkState (pushHistory (Fin 0) (historicalScores s))
                      None (lastThreats s)).
Proof.
  intros Hf H. unfold calculateScore. rewrite Hf.
  destruct H as [-> | [-> | ->]]; [reflexivity| |];
    destruct p; reflexivity.
Qed.

(** What [setForceScore] stores for a number. *)
Lemma setForceScore_clamped (v : num) (s : State) :
  forceScore (setForceScore (Some v) s) = Some (clampedScore v).
Proof.
  cbn [setForceScore forceScore]. f_equal.
  destruct v as [q| | |]; try reflexivity.
  cbn [round clampedScore].
  set (z := Qfloor (q + (1 # 2))).
  unfold max, min, cmp.
  destruct (inject_Z z ?= 0) eqn:E0.
  - apply Qeq_alt in E0. unfold Qeq in E0. simpl in E0.
    assert (z = 0%Z) by lia. subst z. rewrite H. reflexivity.
  - apply Qlt_alt in E0. unfold Qlt in E0. simpl in E0.
    replace (Z.max z 0) with 0%Z by lia. reflexivity.
  - apply Qgt_alt in E0. unfold Qlt in E0. simpl in E0.
    destruct (inject_Z z ?= 100) eqn:E1.
    + apply Qeq_alt in E1. unfold Qeq in E1. simpl in E1.
      do 2 f_equal. lia.
    + apply Qlt_alt in E1. unfold Qlt in E1. simpl in E1.
      do 2 f_equal. lia.
    + apply Qgt_alt in E1. unfold Qlt in E1. simpl in E1.
      replace (Z.min (Z.max z 0) 100) with 100%Z by lia. reflexivity.
Qed.

(** A whole number from 0 to 100 is stored as it is. *)
Lemma clampedScore_whole (z : Z) :
  (0 <= z <= 100)%Z -> clampedScore (Fin (inject_Z z)) = Fin (inject_Z z).
Proof.
  intro H. cbn [clampedScore]. do 2 f_equal.
  assert (F : Qfloor (inject_Z z + (1 # 2)) = z).
  { pose proof (round_inject_Z z) as R. cbn [round] in R.
    injection R as R. exact R. }
  rewrite F. lia.
Qed.

End CallFacts.

(** C4.  With no override, [calculateScore] called with a player
    position and a debris array that holds [null] behind any number of
    vectors -- the array [getDebrisPositions] builds when
    [eciToScenePosition] rejects a propagated position -- throws inside
    its loop, before the history is written: no sample is appended and
    none is evicted, so a history shorter than 120 does not grow by one.
    A truthy player position without [distanceTo] does the same on any
    array that is not empty, and so does a truthy second argument that
    is no array. *)
Theorem calculateScore_throws_before_history
    (distanceTo : Vector3 -> Vector3 -> num) (s : CTSEngine.State)
    (p : Vector3) (ds : list Vector3) (rest : list (option Vector3)) :
  CTSEngine.forceScore s = None ->
  let o := CTSCall.calculateScore distanceTo (CTSCall.Position p)
             (CTSCall.Positions (map Some ds ++ None :: rest)) s in
  o = CTSCall.Thrown s
  /\ CTSEngine.getHistory (CTSCall.stateOf o) = CTSEngine.getHistory s
  /\ ((length (CTSEngine.getHistory s) < 120)%nat ->
      length (CTSEngine.getHistory (CTSCall.stateOf o))
        <> S (length (CTSEngine.getHistory s)))
  /\ (forall e es,
        CTSCall.calculateScore distanceTo CTSCall.NotAVector
          (CTSCall.Positions (e :: es)) s = CTSCall.Thrown s)
  /\ CTSCall.calculateScore distanceTo (CTSCall.Position p)
       CTSCall.NotAnArray s = CTSCall.Thrown s.
Proof.
  intros Hf o.
  assert (E : o = CTSCall.Thrown s).
  { subst o. unfold CTSCall.calculateScore. rewrite Hf.
    destruct ds as [|d ds'].
    - reflexivity.
    - cbn [map app].
      change (Some d :: map Some ds' ++ None :: rest)
        with (map Some (d :: ds') ++ None :: rest).
      rewrite forEachEntry_null. reflexivity. }
  split; [exact E|]. rewrite E. cbn [CTSCall.stateOf].
  split; [reflexivity|]. split; [lia|]. split.
  - intros e es. unfold CTSCall.calculateScore. rewrite Hf. reflexivity.
  - unfold CTSCall.calculateScore. rewrite Hf. reflexivity.
Qed.

Lemma calculateScore_throws_before_history_witness :
  CTSEngine.forceScore Scenario.afterCloseApproach = None
  /\ CTSCall.calculateScore Examples.alongAxis
       (CTSCall.Position Examples.player)
       (CTSCall.Positions [Some (Scenario.debrisAt 50); None])
       Scenario.afterCloseApproach
     = CTSCall.Thrown Scenario.afterCloseApproach
  /\ length (CTSEngine.getHistory Scenario.afterCloseApproach) = 1%nat.
Proof.
  split; [reflexivity|]. split; [|reflexivity].
  exact (proj1 (calculateScore_throws_before_history Examples.alongAxis
                  Scenario.afterCloseApproach Examples.player
                  [Scenario.debrisAt 50] [] eq_refl)).
Defined.

(** C5.  After a scoring tick that found a fragment 3 km away, a call
    with an empty debris list and no override returns 0 and pushes 0,
    and [getClosestThreats] still gives the threat of the tick before. *)
Theorem closest_threats_stale_after_empty_debris :
  let s := Scenario.afterCloseApproach in
  let r := CTSEngine.calculateScore Examples.alongAxis
             (Some Examples.player) (Some []) s in
  CTSEngine.forceScore s = None
  /\ fst r = Fin 0
  /\ CTSEngine.getHistory (snd r) = CTSEngine.getHistory s ++ [Fin 0]
  /\ map CTSEngine.index (CTSEngine.getClosestThreats (snd r)) = [0%nat]
  /\ CTSEngine.getClosestThreats (snd r) <> [].
Proof.
  cbv zeta. split; [reflexivity|]. split; [reflexivity|].
  split; [reflexivity|]. split; [reflexivity|].
  vm_compute. discriminate.
Qed.



Section PropagationFacts.

Import OrbitalPropagator.

Variable Satrec : Type.
Variable isSatelliteError : Field -> bool.
Variable satellite_propagate : Satrec -> Z -> Outcome.
Variable threeLoaded : bool.

Lemma positionOf_length (date : Z) (sat : Satellite Satrec) :
  (length (positionOf Satrec isSatelliteError satellite_propagate
               threeLoaded date sat) <= 1)%nat.
Proof.
  unfold positionOf.
  destruct (propagate _ _ _ _ _); simpl; lia.
Qed.

Lemma flat_map_positionOf_length (date : Z)
    (sats : list (Satellite Satrec)) :
  (length (flat_map (positionOf Satrec isSatelliteError satellite_propagate
               threeLoaded date) sats) <= length sats)%nat.
Proof.
  induction sats as [|sat sats IH]; simpl; [lia|].
  rewrite length_app. pose proof (positionOf_length date sat). lia.
Qed.

Lemma skipn_nth_error {A : Type} (l : list A) :
  forall i : nat, (i < length l)%nat ->
  exists x, nth_error l i = Some x /\ skipn i l = x :: skipn (S i) l.
Proof.
  induction l as [|a l IH]; intros i H; simpl in H; [lia|].
  destruct i as [|i].
  - exists a. split; reflexivity.
  - destruct (IH i) as (x & E1 & E2); [lia|].
    exists x. split; [exact E1 | exact E2].
Qed.

(** The loop from index [i] adds the positions of the next
    [remaining] satellites, in order. *)
Lemma activeLoop_flat_map (sats : list (Satellite Satrec)) (date : Z)
    (remaining : nat) :
  forall (i : nat) (positions : list (option Vector3)),
  (i + remaining <= length sats)%nat ->
  activeLoop Satrec isSatelliteError satellite_propagate threeLoaded
    sats date i remaining positions
    = positions
      ++ flat_map (positionOf Satrec isSatelliteError satellite_propagate
               threeLoaded date) (firstn remaining (skipn i sats)).
Proof.
  induction remaining as [|r IH]; intros i positions H.
  - simpl. rewrite app_nil_r. reflexivity.
  - destruct (skipn_nth_error sats i) as (sat & E1 & E2); [lia|].
    cbn [activeLoop]. rewrite IH by lia.
    rewrite E2. cbn [firstn flat_map]. rewrite app_assoc. f_equal.
    unfold activeStep. rewrite E1.
    unfold positionOf.
    destruct (propagate _ _ _ _ _); [reflexivity|].
    rewrite app_nil_r. reflexivity.
Qed.

End PropagationFacts.

(** C8 as the specification has it does not hold: where [THREE] is not
    defined, a position with three finite components is turned into
    null. *)
Lemma eciToScenePosition_without_three :
  OrbitalPropagator.eciToScenePosition false
    (Some (OrbitalPropagator.mkEci
             (Some (Fin 7000)) (Some (Fin 2000)) (Some (Fin 3000))))
  <> Some (mkVector3 (Fin (7000 / 1000)) (Fin (3000 / 1000))
                     (Fin (- 2000 / 1000))).
Proof. vm_compute. discriminate. Qed.

(** C8, amended.  [eciToScenePosition] gives null for a missing position
    and whenever a component is missing, NaN or infinite; and where
    [THREE] is defined, a position with three finite components
    [x], [y], [z] becomes the vector [(x/1000, z/1000, -y/1000)]. *)
Theorem eciToScenePosition_conversion (threeLoaded : bool) :
  OrbitalPropagator.eciToScenePosition threeLoaded None = None
  /\ (forall e : OrbitalPropagator.EciPosition,
        notFinite (OrbitalPropagator.ex e) = true
        \/ notFinite (OrbitalPropagator.ey e) = true
        \/ notFinite (OrbitalPropagator.ez e) = true ->
        OrbitalPropagator.eciToScenePosition threeLoaded (Some e) = None)
  /\ (forall x y z : Q,
        threeLoaded = true ->
        OrbitalPropagator.eciToScenePosition threeLoaded
          (Some (OrbitalPropagator.mkEci
                   (Some (Fin x)) (Some (Fin y)) (Some (Fin z))))
        = Some (mkVector3 (Fin (x / 1000)) (Fin (z / 1000))
                          (Fin (- y / 1000)))).
Proof.
  split; [reflexivity|]. split.
  - intros [[[x| | |]|] [[y| | |]|] [[z| | |]|]] H; simpl in H;
      try reflexivity;
      destruct H as [H|[H|H]]; discriminate H.
  - intros x y z ->. reflexivity.
Qed.

Lemma eciToScenePosition_conversion_witness :
  (notFinite (Some NaN) = true
   \/ notFinite (Some (Fin 2000)) = true
   \/ notFinite (Some PosInf) = true)
  /\ OrbitalPropagator.eciToScenePosition true
       (Some (OrbitalPropagator.mkEci
                (Some NaN) (Some (Fin 2000)) (Some PosInf))) = None
  /\ true = true
  /\ OrbitalPropagator.eciToScenePosition true
       (Some (OrbitalPropagator.mkEci
                (Some (Fin 7000)) (Some (Fin 2000)) (Some (Fin 3000))))
     = Some (mkVector3 (Fin (7000 / 1000)) (Fin (3000 / 1000))
                       (Fin (- 2000 / 1000))).
Proof.
  assert (H : notFinite (Some NaN) = true
              \/ notFinite (Some (Fin 2000)) = true
              \/ notFinite (Some PosInf) = true)
    by (left; reflexivity).
  split; [exact H|]. split.
  - exact (proj1 (proj2 (eciToScenePosition_conversion true))
             (OrbitalPropagator.mkEci
                (Some NaN) (Some (Fin 2000)) (Some PosInf)) H).
  - split; [reflexivity|].
    exact (proj2 (proj2 (eciToScenePosition_conversion true))
             7000 2000 3000 eq_refl).
Defined.

(** C10.  For every date and every array of stored active satellites,
    [getActiveSatellitePositions] returns at most 500 positions: they are
    the positions, in order, of the first [min(500, count)] satellites
    whose propagation succeeds, and the result is the same as with the
    first 500 satellites alone. *)
Theorem active_positions_capped
    (Satrec : Type) (isSatelliteError : OrbitalPropagator.Field -> bool)
    (satellite_propagate : Satrec -> Z -> OrbitalPropagator.Outcome)
    (threeLoaded : bool)
    (activeSatellites : list (OrbitalPropagator.Satellite Satrec))
    (date : Z) :
  let positions :=
    OrbitalPropagator.getActiveSatellitePositions Satrec isSatelliteError
      satellite_propagate threeLoaded in
  (length (positions activeSatellites date)
     <= OrbitalPropagator.MAX_ACTIVE_RENDER)%nat
  /\ OrbitalPropagator.MAX_ACTIVE_RENDER = 500%nat
  /\ positions activeSatellites date
     = flat_map
         (OrbitalPropagator.positionOf Satrec isSatelliteError
            satellite_propagate threeLoaded date)
         (OrbitalPropagator.propagatedSatellites Satrec activeSatellites)
  /\ length (OrbitalPropagator.propagatedSatellites Satrec activeSatellites)
     = Nat.min 500 (length activeSatellites)
  /\ positions activeSatellites date
     = positions (firstn 500 activeSatellites) date.
Proof.
  cbv zeta.
  assert (P : forall sats : list (OrbitalPropagator.Satellite Satrec),
            OrbitalPropagator.getActiveSatellitePositions Satrec
              isSatelliteError satellite_propagate threeLoaded sats date
            = flat_map
                (OrbitalPropagator.positionOf Satrec isSatelliteError
                   satellite_propagate threeLoaded date)
                (OrbitalPropagator.propagatedSatellites Satrec sats)).
  { intro sats.
    unfold OrbitalPropagator.getActiveSatellitePositions,
      OrbitalPropagator.propagatedSatellites.
    rewrite activeLoop_flat_map by (simpl; lia).
    rewrite (Nat.min_comm (length sats)). reflexivity. }
  assert (L : length
                (OrbitalPropagator.propagatedSatellites Satrec
                   activeSatellites)
              = Nat.min 500 (length activeSatellites)).
  { unfold OrbitalPropagator.propagatedSatellites,
      OrbitalPropagator.MAX_ACTIVE_RENDER.
    rewrite length_firstn. lia. }
  split; [|split; [reflexivity|split; [apply P|split; [exact L|]]]].
  - rewrite P.
    pose proof (flat_map_positionOf_length Satrec isSatelliteError
                  satellite_propagate threeLoaded date
                  (OrbitalPropagator.propagatedSatellites Satrec
                     activeSatellites)) as B.
    unfold OrbitalPropagator.MAX_ACTIVE_RENDER. lia.
  - rewrite (P activeSatellites), (P (firstn 500 activeSatellites)).
    f_equal. unfold OrbitalPropagator.propagatedSatellites,
      OrbitalPropagator.MAX_ACTIVE_RENDER.
    rewrite length_firstn, firstn_firstn. f_equal. lia.
Qed.

Example six_hundred_active_satellites :
  length (OrbitalPropagator.getActiveSatellitePositions Z
            OrbitExamples.errorIsUndefined OrbitExamples.still true
            (OrbitExamples.fleet 600) 0) = 500%nat
  /\ length (OrbitalPropagator.getActiveSatellitePositions Z
               OrbitExamples.errorIsUndefined OrbitExamples.still true
               (OrbitExamples.fleet 7) 0) = 7%nat.
Proof. split; vm_compute; reflexivity. Qed.

Lemma truncate_floor (t : Q) :
  App.truncate t
  = if (0 <=? Qnum t)%Z then Qfloor t else (- Qfloor (- t))%Z.
Proof.
  unfold App.truncate. destruct t as [n d]. cbn [Qnum Qden Qfloor Qopp].
  destruct (Z.leb_spec 0 n) as [H|H].
  - apply Z.quot_div_nonneg; lia.
  - replace n with (- - n)%Z at 1 by lia.
    rewrite Z.quot_opp_l by lia. f_equal.
    apply Z.quot_div_nonneg; lia.
Qed.

Lemma truncate_comp (t1 t2 : Q) :
  t1 == t2 -> App.truncate t1 = App.truncate t2.
Proof.
  intro E. rewrite !truncate_floor.
  assert (S : (0 <=? Qnum t1)%Z = (0 <=? Qnum t2)%Z).
  { unfold Qeq in E.
    destruct (Z.leb_spec 0 (Qnum t1)), (Z.leb_spec 0 (Qnum t2));
      try reflexivity; exfalso; nia. }
  rewrite S. destruct (0 <=? Qnum t2)%Z.
  - rewrite E. reflexivity.
  - rewrite E. reflexivity.
Qed.

Lemma truncate_inject_Z (z : Z) : App.truncate (inject_Z z) = z.
Proof. unfold App.truncate. simpl. apply Z.quot_1_r. Qed.

(** [new Date] does not tell two representations of a fraction
    apart. *)
Lemma newDate_eqv (a b : num) : eqv a b -> App.newDate a = App.newDate b.
Proof.
  destruct a as [x| | |], b as [y| | |]; cbn [eqv]; intro E;
    try contradiction; try reflexivity.
  unfold App.newDate.
  assert (B : Qle_bool (Qabs x) (inject_Z App.MAX_TIME)
              = Qle_bool (Qabs y) (inject_Z App.MAX_TIME))
    by (rewrite E; reflexivity).
  rewrite B, (truncate_comp x y E). reflexivity.
Qed.

(** A whole number of milliseconds within the range of time values is
    the time value of the date made from it. *)
Lemma newDate_whole (z : Z) :
  (Z.abs z <= App.MAX_TIME)%Z ->
  App.newDate (Fin (inject_Z z)) = Some z.
Proof.
  intro H. unfold App.newDate.
  assert (B : Qle_bool (Qabs (inject_Z z)) (inject_Z App.MAX_TIME) = true).
  { apply Qle_bool_iff. unfold Qabs, inject_Z, Qle. cbn [Qnum Qden]. lia. }
  rewrite B, truncate_inject_Z. reflexivity.
Qed.

Section SchedulerFacts.

Import App.

Variable distanceTo : Vector3 -> Vector3 -> num.
Variable getPlayerPosition : Date -> option Vector3.
Variable getDebrisPositions : Date -> list (option Vector3).

(** The seconds of [deltaTime], multiplied by 1000 again, are the
    elapsed milliseconds. *)
Lemma advanceClock_currentDate (now : Z) (s : State) :
  currentDate (advanceClock now s) = advanced now s.
Proof.
  unfold advanceClock, advanced. cbn [currentDate].
  set (e := inject_Z (now - lastUpdateTime s)).
  change (div (Fin e) (Fin 1000)) with (Fin (e / 1000)).
  cbn [mul].
  assert (E : e / 1000 * 1000 == e) by field.
  destruct (timeMultiplier s) as [m| | |].
  - cbn [mul]. destruct (currentDate s) as [t|]; [|reflexivity].
    cbn [getTime add]. apply newDate_eqv. cbn [eqv].
    rewrite E. reflexivity.
  - reflexivity.
  - cbn [mul]. unfold scaleInf. rewrite E. reflexivity.
  - cbn [mul]. unfold scaleInf. rewrite E. reflexivity.
Qed.

Lemma updateCTSScore_fields (s : State) :
  let s' := updateCTSScore distanceTo getPlayerPosition getDebrisPositions s in
  currentDate s' = currentDate s
  /\ isRunning s' = isRunning s
  /\ ran s' = ran s ++ [UpdateCTSScore]
  /\ engine s'
     = scoredEngine distanceTo getPlayerPosition getDebrisPositions
         (currentDate s) (engine s).
Proof.
  unfold updateCTSScore, scoredEngine.
  cbn [record currentDate engine].
  destruct (getPlayerPosition (currentDate s)) as [p|];
    [|repeat split; reflexivity].
  destruct (getDebrisPositions (currentDate s)) as [|d ds];
    repeat split; reflexivity.
Qed.

(** No block of a frame changes the simulation time the head has set. *)
Lemma animate_currentDate (now : Z) (s : State) :
  currentDate (animate distanceTo getPlayerPosition getDebrisPositions
                 now s)
  = advanced now s.
Proof.
  rewrite <- advanceClock_currentDate. unfold animate.
  set (s0 := advanceClock now s).
  assert (P : currentDate (playerUpdates s0) = currentDate s0).
  { unfold playerUpdates. destruct (isRunning s0); reflexivity. }
  set (s1 := playerUpdates s0) in *.
  assert (D : currentDate (debrisUpdates now s1) = currentDate s1).
  { unfold debrisUpdates. destruct (_ && _); reflexivity. }
  set (s2 := debrisUpdates now s1) in *.
  assert (A : currentDate (activeSatellitesUpdates now s2) = currentDate s2).
  { unfold activeSatellitesUpdates. destruct (_ <? _)%Z; reflexivity. }
  set (s3 := activeSatellitesUpdates now s2) in *.
  assert (C : currentDate
                (ctsCalculation distanceTo getPlayerPosition
                   getDebrisPositions now s3) = currentDate s3).
  { unfold ctsCalculation. destruct (_ && _); [|reflexivity].
    cbn [setLastCTSUpdate currentDate].
    apply (proj1 (updateCTSScore_fields s3)). }
  set (s4 := ctsCalculation distanceTo getPlayerPosition
               getDebrisPositions now s3) in *.
  assert (U : currentDate (uiUpdates now s4) = currentDate s4).
  { unfold uiUpdates. destruct (_ && _); reflexivity. }
  congruence.
Qed.

(** A frame of a paused scheduler. *)
Lemma animate_paused (now : Z) (s : State) :
  isRunning s = false ->
  let s' := animate distanceTo getPlayerPosition getDebrisPositions
              now s in
  isRunning s' = false
  /\ engine s' = engine s
  /\ ran s' = ran s ++ pausedUpdates now s
  /\ timeMultiplier s' = timeMultiplier s
  /\ lastDebrisUpdate s' = lastDebrisUpdate s
  /\ lastCTSUpdate s' = lastCTSUpdate s.
Proof.
  intros H s'. subst s'. unfold animate.
  set (s0 := advanceClock now s).
  assert (R0 : isRunning s0 = false) by exact H.
  assert (F1 : playerUpdates s0 = s0)
    by (unfold playerUpdates; rewrite R0; reflexivity).
  assert (F2 : debrisUpdates now s0 = s0)
    by (unfold debrisUpdates; rewrite R0; reflexivity).
  rewrite F1, F2.
  set (s3 := activeSatellitesUpdates now s0).
  assert (R3 : isRunning s3 = false).
  { subst s3. unfold activeSatellitesUpdates.
    destruct (_ <? _)%Z; exact R0. }
  assert (F4 : ctsCalculation distanceTo getPlayerPosition
                 getDebrisPositions now s3 = s3)
    by (unfold ctsCalculation; rewrite R3; reflexivity).
  assert (F5 : uiUpdates now s3 = s3)
    by (unfold uiUpdates; rewrite R3; reflexivity).
  rewrite F4, F5.
  split; [exact R3|].
  subst s3. unfold activeSatellitesUpdates, pausedUpdates.
  change (lastActiveSatUpdate s0) with (lastActiveSatUpdate s).
  destruct (ACTIVE_SAT_INTERVAL <? now - lastActiveSatUpdate s)%Z.
  - repeat split; reflexivity.
  - subst s0. cbn [advanceClock engine ran
         timeMultiplier lastDebrisUpdate lastCTSUpdate].
    rewrite app_nil_r. repeat split; reflexivity.
Qed.

(** Frames of a paused scheduler leave the scoring engine as it is and
    run nothing but refreshes of the active satellites. *)
Lemma frames_paused (nows : list Z) :
  forall s : State,
  isRunning s = false ->
  isRunning (frames distanceTo getPlayerPosition getDebrisPositions
               nows s) = false
  /\ engine (frames distanceTo getPlayerPosition getDebrisPositions
               nows s) = engine s
  /\ exists l,
       ran (frames distanceTo getPlayerPosition getDebrisPositions
              nows s) = ran s ++ l
       /\ Forall (fun u => u = UpdateActiveSatellites) l.
Proof.
  induction nows as [|now nows IH]; intros s H.
  - split; [exact H|]. split; [reflexivity|].
    exists []. split; [symmetry; apply app_nil_r | constructor].
  - destruct (animate_paused now s H) as (R & E & L & _).
    destruct (IH _ R) as (R' & E' & l & L' & F).
    cbn [frames]. split; [exact R'|]. split; [congruence|].
    exists (pausedUpdates now s ++ l). split.
    + rewrite L', L, app_assoc. reflexivity.
    + apply Forall_app. split; [|exact F].
      unfold pausedUpdates.
      destruct (ACTIVE_SAT_INTERVAL <? now - lastActiveSatUpdate s)%Z;
        repeat constructor.
Qed.

(** A frame of a running scheduler on which the debris refresh and the
    scoring are due. *)
Lemma animate_running_due (now : Z) (s : State) :
  isRunning s = true ->
  (DEBRIS_UPDATE_INTERVAL < now - lastDebrisUpdate s)%Z ->
  (CTS_UPDATE_INTERVAL < now - lastCTSUpdate s)%Z ->
  let s' := animate distanceTo getPlayerPosition getDebrisPositions
              now s in
  (exists l,
     ran s' = ran s ++ l
     /\ In UpdatePlayer l /\ In UpdateDebris l /\ In UpdateCTSScore l)
  /\ engine s'
     = scoredEngine distanceTo getPlayerPosition getDebrisPositions
         (advanced now s) (engine s).
Proof.
  intros H D C s'. subst s'.
  apply Z.ltb_lt in D. apply Z.ltb_lt in C.
  unfold animate.
  pose proof (advanceClock_currentDate now s) as T.
  set (s0 := advanceClock now s) in *.
  assert (F0 : isRunning s0 = true /\ engine s0 = engine s
               /\ ran s0 = ran s
               /\ lastDebrisUpdate s0 = lastDebrisUpdate s
               /\ lastCTSUpdate s0 = lastCTSUpdate s)
    by (repeat split; assumption).
  destruct F0 as (R0 & E0 & L0 & D0 & C0).
  assert (F1 : playerUpdates s0 = updatePlayer s0)
    by (unfold playerUpdates; rewrite R0; reflexivity).
  rewrite F1.
  assert (F2 : debrisUpdates now (updatePlayer s0)
               = setLastDebrisUpdate now (updateDebris (updatePlayer s0))).
  { unfold debrisUpdates.
    change (isRunning (updatePlayer s0)) with (isRunning s0).
    change (lastDebrisUpdate (updatePlayer s0)) with (lastDebrisUpdate s0).
    rewrite R0, D0, D. reflexivity. }
  rewrite F2.
  set (s2 := setLastDebrisUpdate now (updateDebris (updatePlayer s0))).
  assert (G2 : isRunning s2 = true /\ engine s2 = engine s
               /\ ran s2 = ran s ++ [UpdatePlayer; UpdateDebris]
               /\ currentDate s2 = advanced now s
               /\ lastCTSUpdate s2 = lastCTSUpdate s).
  { subst s2.
    cbn [setLastDebrisUpdate updateDebris updatePlayer record isRunning
         engine ran currentDate lastCTSUpdate].
    rewrite <- app_assoc. cbn [app].
    repeat split; congruence. }
  destruct G2 as (R2 & E2 & L2 & T2 & C2).
  set (s3 := activeSatellitesUpdates now s2).
  assert (G3 : isRunning s3 = true /\ engine s3 = engine s
               /\ (exists l, ran s3
                             = ran s ++ [UpdatePlayer; UpdateDebris] ++ l)
               /\ currentDate s3 = advanced now s
               /\ lastCTSUpdate s3 = lastCTSUpdate s).
  { subst s3. unfold activeSatellitesUpdates.
    destruct (ACTIVE_SAT_INTERVAL <? now - lastActiveSatUpdate s2)%Z.
    - cbn [setLastActiveSatUpdate updateActiveSatellites record isRunning
           engine ran currentDate lastCTSUpdate].
      split; [exact R2|]. split; [exact E2|]. split.
      + exists [UpdateActiveSatellites]. rewrite L2, <- app_assoc.
        reflexivity.
      + split; assumption.
    - split; [exact R2|]. split; [exact E2|]. split.
      + exists []. rewrite L2, app_nil_r. reflexivity.
      + split; assumption. }
  destruct G3 as (R3 & E3 & (l3 & L3) & T3 & C3).
  assert (F4 : ctsCalculation distanceTo getPlayerPosition
                 getDebrisPositions now s3
               = setLastCTSUpdate now
                   (updateCTSScore distanceTo getPlayerPosition
                      getDebrisPositions s3)).
  { unfold ctsCalculation. rewrite R3, C3, C. reflexivity. }
  rewrite F4.
  destruct (updateCTSScore_fields s3) as (T4 & R4 & L4 & H4).
  set (s4 := setLastCTSUpdate now
               (updateCTSScore distanceTo getPlayerPosition
                  getDebrisPositions s3)).
  assert (G4 : ran s4 = ran s3 ++ [UpdateCTSScore]
               /\ engine s4
                  = scoredEngine distanceTo getPlayerPosition
                      getDebrisPositions (advanced now s) (engine s)).
  { subst s4. cbn [setLastCTSUpdate ran engine].
    split; [exact L4|]. rewrite H4, T3, E3. reflexivity. }
  destruct G4 as (L5 & H5).
  assert (G5 : exists l, ran (uiUpdates now s4) = ran s4 ++ l
                         /\ engine (uiUpdates now s4) = engine s4).
  { unfold uiUpdates. destruct (_ && _).
    - exists [UpdateUI]. split; reflexivity.
    - exists []. rewrite app_nil_r. split; reflexivity. }
  destruct G5 as (l5 & L6 & E6).
  split.
  - exists ([UpdatePlayer; UpdateDebris] ++ l3 ++ [UpdateCTSScore] ++ l5).
    split.
    + rewrite L6, L5, L3. rewrite <- !app_assoc. reflexivity.
    + split; [left; reflexivity|]. split; [right; left; reflexivity|].
      right; right. cbn [app]. apply in_or_app. right. left. reflexivity.
  - rewrite E6. exact H5.
Qed.

End SchedulerFacts.

(** When the elapsed time multiplied by the multiplier is a whole number
    of milliseconds and the sum is in the range of time values, the
    virtual time moves by exactly that number. *)
Lemma advanced_whole (now : Z) (s : App.State) (t k : Z) (m : Q) :
  App.currentDate s = Some t ->
  App.timeMultiplier s = Fin m ->
  inject_Z k == inject_Z (now - App.lastUpdateTime s) * m ->
  (Z.abs (t + k) <= App.MAX_TIME)%Z ->
  advanced now s = Some (t + k)%Z.
Proof.
  intros Ht Hm E B. unfold advanced. rewrite Ht, Hm.
  cbn [App.getTime mul add].
  rewrite <- (newDate_whole (t + k) B).
  apply newDate_eqv. cbn [eqv]. rewrite <- E, inject_Z_plus. reflexivity.
Qed.

(** C9.  A paused scheduler at half speed, given a frame 17 ms after
    the one before, moves the virtual time by 8 ms, where the elapsed
    real time multiplied by the time multiplier is 8.5 ms: the
    simulation time is kept in a [Date], which drops the fraction of a
    millisecond on every frame.  The frame runs the refresh of the
    active satellites and no other update, and leaves the scoring
    engine as it is. *)
Theorem paused_clock_drops_fraction :
  let s := ClockExamples.pausedAtHalfSpeed in
  let s' := App.animate Examples.alongAxis ClockExamples.playerAt
              ClockExamples.debrisNear ClockExamples.nextFrame s in
  App.isRunning s = false
  /\ App.timeMultiplier s = Fin (1 # 2)
  /\ (ClockExamples.nextFrame - App.lastUpdateTime s)%Z = 17%Z
  /\ App.currentDate s = Some 1700000000000%Z
  /\ App.currentDate s' = Some 1700000000008%Z
  /\ eqv (add (App.getTime (App.currentDate s))
              (mul (Fin (inject_Z
                           (ClockExamples.nextFrame - App.lastUpdateTime s)))
                   (App.timeMultiplier s)))
         (Fin (17000000000085 # 10))
  /\ ~ eqv (App.getTime (App.currentDate s')) (Fin (17000000000085 # 10))
  /\ App.ran s' = [App.UpdateActiveSatellites]
  /\ App.engine s' = App.engine s.
Proof.
  cbv zeta. split; [reflexivity|]. split; [reflexivity|].
  split; [reflexivity|]. split; [reflexivity|].
  split; [vm_compute; reflexivity|]. split; [vm_compute; reflexivity|].
  split; [vm_compute; discriminate|]. split; vm_compute; reflexivity.
Qed.

(* ================================================================== *)
(** ** Further properties of the scoring engine *)
(* ================================================================== *)

Section ScoreBounds.

Import CTSEngine ScoringSpec.

Variable distanceTo : Vector3 -> Vector3 -> num.

(** One more object never lowers the accumulated score. *)
Lemma analyzeDebris_grows (p d : Vector3) (a : Q)
    (ts : list Threat) (i : nat) :
  exists a' ts',
    analyzeDebris distanceTo p (Fin a, ts) d i = (Fin a', ts')
    /\ a <= a'.
Proof.
  destruct (distanceTo p d) as [u| | |] eqn:Hd.
  - destruct (analyzeDebris_finite distanceTo p d u a ts i Hd)
      as (a' & E & Q').
    exists a', (ts ++ activeThreats [u * 1000] i). split; [exact E|].
    rewrite Q'. unfold contribution.
    destruct (Qle_bool 100 (u * 1000)) eqn:E100; [lra|].
    assert (u * 1000 < 100).
    { apply Qnot_le_lt. intro L. apply Qle_bool_iff in L. congruence. }
    destruct (Qltb (u * 1000) 10), (Qltb (u * 1000) 5); lra.
  - exists a, ts. unfold analyzeDebris. rewrite Hd.
    split; [reflexivity|lra].
  - exists a, ts. unfold analyzeDebris. rewrite Hd.
    split; [reflexivity|lra].
  - exists a, ts. unfold analyzeDebris. rewrite Hd.
    split; [reflexivity|lra].
Qed.

Lemma forEachDebris_grows (p : Vector3) (ds : list Vector3) :
  forall (i : nat) (a : Q) (ts : list Threat),
  exists a' ts',
    forEachDebris distanceTo p ds i (Fin a, ts) = (Fin a', ts')
    /\ a <= a'.
Proof.
  induction ds as [|d ds IH]; intros i a ts.
  - exists a, ts. split; [reflexivity | lra].
  - destruct (analyzeDebris_grows p d a ts i) as (a1 & ts1 & E1 & H1).
    destruct (IH (S i) a1 ts1) as (a2 & ts2 & E2 & H2).
    exists a2, ts2. cbn [forEachDebris]. rewrite E1, E2.
    split; [reflexivity | lra].
Qed.

(** The accumulated score is at least what any one object at a finite
    distance contributes. *)
Lemma forEachDebris_at_least (p d : Vector3) (u : Q) (ds : list Vector3) :
  In d ds -> distanceTo p d = Fin u ->
  forall (i : nat) (a : Q) (ts : list Threat),
  exists a' ts',
    forEachDebris distanceTo p ds i (Fin a, ts) = (Fin a', ts')
    /\ a + contribution (u * 1000) <= a'.
Proof.
  intros Hin Hd. induction ds as [|x ds IH]; intros i a ts; [destruct Hin|].
  cbn [forEachDebris]. destruct Hin as [->|Hin].
  - destruct (analyzeDebris_finite distanceTo p d u a ts i Hd)
      as (a1 & E1 & Q1).
    destruct (forEachDebris_grows p ds (S i) a1
                (ts ++ activeThreats [u * 1000] i)) as (a2 & ts2 & E2 & H2).
    exists a2, ts2. rewrite E1, E2. split; [reflexivity|].
    rewrite <- Q1. exact H2.
  - destruct (analyzeDebris_grows p x a ts i) as (a1 & ts1 & E1 & H1).
    destruct (IH Hin (S i) a1 ts1) as (a2 & ts2 & E2 & H2).
    exists a2, ts2. rewrite E1, E2. split; [reflexivity | lra].
Qed.


(** Rounding and capping a score of 95 or more gives a whole number
    from 95 to 100. *)
Lemma capped_from_95 (a : Q) :
  95 <= a -> integerIn 95 100 (min (round (Fin a)) (Fin 100)).
Proof.
  intro H. cbn [round]. unfold min. cbn [cmp].
  assert (L : (95 <= Qfloor (a + (1 # 2)))%Z).
  { change 95%Z with (Qfloor 95). apply Qfloor_resp_le. lra. }
  set (z := Qfloor (a + (1 # 2))) in *.
  destruct (inject_Z z ?= 100) eqn:E.
  - apply Qeq_alt in E. unfold Qeq in E; simpl in E.
    exists z. split; [reflexivity | lia].
  - apply Qlt_alt in E. unfold Qlt in E; simpl in E.
    exists z. split; [reflexivity | lia].
  - exists 100%Z. split; [reflexivity | lia].
Qed.

End ScoreBounds.



(** X2.  Without an override, one debris object at a finite distance
    below 10 km makes the score a whole number from 95 to 100, and the
    status of that score Critical. *)
Theorem critical_proximity_is_critical
    (distanceTo : Vector3 -> Vector3 -> num) (p d : Vector3)
    (ds : list Vector3) (u : Q) (s : CTSEngine.State) :
  CTSEngine.forceScore s = None ->
  In d ds ->
  distanceTo p d = Fin u ->
  u * 1000 < 10 ->
  integerIn 95 100
    (fst (CTSEngine.calculateScore distanceTo (Some p) (Some ds) s))
  /\ CTSEngine.getScoreStatus
       (fst (CTSEngine.calculateScore distanceTo (Some p) (Some ds) s))
     = CTSEngine.CRITICAL.
Proof.
  intros Hf Hin Hd Hu.
  destruct (forEachDebris_at_least distanceTo p d u ds Hin Hd 0%nat 0 [])
    as (acc & ts & E & Hacc).
  assert (I : integerIn 95 100
                (fst (CTSEngine.calculateScore distanceTo (Some p)
                        (Some ds) s))).
  { unfold CTSEngine.calculateScore, CTSEngine.scanDebris. rewrite Hf.
    destruct ds as [|x ds]; [destruct Hin|]. rewrite E.
    cbn [fst]. apply capped_from_95.
    unfold ScoringSpec.contribution in Hacc.
    assert (N100 : Qle_bool 100 (u * 1000) = false).
    { destruct (Qle_bool 100 (u * 1000)) eqn:E1; [|reflexivity].
      apply Qle_bool_iff in E1. lra. }
    assert (L10 : Qltb (u * 1000) 10 = true) by (apply Qltb_lt; lra).
    rewrite N100, L10 in Hacc.
    destruct (Qltb (u * 1000) 5); lra. }
  split; [exact I|].
  destruct I as (z & -> & Hz). unfold CTSEngine.getScoreStatus.
  assert (G : ge (Fin (inject_Z z)) (Fin 86) = true).
  { apply ge_Fin. unfold Qle; simpl. lia. }
  rewrite G. reflexivity.
Qed.

Lemma critical_proximity_is_critical_witness :
  CTSEngine.forceScore CTSEngine.initial = None
  /\ In (Scenario.debrisAt 8) [Scenario.debrisAt 8]
  /\ Examples.alongAxis Examples.player (Scenario.debrisAt 8)
     = Fin (Scenario.gap 8)
  /\ Scenario.gap 8 * 1000 < 10
  /\ CTSEngine.getScoreStatus
       (fst (CTSEngine.calculateScore Examples.alongAxis
               (Some Examples.player) (Some [Scenario.debrisAt 8])
               CTSEngine.initial))
     = CTSEngine.CRITICAL.
Proof.
  assert (Hin : In (Scenario.debrisAt 8) [Scenario.debrisAt 8])
    by (left; reflexivity).
  assert (Hu : Scenario.gap 8 * 1000 < 10) by reflexivity.
  split; [reflexivity|]. split; [exact Hin|]. split; [reflexivity|].
  split; [exact Hu|].
  exact (proj2 (critical_proximity_is_critical Examples.alongAxis
                  Examples.player (Scenario.debrisAt 8) _ (Scenario.gap 8)
                  CTSEngine.initial eq_refl Hin eq_refl Hu)).
Defined.

Section OutOfRange.

Import CTSEngine.

Variable distanceTo : Vector3 -> Vector3 -> num.

(** An object out of range leaves both accumulators as they are. *)
Lemma analyzeDebris_out_of_range (p d : Vector3) (acc : num * list Threat)
    (i : nat) :
  outOfRange distanceTo p d ->
  analyzeDebris distanceTo p acc d i = acc.
Proof.
  unfold outOfRange, analyzeDebris. destruct acc as [a ts].
  destruct (distanceTo p d) as [u| | |]; intro H; try reflexivity.
  cbn [mul isFinite isNaN negb orb]. unfold DANGER_RADIUS.
  rewrite lt_Fin.
  assert (N : Qltb (u * 1000) 100 = false) by (apply Qltb_ge; exact H).
  rewrite N. reflexivity.
Qed.

Lemma forEachDebris_out_of_range (p : Vector3) (ds : list Vector3) :
  Forall (outOfRange distanceTo p) ds ->
  forall (i : nat) (acc : num * list Threat),
  forEachDebris distanceTo p ds i acc = acc.
Proof.
  induction 1 as [|d ds Hd _ IH]; intros i acc; [reflexivity|].
  cbn [forEachDebris]. rewrite analyzeDebris_out_of_range by exact Hd.
  apply IH.
Qed.

(** The loop over a list put after another goes on from where the loop
    over the first list ends. *)
Lemma forEachDebris_app (p : Vector3) (ds more : list Vector3) :
  forall (i : nat) (acc : num * list Threat),
  forEachDebris distanceTo p (ds ++ more) i acc
  = forEachDebris distanceTo p more (i + length ds)
      (forEachDebris distanceTo p ds i acc).
Proof.
  induction ds as [|d ds IH]; intros i acc.
  - cbn [app forEachDebris length]. rewrite Nat.add_0_r. reflexivity.
  - cbn [app forEachDebris length]. rewrite IH.
    rewrite Nat.add_succ_r. reflexivity.
Qed.

End OutOfRange.

(** The score of the live path: the rounded, capped scan. *)
Lemma calculateScore_live_fst
    (distanceTo : Vector3 -> Vector3 -> num) (p d : Vector3)
    (ds : list Vector3) (s : CTSEngine.State) :
  CTSEngine.forceScore s = None ->
  fst (CTSEngine.calculateScore distanceTo (Some p) (Some (d :: ds)) s)
  = min (round (fst (CTSEngine.scanDebris distanceTo p (d :: ds))))
        (Fin 100).
Proof.
  intro Hf. unfold CTSEngine.calculateScore. rewrite Hf.
  destruct (CTSEngine.scanDebris distanceTo p (d :: ds)). reflexivity.
Qed.

(** Rounding and capping keeps the order of two scores. *)
Lemma capped_monotone (a b : Q) :
  0 <= a -> a <= b ->
  exists za zb : Z,
    min (round (Fin a)) (Fin 100) = Fin (inject_Z za)
    /\ min (round (Fin b)) (Fin 100) = Fin (inject_Z zb)
    /\ (0 <= za <= zb)%Z /\ (zb <= 100)%Z.
Proof.
  intros Ha Hab. cbn [round]. unfold min. cbn [cmp].
  assert (La : (0 <= Qfloor (a + (1 # 2)))%Z) by (apply round_nonneg; lra).
  assert (Lab : (Qfloor (a + (1 # 2)) <= Qfloor (b + (1 # 2)))%Z)
    by (apply Qfloor_resp_le; lra).
  set (za := Qfloor (a + (1 # 2))) in *.
  set (zb := Qfloor (b + (1 # 2))) in *.
  destruct (inject_Z za ?= 100) eqn:Ea;
    destruct (inject_Z zb ?= 100) eqn:Eb;
    try (apply Qeq_alt in Ea; unfold Qeq in Ea; simpl in Ea);
    try (apply Qlt_alt in Ea; unfold Qlt in Ea; simpl in Ea);
    try (apply Qgt_alt in Ea; unfold Qlt in Ea; simpl in Ea);
    try (apply Qeq_alt in Eb; unfold Qeq in Eb; simpl in Eb);
    try (apply Qlt_alt in Eb; unfold Qlt in Eb; simpl in Eb);
    try (apply Qgt_alt in Eb; unfold Qlt in Eb; simpl in Eb);
    try lia;
    first [ exists za, zb; repeat split; (reflexivity || lia)
          | exists za, 100%Z; repeat split; (reflexivity || lia)
          | exists 100%Z, 100%Z; repeat split; (reflexivity || lia) ].
Qed.

(** X3.  Without an override, when every object of a debris list that
    is not empty is out of range (its distance is NaN or infinite, or is
    100 km or more), the score is 0, its status is Nominal, and
    [getClosestThreats] is empty afterwards. *)
Theorem nothing_in_range_scores_0
    (distanceTo : Vector3 -> Vector3 -> num) (p d : Vector3)
    (ds : list Vector3) (s : CTSEngine.State) :
  CTSEngine.forceScore s = None ->
  Forall (outOfRange distanceTo p) (d :: ds) ->
  let r := CTSEngine.calculateScore distanceTo (Some p) (Some (d :: ds)) s in
  fst r = Fin 0
  /\ CTSEngine.getScoreStatus (fst r) = CTSEngine.NOMINAL
  /\ CTSEngine.getClosestThreats (snd r) = [].
Proof.
  intros Hf Hout r. subst r.
  unfold CTSEngine.calculateScore, CTSEngine.scanDebris. rewrite Hf.
  rewrite (forEachDebris_out_of_range distanceTo p (d :: ds) Hout).
  repeat split; reflexivity.
Qed.

Lemma nothing_in_range_scores_0_witness :
  CTSEngine.forceScore Scenario.afterCloseApproach = None
  /\ Forall (outOfRange Examples.alongAxis Examples.player)
       [Scenario.debrisAt 100; Scenario.debrisAt 2500]
  /\ CTSEngine.getClosestThreats
       (snd (CTSEngine.calculateScore Examples.alongAxis
               (Some Examples.player)
               (Some [Scenario.debrisAt 100; Scenario.debrisAt 2500])
               Scenario.afterCloseApproach)) = [].
Proof.
  assert (H : Forall (outOfRange Examples.alongAxis Examples.player)
                [Scenario.debrisAt 100; Scenario.debrisAt 2500]).
  { repeat constructor; unfold outOfRange; simpl; unfold Qle; simpl; lia. }
  split; [reflexivity|]. split; [exact H|].
  exact (proj2 (proj2 (nothing_in_range_scores_0 Examples.alongAxis
                         Examples.player _ _ Scenario.afterCloseApproach
                         eq_refl H))).
Defined.

(** X4.  Without an override, putting more debris objects at the end of
    a debris list that is not empty never lowers the score: both scores
    are whole numbers from 0 to 100, and the one of the longer list is
    the larger or the same. *)
Theorem more_debris_never_lowers_score
    (distanceTo : Vector3 -> Vector3 -> num) (p d : Vector3)
    (ds more : list Vector3) (s : CTSEngine.State) :
  CTSEngine.forceScore s = None ->
  exists z1 z2 : Z,
    fst (CTSEngine.calculateScore distanceTo (Some p) (Some (d :: ds)) s)
      = Fin (inject_Z z1)
    /\ fst (CTSEngine.calculateScore distanceTo (Some p)
              (Some ((d :: ds) ++ more)) s)
       = Fin (inject_Z z2)
    /\ (0 <= z1 <= z2)%Z /\ (z2 <= 100)%Z.
Proof.
  intro Hf.
  destruct (forEachDebris_nonneg distanceTo p (d :: ds) 0%nat 0 []
              (Qle_refl 0)) as (a1 & ts1 & E1 & H1).
  destruct (forEachDebris_grows distanceTo p more
              (0 + length (d :: ds))%nat a1 ts1) as (a2 & ts2 & E2 & H2).
  destruct (capped_monotone a1 a2 H1 H2) as (z1 & z2 & R1 & R2 & Hz).
  exists z1, z2. split; [|split; [|exact Hz]].
  - rewrite calculateScore_live_fst by exact Hf.
    unfold CTSEngine.scanDebris. rewrite E1. exact R1.
  - change ((d :: ds) ++ more) with (d :: (ds ++ more)).
    rewrite calculateScore_live_fst by exact Hf.
    change (d :: (ds ++ more)) with ((d :: ds) ++ more).
    unfold CTSEngine.scanDebris.
    rewrite forEachDebris_app, E1, E2. exact R2.
Qed.

Lemma more_debris_never_lowers_score_witness :
  CTSEngine.forceScore CTSEngine.initial = None
  /\ exists z1 z2 : Z,
       fst (CTSEngine.calculateScore Examples.alongAxis
              (Some Examples.player) (Some [Scenario.debrisAt 50])
              CTSEngine.initial) = Fin (inject_Z z1)
       /\ fst (CTSEngine.calculateScore Examples.alongAxis
                 (Some Examples.player)
                 (Some ([Scenario.debrisAt 50] ++ [Scenario.debrisAt 20]))
                 CTSEngine.initial) = Fin (inject_Z z2)
       /\ (0 <= z1 <= z2)%Z /\ (z2 <= 100)%Z.
Proof.
  split; [reflexivity|].
  exact (more_debris_never_lowers_score Examples.alongAxis Examples.player
           (Scenario.debrisAt 50) [] [Scenario.debrisAt 20]
           CTSEngine.initial eq_refl).
Defined.

Section ClosestThreats.

Import CTSEngine.

Variable distanceTo : Vector3 -> Vector3 -> num.

Lemma le_Fin (x y : Q) : le (Fin x) (Fin y) = true <-> x <= y.
Proof.
  unfold le; simpl. rewrite Qle_alt.
  destruct (x ?= y); split; intro H; congruence.
Qed.

Lemma closerOrEqual_trans (a b c : Threat) :
  inDangerZone a -> inDangerZone b -> inDangerZone c ->
  closerOrEqual a b -> closerOrEqual b c -> closerOrEqual a c.
Proof.
  unfold closerOrEqual. intros (x & -> & _) (y & -> & _) (z & -> & _).
  rewrite !le_Fin. intros; lra.
Qed.

(** Every threat the callback records is in the danger zone. *)
Lemma analyzeDebris_threats (p d : Vector3) (acc : num * list Threat)
    (i : nat) :
  Forall inDangerZone (snd acc) ->
  Forall inDangerZone (snd (analyzeDebris distanceTo p acc d i)).
Proof.
  destruct acc as [a ts]. cbn [snd]. intro H. unfold analyzeDebris.
  destruct (distanceTo p d) as [u| | |]; try exact H.
  cbn [mul isFinite isNaN negb orb]. unfold DANGER_RADIUS.
  rewrite lt_Fin. destruct (Qltb (u * 1000) 100) eqn:E; [|exact H].
  assert (F : Forall inDangerZone
                (ts ++ [mkThreat i (Fin (u * 1000))
                          (mul (sub (Fin 100) (Fin (u * 1000)))
                               DANGER_WEIGHT)])).
  { apply Forall_app. split; [exact H|]. constructor; [|constructor].
    exists (u * 1000). split; [reflexivity|]. apply Qltb_lt. exact E. }
  destruct (lt (Fin (u * 1000)) CRITICAL_RADIUS);
    [destruct (lt (Fin (u * 1000)) EXTREME_RADIUS)|]; exact F.
Qed.

Lemma forEachDebris_threats (p : Vector3) (ds : list Vector3) :
  forall (i : nat) (acc : num * list Threat),
  Forall inDangerZone (snd acc) ->
  Forall inDangerZone (snd (forEachDebris distanceTo p ds i acc)).
Proof.
  induction ds as [|d ds IH]; intros i acc H; [exact H|].
  cbn [forEachDebris]. apply IH. apply analyzeDebris_threats. exact H.
Qed.

Lemma insertThreat_permutation (t : Threat) (l : list Threat) :
  Permutation (insertThreat t l) (t :: l).
Proof.
  induction l as [|h r IH]; cbn [insertThreat]; [reflexivity|].
  destruct (lt (distance h) (distance t)); [|reflexivity].
  rewrite IH. apply perm_swap.
Qed.

Lemma sortThreats_permutation (l : list Threat) :
  Permutation (sortThreats l) l.
Proof.
  induction l as [|t l IH]; [reflexivity|].
  unfold sortThreats in *. cbn [fold_right].
  rewrite insertThreat_permutation. constructor. exact IH.
Qed.

Lemma insertThreat_sorted (t : Threat) (l : list Threat) :
  inDangerZone t -> Forall inDangerZone l ->
  StronglySorted closerOrEqual l ->
  StronglySorted closerOrEqual (insertThreat t l).
Proof.
  intros Ht Hl Hs. induction Hs as [|h r Hs IH Hh]; cbn [insertThreat].
  - constructor; constructor.
  - inversion Hl as [|? ? Zh Zr]; subst.
    destruct (lt (distance h) (distance t)) eqn:E.
    + constructor; [apply IH; exact Zr|].
      apply (Permutation_Forall
               (Permutation_sym (insertThreat_permutation t r))).
      constructor; [|exact Hh].
      destruct Zh as (x & Ex & _), Ht as (y & Ey & _).
      unfold closerOrEqual. rewrite Ex, Ey in *.
      rewrite lt_Fin in E. apply Qltb_lt in E. apply le_Fin. lra.
    + assert (R : closerOrEqual t h).
      { destruct Zh as (x & Ex & _), Ht as (y & Ey & _).
        unfold closerOrEqual. rewrite Ex, Ey in *.
        rewrite lt_Fin in E. apply Qltb_ge in E. apply le_Fin. exact E. }
      constructor; [constructor; assumption|].
      constructor; [exact R|].
      rewrite Forall_forall in *. intros x Hx.
      apply (closerOrEqual_trans t h x); auto.
  Qed.

Lemma sortThreats_sorted (l : list Threat) :
  Forall inDangerZone l ->
  StronglySorted closerOrEqual (sortThreats l).
Proof.
  induction 1 as [|t l Ht Hl IH]; [constructor|].
  unfold sortThreats in *. cbn [fold_right].
  apply insertThreat_sorted; [exact Ht| |exact IH].
  apply (Permutation_Forall
           (Permutation_sym (sortThreats_permutation l))). exact Hl.
Qed.

End ClosestThreats.

(** X5.  After a call without an override, with a player position and a
    debris list that is not empty, [getClosestThreats] holds at most five
    threats, nearest first; together with the threats left out, which
    are none unless five are held and which are all as far away or
    further, they are the threats the scan has recorded, each at a finite
    distance below 100 km. *)
Theorem closest_threats_are_the_nearest
    (distanceTo : Vector3 -> Vector3 -> num) (p d : Vector3)
    (ds : list Vector3) (s : CTSEngine.State) :
  CTSEngine.forceScore s = None ->
  let closest :=
    CTSEngine.getClosestThreats
      (snd (CTSEngine.calculateScore distanceTo (Some p)
              (Some (d :: ds)) s)) in
  exists others : list CTSEngine.Threat,
    Permutation (closest ++ others)
      (snd (CTSEngine.scanDebris distanceTo p (d :: ds)))
    /\ StronglySorted closerOrEqual (closest ++ others)
    /\ Forall inDangerZone (closest ++ others)
    /\ (length closest <= 5)%nat
    /\ (others <> [] -> length closest = 5%nat).
Proof.
  intros Hf closest. subst closest.
  unfold CTSEngine.calculateScore. rewrite Hf.
  pose proof (forEachDebris_threats distanceTo p (d :: ds) 0%nat
                (Fin 0, []) (Forall_nil _)) as Z.
  fold (CTSEngine.scanDebris distanceTo p (d :: ds)) in Z.
  destruct (CTSEngine.scanDebris distanceTo p (d :: ds)) as [acc ts].
  cbn [snd CTSEngine.getClosestThreats CTSEngine.lastThreats] in *.
  exists (skipn 5 (CTSEngine.sortThreats ts)).
  rewrite firstn_skipn.
  split; [apply sortThreats_permutation|].
  split; [apply sortThreats_sorted; exact Z|].
  split.
  - apply (Permutation_Forall
             (Permutation_sym (sortThreats_permutation ts))). exact Z.
  - split; [apply firstn_le_length|].
    intro Hne. rewrite length_firstn.
    destruct (Nat.le_gt_cases 5 (length (CTSEngine.sortThreats ts)))
      as [G|G]; [lia|].
    exfalso. apply Hne. apply skipn_all2. lia.
Qed.

Lemma closest_threats_are_the_nearest_witness :
  CTSEngine.forceScore CTSEngine.initial = None
  /\ exists others : list CTSEngine.Threat,
       Permutation
         (CTSEngine.getClosestThreats
            (snd (CTSEngine.calculateScore Examples.alongAxis
                    (Some Examples.player)
                    (Some [Scenario.debrisAt 50; Scenario.debrisAt 3])
                    CTSEngine.initial)) ++ others)
         (snd (CTSEngine.scanDebris Examples.alongAxis Examples.player
                 [Scenario.debrisAt 50; Scenario.debrisAt 3])).
Proof.
  split; [reflexivity|].
  destruct (closest_threats_are_the_nearest Examples.alongAxis
              Examples.player (Scenario.debrisAt 50) [Scenario.debrisAt 3]
              CTSEngine.initial eq_refl) as (others & P & _).
  exists others. exact P.
Defined.

Example closest_six_objects :
  map CTSEngine.index
    (CTSEngine.getClosestThreats
       (snd (CTSEngine.calculateScore Examples.alongAxis
               (Some Examples.player)
               (Some [Scenario.debrisAt 60; Scenario.debrisAt 3;
                      Scenario.debrisAt 99; Scenario.debrisAt 150;
                      Scenario.debrisAt 20; Scenario.debrisAt 3;
                      Scenario.debrisAt 70; Scenario.debrisAt 40])
               CTSEngine.initial)))
  = [1%nat; 5%nat; 4%nat; 7%nat; 0%nat].
Proof. vm_compute. reflexivity. Qed.


Lemma clamp_inject_Z (z : Z) :
  (0 <= z <= 100)%Z ->
  min (max (round (Fin (inject_Z z))) (Fin 0)) (Fin 100) = Fin (inject_Z z).
Proof.
  intro H. rewrite round_inject_Z. unfold max, min. cbn [cmp].
  assert (C0 : (inject_Z z ?= 0) <> Lt).
  { unfold Qcompare. cbn [inject_Z Qnum Qden]. rewrite !Z.mul_1_r.
    destruct (Z.compare_spec z 0); (congruence || lia). }
  assert (C100 : (inject_Z z ?= 100) <> Gt).
  { unfold Qcompare. cbn [inject_Z Qnum Qden]. rewrite !Z.mul_1_r.
    destruct (Z.compare_spec z 100); (congruence || lia). }
  destruct (inject_Z z ?= 0) eqn:E0; try congruence;
    cbn [cmp]; destruct (inject_Z z ?= 100) eqn:E100;
    (reflexivity || congruence).
Qed.

(** X6.  Setting the override is idempotent: giving [setForceScore] the
    value it has stored for any number -- the number rounded and
    clamped to 0..100, or NaN -- leaves the variables as they are. *)
Theorem setForceScore_idempotent (v : num) (s : CTSEngine.State) :
  CTSEngine.forceScore (CTSEngine.setForceScore (Some v) s)
    = Some (clampedScore v)
  /\ CTSEngine.setForceScore (Some (clampedScore v))
       (CTSEngine.setForceScore (Some v) s)
     = CTSEngine.setForceScore (Some v) s
  /\ clampedScore (clampedScore v) = clampedScore v.
Proof.
  assert (I : clampedScore (clampedScore v) = clampedScore v).
  { destruct v as [q| | |]; try reflexivity.
    unfold clampedScore at 2. apply clampedScore_whole. lia. }
  split; [apply setForceScore_clamped|]. split; [|exact I].
  pose proof (setForceScore_clamped v s) as A.
  pose proof (setForceScore_clamped (clampedScore v)
                (CTSEngine.setForceScore (Some v) s)) as B.
  rewrite I in B.
  destruct (CTSEngine.setForceScore (Some v) s) as [h f ts] eqn:E1.
  cbn [CTSEngine.setForceScore CTSEngine.forceScore
       CTSEngine.historicalScores CTSEngine.lastThreats] in *.
  injection B as B. rewrite B. congruence.
Qed.

(** X7.  From a history of at most 120 samples, a call of
    [calculateScore] that returns -- with an override or without, on
    missing, empty or well formed arguments -- leaves a history one
    sample longer and at most 120 long: the score it returns is put at
    the end, and at 120 samples the oldest one is dropped.  A call that
    throws leaves the variables as they are.  A call on a position or
    [null] and an array of vectors or [null] returns.  So after any
    calls of [calculateScore] and [setForceScore] the history has the
    length it had at the start plus the number of calls of
    [calculateScore] that returned, capped at 120. *)
Theorem history_length_capped
    (distanceTo : Vector3 -> Vector3 -> num) (s : CTSEngine.State) :
  (length (CTSEngine.getHistory s) <= CTSEngine.MAX_HISTORY)%nat ->
  (forall p ds,
     match CTSCall.calculateScore distanceTo p ds s with
     | CTSCall.Returned score s' =>
         length (CTSEngine.getHistory s')
           = Nat.min (S (length (CTSEngine.getHistory s))) 120
         /\ ((length (CTSEngine.getHistory s) < 120)%nat ->
             CTSEngine.getHistory s' = CTSEngine.getHistory s ++ [score])
         /\ (length (CTSEngine.getHistory s) = 120%nat ->
             CTSEngine.getHistory s'
               = tl (CTSEngine.getHistory s) ++ [score])
     | CTSCall.Thrown s' => s' = s
     end)
  /\ (forall p ds,
        CTSCall.scoreOf
          (CTSCall.calculateScore distanceTo (CTSCall.position p)
             (CTSCall.positions ds) s) <> None)
  /\ (forall cs : list Call,
        length (CTSEngine.getHistory (calls distanceTo cs s))
          = Nat.min (length (CTSEngine.getHistory s)
                     + scoringCalls distanceTo cs s) 120
        /\ (length (CTSEngine.getHistory (calls distanceTo cs s))
            <= 120)%nat).
Proof.
  unfold CTSEngine.getHistory. intro H. split; [|split].
  - intros p ds.
    pose proof (calculateScore_outcome distanceTo p ds s) as O.
    destruct (CTSCall.calculateScore distanceTo p ds s) as [score s'|s'];
      [|exact O].
    destruct O as [O _]. rewrite O. split; [|split].
    + apply pushHistory_length. exact H.
    + apply pushHistory_room.
    + apply pushHistory_full.
  - intros p ds. rewrite calculateScore_well_typed. discriminate.
  - intro cs. pose proof (calls_length distanceTo cs s H) as L.
    unfold CTSEngine.MAX_HISTORY in L. split; [exact L | lia].
Qed.

Lemma history_length_capped_witness :
  (length (CTSEngine.getHistory Scenario.afterCloseApproach)
     <= CTSEngine.MAX_HISTORY)%nat
  /\ length (CTSEngine.getHistory
               (calls Examples.alongAxis
                  [Calculate (CTSCall.Position Examples.player)
                     (CTSCall.Positions [Some (Scenario.debrisAt 50)]);
                   Calculate (CTSCall.Position Examples.player)
                     (CTSCall.Positions [Some (Scenario.debrisAt 50); None]);
                   SetForceScore (Some (Fin 95));
                   Calculate CTSCall.NotAVector CTSCall.NotAnArray]
                  Scenario.afterCloseApproach))
     = 3%nat.
Proof.
  assert (H : (length (CTSEngine.getHistory Scenario.afterCloseApproach)
                 <= CTSEngine.MAX_HISTORY)%nat).
  { unfold CTSEngine.MAX_HISTORY. simpl. lia. }
  split; [exact H|].
  exact (proj1 (proj2 (proj2 (history_length_capped Examples.alongAxis
                  Scenario.afterCloseApproach H))
                [Calculate (CTSCall.Position Examples.player)
                   (CTSCall.Positions [Some (Scenario.debrisAt 50)]);
                 Calculate (CTSCall.Position Examples.player)
                   (CTSCall.Positions [Some (Scenario.debrisAt 50); None]);
                 SetForceScore (Some (Fin 95));
                 Calculate CTSCall.NotAVector CTSCall.NotAnArray])).
Defined.


Section RangeFacts.

Import CTSEngine.

Variable distanceTo : Vector3 -> Vector3 -> num.

Lemma pushHistory_Forall (P : num -> Prop) (v : num) (h : list num) :
  Forall P h -> P v -> Forall P (pushHistory v h).
Proof.
  intros H Hv. unfold pushHistory.
  assert (A : Forall P (h ++ [v])).
  { apply Forall_app. split; [exact H | repeat constructor; exact Hv]. }
  destruct (MAX_HISTORY <? length (h ++ [v]))%nat; [|exact A].
  destruct (h ++ [v]) as [|x l]; [constructor|].
  inversion A; assumption.
Qed.

(** A loop that runs to its end has met vectors only. *)
Lemma forEachEntry_some (p : Vector3) (entries : list (option Vector3)) :
  forall (i : nat) (acc r : num * list Threat),
  CTSCall.forEachEntry distanceTo p entries i acc = Some r ->
  exists ds,
    entries = map Some ds /\ r = forEachDebris distanceTo p ds i acc.
Proof.
  induction entries as [|[d|] entries IH]; intros i acc r H.
  - exists []. cbn in H. injection H as <-. split; reflexivity.
  - cbn [CTSCall.forEachEntry] in H.
    destruct (IH _ _ _ H) as (ds & -> & ->).
    exists (d :: ds). split; reflexivity.
  - discriminate H.
Qed.

(** A call on variables in range returns a whole number from 0 to 100
    and leaves the variables in range. *)
Lemma calculateScore_inRange (p : CTSCall.Player) (ds : CTSCall.Debris)
    (s : State) :
  inRange s ->
  match CTSCall.calculateScore distanceTo p ds s with
  | CTSCall.Returned score s' => integerIn 0 100 score /\ inRange s'
  | CTSCall.Thrown s' => s' = s
  end.
Proof.
  intros (HF & HL & HT & HO).
  pose proof (calculateScore_outcome distanceTo p ds s) as O.
  assert (Z0 : integerIn 0 100 (Fin 0)).
  { exists 0%Z. split; [reflexivity | lia]. }
  assert (K : forall score ts,
            integerIn 0 100 score -> (length ts <= 5)%nat ->
            inRange (mkState (pushHistory score (historicalScores s))
                       (forceScore s) ts)).
  { intros score ts Hs Hts. unfold inRange.
    cbn [historicalScores lastThreats forceScore].
    split; [apply pushHistory_Forall; assumption|].
    split; [|split; [exact Hts | exact HO]].
    rewrite pushHistory_length by (unfold MAX_HISTORY; lia).
    unfold MAX_HISTORY. lia. }
  unfold CTSCall.calculateScore in *.
  destruct (forceScore s) as [f|] eqn:Hf.
  - split; [exact HO|]. apply (K f _ HO HT).
  - destruct p as [|p|].
    + split; [exact Z0 | apply (K _ _ Z0 HT)].
    + destruct ds as [|[|e es]|].
      * split; [exact Z0 | apply (K _ _ Z0 HT)].
      * split; [exact Z0 | apply (K _ _ Z0 HT)].
      * destruct (CTSCall.forEachEntry distanceTo p (e :: es) 0 (Fin 0, []))
          as [[acc ts]|] eqn:E; [|reflexivity].
        destruct (forEachEntry_some p (e :: es) 0%nat (Fin 0, [])
                    (acc, ts) E) as (vs & _ & R).
        destruct (forEachDebris_nonneg distanceTo p vs 0%nat 0 []
                    (Qle_refl 0)) as (a & ts' & E' & Ha).
        rewrite E' in R. injection R as -> ->.
        assert (I : integerIn 0 100 (min (round (Fin a)) (Fin 100))).
        { cbn [round]. apply min_100_integer. apply round_nonneg.
          exact Ha. }
        split; [exact I|]. apply (K _ _ I).
        rewrite length_firstn. lia.
      * reflexivity.
    + destruct ds as [|[|e es]|].
      * split; [exact Z0 | apply (K _ _ Z0 HT)].
      * split; [exact Z0 | apply (K _ _ Z0 HT)].
      * reflexivity.
      * reflexivity.
Qed.

Lemma call_inRange (c : Call) (s : State) :
  keepsNumbers c -> inRange s -> inRange (call distanceTo c s).
Proof.
  intros Hc H. destruct c as [p ds|v].
  - cbn [call]. pose proof (calculateScore_inRange p ds s H) as O.
    destruct (CTSCall.calculateScore distanceTo p ds s) as [score s'|s'].
    + exact (proj2 O).
    + cbn [CTSCall.stateOf]. subst s'. exact H.
  - destruct H as (HF & HL & HT & HO). cbn [call].
    destruct v as [v|].
    + assert (Hv : v <> NaN) by (intros ->; exact Hc).
      destruct (setForceScore_integer v s Hv) as (f & Ef & If).
      unfold inRange. rewrite Ef.
      cbn [setForceScore historicalScores lastThreats].
      split; [exact HF|]. split; [exact HL|]. split; [exact HT | exact If].
    + unfold inRange.
      cbn [setForceScore historicalScores lastThreats forceScore].
      split; [exact HF|]. split; [exact HL|]. split; [exact HT | exact I].
Qed.

End RangeFacts.

Lemma max_inject_Z (a b : Z) :
  max (Fin (inject_Z a)) (Fin (inject_Z b)) = Fin (inject_Z (Z.max a b)).
Proof.
  unfold max. cbn [cmp]. unfold Qcompare. cbn [inject_Z Qnum Qden].
  rewrite !Z.mul_1_r.
  destruct (Z.compare_spec a b); do 2 f_equal; lia.
Qed.

Lemma integers_of (scores : list num) :
  Forall (integerIn 0 100) scores ->
  exists zs : list Z,
    scores = map (fun z => Fin (inject_Z z)) zs
    /\ Forall (fun z => (0 <= z <= 100)%Z) zs.
Proof.
  induction 1 as [|x l (z & -> & Hz) _ (zs & -> & Hzs)].
  - exists []. split; [reflexivity | constructor].
  - exists (z :: zs). split; [reflexivity | constructor; assumption].
Qed.

Lemma fold_max_inject_Z (zs : list Z) :
  forall z : Z,
  fold_left max (map (fun z => Fin (inject_Z z)) zs) (Fin (inject_Z z))
    = Fin (inject_Z (fold_left Z.max zs z)).
Proof.
  induction zs as [|x zs IH]; intro z; [reflexivity|].
  cbn [map fold_left]. rewrite max_inject_Z. apply IH.
Qed.

Lemma fold_Zmax_bounds (zs : list Z) :
  forall z : Z,
  (0 <= z <= 100)%Z ->
  Forall (fun z => (0 <= z <= 100)%Z) zs ->
  (z <= fold_left Z.max zs z <= 100)%Z
  /\ Forall (fun x => (x <= fold_left Z.max zs z)%Z) zs.
Proof.
  induction zs as [|x zs IH]; intros z Hz H.
  - cbn. split; [lia | constructor].
  - inversion H as [|? ? Hx Hzs]; subst. cbn [fold_left].
    destruct (IH (Z.max z x) ltac:(lia) Hzs) as (B & F).
    split; [lia|]. constructor; [lia | exact F].
Qed.

Lemma le_inject_Z (a b : Z) :
  le (Fin (inject_Z a)) (Fin (inject_Z b)) = (a <=? b)%Z.
Proof.
  unfold le. cbn [cmp]. unfold Qcompare. cbn [inject_Z Qnum Qden].
  rewrite !Z.mul_1_r.
  destruct (Z.compare_spec a b), (Z.leb_spec a b); (reflexivity || lia).
Qed.

Lemma nth_error_last_map (zs : list Z) :
  forall z : Z,
  nth_error (map (fun z => Fin (inject_Z z)) (z :: zs))
    (length (map (fun z => Fin (inject_Z z)) (z :: zs)) - 1)
  = Some (Fin (inject_Z (last zs z))).
Proof.
  induction zs as [|x zs IH]; intro z; [reflexivity|].
  specialize (IH x). rewrite (last_cons_default zs x z).
  cbn [map length] in *. rewrite Nat.sub_succ, Nat.sub_0_r in *.
  exact IH.
Qed.

Lemma last_in_bounds (zs : list Z) (z m : Z) :
  (z <= m)%Z -> Forall (fun x => (x <= m)%Z) zs -> (last zs z <= m)%Z.
Proof.
  intros Hz H. revert z Hz.
  induction H as [|x l Hx _ IH]; intros z Hz; [exact Hz|].
  cbn [last]. destruct l as [|y l]; [exact Hx|]. apply (IH z Hz).
Qed.

Lemma last_in_range (zs : list Z) (z : Z) :
  (0 <= z <= 100)%Z -> Forall (fun z => (0 <= z <= 100)%Z) zs ->
  (0 <= last zs z <= 100)%Z.
Proof.
  intros Hz H. revert z Hz.
  induction H as [|x l Hx _ IH]; intros z Hz; [exact Hz|].
  cbn [last]. destruct l as [|y l]; [exact Hx|]. apply (IH z Hz).
Qed.

(** X9.  The scores stay in range.  Starting from variables in range
    (the initial ones are), after any calls of [calculateScore] --
    whatever the arguments, calls that throw included -- and of
    [setForceScore] with anything but NaN, every sample of the history
    and the override are whole numbers from 0 to 100, the history holds
    at most 120 samples and at most five threats are kept; every call of
    [calculateScore] that returns, returns a whole number from 0 to
    100; and then [getStatistics] reports a current and a maximum score
    that are whole numbers from 0 to 100 with the current one no larger
    than the maximum, at most five threats in range and a history
    length of at most 120.  [resetHistory] empties the history and the
    threats and keeps the override. *)
Theorem scores_stay_in_range
    (distanceTo : Vector3 -> Vector3 -> num)
    (s : CTSEngine.State) (cs : list Call) :
  inRange s ->
  Forall keepsNumbers cs ->
  let s' := calls distanceTo cs s in
  inRange CTSEngine.initial
  /\ inRange s'
  /\ (forall p ds,
        match CTSCall.calculateScore distanceTo p ds s' with
        | CTSCall.Returned score _ => integerIn 0 100 score
        | CTSCall.Thrown _ => True
        end)
  /\ integerIn 0 100 (CTSStatistics.current (CTSStatistics.getStatistics s'))
  /\ integerIn 0 100 (CTSStatistics.maximum (CTSStatistics.getStatistics s'))
  /\ le (CTSStatistics.current (CTSStatistics.getStatistics s'))
        (CTSStatistics.maximum (CTSStatistics.getStatistics s')) = true
  /\ (CTSStatistics.threatsInRange (CTSStatistics.getStatistics s') <= 5)%nat
  /\ (CTSStatistics.historyLength (CTSStatistics.getStatistics s') <= 120)%nat
  /\ inRange (CTSEngine.resetHistory s')
  /\ CTSEngine.getHistory (CTSEngine.resetHistory s') = []
  /\ CTSEngine.getClosestThreats (CTSEngine.resetHistory s') = []
  /\ CTSEngine.forceScore (CTSEngine.resetHistory s')
     = CTSEngine.forceScore s'.
Proof.
  intros H Hcs s'.
  assert (I0 : inRange CTSEngine.initial).
  { unfold inRange.
    cbn [CTSEngine.initial CTSEngine.historicalScores
         CTSEngine.lastThreats CTSEngine.forceScore length].
    split; [constructor|]. split; [lia|]. split; [lia | exact Logic.I]. }
  assert (I : inRange s').
  { subst s'. revert s H. induction Hcs as [|c cs Hc _ IH]; intros s H.
    - exact H.
    - cbn [calls]. apply IH. apply call_inRange; assumption. }
  split; [exact I0|]. split; [exact I|]. split.
  { intros p ds.
    pose proof (calculateScore_inRange distanceTo p ds s' I) as O.
    destruct (CTSCall.calculateScore distanceTo p ds s'); [|exact Logic.I].
    exact (proj1 O). }
  destruct I as (HF & HL & HT & HO).
  destruct (integers_of _ HF) as (zs & Ezs & Hzs).
  unfold CTSStatistics.getStatistics.
  cbn [CTSStatistics.current CTSStatistics.maximum
       CTSStatistics.threatsInRange CTSStatistics.historyLength].
  assert (S : integerIn 0 100
                (CTSStatistics.orZero
                   (nth_error (CTSEngine.historicalScores s')
                      (length (CTSEngine.historicalScores s') - 1)))
              /\ integerIn 0 100
                   match CTSEngine.historicalScores s' with
                   | [] => Fin 0
                   | _ :: _ =>
                       CTSStatistics.maxOf (CTSEngine.historicalScores s')
                   end
              /\ le (CTSStatistics.orZero
                       (nth_error (CTSEngine.historicalScores s')
                          (length (CTSEngine.historicalScores s') - 1)))
                    match CTSEngine.historicalScores s' with
                    | [] => Fin 0
                    | _ :: _ =>
                        CTSStatistics.maxOf (CTSEngine.historicalScores s')
                    end = true).
  { rewrite Ezs. destruct zs as [|z zs].
    - cbn. split; [|split; [|reflexivity]];
        exists 0%Z; (split; [reflexivity | lia]).
    - rewrite (nth_error_last_map zs z).
      inversion Hzs as [|? ? Hz Hzs']; subst.
      cbn [map]. unfold CTSStatistics.maxOf. cbn [fold_left].
      change (max NegInf (Fin (inject_Z z))) with (Fin (inject_Z z)).
      rewrite fold_max_inject_Z.
      destruct (fold_Zmax_bounds zs z Hz Hzs') as (B & F).
      pose proof (last_in_range zs z Hz Hzs') as LR.
      pose proof (last_in_bounds zs z _ (proj1 B) F) as LB.
      set (m := fold_left Z.max zs z) in *.
      set (l := last zs z) in *.
      cbn [CTSStatistics.orZero].
      destruct (Qeq_bool (inject_Z l) 0) eqn:E0.
      + split; [exists 0%Z; split; [reflexivity | lia]|].
        split; [exists m; split; [reflexivity | lia]|].
        change (Fin 0) with (Fin (inject_Z 0)).
        rewrite le_inject_Z. apply Z.leb_le. lia.
      + split; [exists l; split; [reflexivity | lia]|].
        split; [exists m; split; [reflexivity | lia]|].
        rewrite le_inject_Z. apply Z.leb_le. lia. }
  destruct S as (S1 & S2 & S3).
  split; [exact S1|]. split; [exact S2|]. split; [exact S3|].
  split; [exact HT|]. split; [exact HL|].
  split; [|split; [reflexivity|split; reflexivity]].
  unfold inRange.
  cbn [CTSEngine.resetHistory CTSEngine.historicalScores
       CTSEngine.lastThreats CTSEngine.forceScore length].
  split; [constructor|]. split; [lia|]. split; [lia | exact HO].
Qed.

Lemma scores_stay_in_range_witness :
  inRange CTSEngine.initial
  /\ Forall keepsNumbers
       [Calculate (CTSCall.Position Examples.player)
          (CTSCall.Positions [Some (Scenario.debrisAt 3)]);
        SetForceScore (Some (Fin 250));
        Calculate CTSCall.NotAVector CTSCall.NotAnArray;
        SetForceScore None;
        Calculate (CTSCall.Position Examples.player)
          (CTSCall.Positions [Some (Scenario.debrisAt 50); None]);
        Calculate (CTSCall.Position Examples.player)
          (CTSCall.Positions [Some (Scenario.debrisAt 50)])]
  /\ inRange
       (calls Examples.alongAxis
          [Calculate (CTSCall.Position Examples.player)
             (CTSCall.Positions [Some (Scenario.debrisAt 3)]);
           SetForceScore (Some (Fin 250));
           Calculate CTSCall.NotAVector CTSCall.NotAnArray;
           SetForceScore None;
           Calculate (CTSCall.Position Examples.player)
             (CTSCall.Positions [Some (Scenario.debrisAt 50); None]);
           Calculate (CTSCall.Position Examples.player)
             (CTSCall.Positions [Some (Scenario.debrisAt 50)])]
          CTSEngine.initial).
Proof.
  assert (H : inRange CTSEngine.initial).
  { unfold inRange.
    cbn [CTSEngine.initial CTSEngine.historicalScores
         CTSEngine.lastThreats CTSEngine.forceScore length].
    split; [constructor|]. split; [lia|]. split; [lia | exact Logic.I]. }
  assert (K : Forall keepsNumbers
                [Calculate (CTSCall.Position Examples.player)
                   (CTSCall.Positions [Some (Scenario.debrisAt 3)]);
                 SetForceScore (Some (Fin 250));
                 Calculate CTSCall.NotAVector CTSCall.NotAnArray;
                 SetForceScore None;
                 Calculate (CTSCall.Position Examples.player)
                   (CTSCall.Positions [Some (Scenario.debrisAt 50); None]);
                 Calculate (CTSCall.Position Examples.player)
                   (CTSCall.Positions [Some (Scenario.debrisAt 50)])]).
  { repeat constructor. }
  split; [exact H|]. split; [exact K|].
  exact (proj1 (proj2 (scores_stay_in_range Examples.alongAxis
                         CTSEngine.initial _ H K))).
Defined.

Example statistics_after_four_scores :
  let s :=
    calls Examples.alongAxis
      [Calculate (CTSCall.Position Examples.player)
         (CTSCall.Positions [Some (Scenario.debrisAt 3)]);
       SetForceScore (Some (Fin 250));
       Calculate CTSCall.NotAVector CTSCall.NotAnArray;
       SetForceScore None;
       Calculate (CTSCall.Position Examples.player)
         (CTSCall.Positions [Some (Scenario.debrisAt 50); None]);
       Calculate (CTSCall.Position Examples.player)
         (CTSCall.Positions [Some (Scenario.debrisAt 50)])]
      CTSEngine.initial in
  CTSEngine.getHistory s = [Fin 100; Fin 100; Fin 25]
  /\ CTSStatistics.getStatistics s
     = CTSStatistics.mkStatistics (Fin 25) (Fin 100) 1 3.
Proof. cbv zeta. split; vm_compute; reflexivity. Qed.

(* ================================================================== *)
(** ** Further properties of the frame scheduler *)
(* ================================================================== *)

Section FrameFacts.

Import App.

Variable distanceTo : Vector3 -> Vector3 -> num.
Variable getPlayerPosition : Date -> option Vector3.
Variable getDebrisPositions : Date -> list (option Vector3).

Lemma sameControls_trans (a b c : State) :
  sameControls a b -> sameControls b c -> sameControls a c.
Proof.
  unfold sameControls. intros (A1 & A2 & A3 & A4 & A5 & A6 & A7)
    (B1 & B2 & B3 & B4 & B5 & B6 & B7).
  repeat split; congruence.
Qed.

Lemma playerUpdates_controls (s : State) : sameControls s (playerUpdates s).
Proof.
  unfold playerUpdates, sameControls.
  destruct (isRunning s) eqn:E; repeat split; try reflexivity; exact E.
Qed.

Lemma debrisUpdates_controls (now : Z) (s : State) :
  sameControls s (debrisUpdates now s).
Proof.
  unfold debrisUpdates, sameControls.
  destruct (_ && _); repeat split; reflexivity.
Qed.

Lemma activeSatellitesUpdates_controls (now : Z) (s : State) :
  sameControls s (activeSatellitesUpdates now s).
Proof.
  unfold activeSatellitesUpdates, sameControls.
  destruct (_ <? _)%Z; repeat split; reflexivity.
Qed.

Lemma uiUpdates_controls (now : Z) (s : State) :
  sameControls s (uiUpdates now s).
Proof.
  unfold uiUpdates, sameControls.
  destruct (_ && _); repeat split; reflexivity.
Qed.

Lemma updateCTSScore_controls (s : State) :
  let s' := updateCTSScore distanceTo getPlayerPosition getDebrisPositions
              s in
  isRunning s' = isRunning s
  /\ currentDate s' = currentDate s
  /\ lastUpdateTime s' = lastUpdateTime s
  /\ timeMultiplier s' = timeMultiplier s
  /\ frameCount s' = frameCount s.
Proof.
  unfold updateCTSScore. cbn [record currentDate engine].
  destruct (getPlayerPosition (currentDate s)) as [p|];
    [|repeat split; reflexivity].
  destruct (getDebrisPositions (currentDate s)) as [|d ds];
    repeat split; reflexivity.
Qed.

(** What a frame does to the clock, the counters and the engine. *)
Lemma animate_summary (now : Z) (s : State) :
  let s' := animate distanceTo getPlayerPosition getDebrisPositions now s in
  isRunning s' = isRunning s
  /\ timeMultiplier s' = timeMultiplier s
  /\ lastUpdateTime s' = now
  /\ frameCount s' = S (frameCount s)
  /\ currentDate s' = advanced now s
  /\ engine s'
     = (if scoringDue now s
        then scoredEngine distanceTo getPlayerPosition getDebrisPositions
               (advanced now s) (engine s)
        else engine s)
  /\ lastCTSUpdate s' = (if scoringDue now s then now else lastCTSUpdate s).
Proof.
  intro s'. subst s'. unfold animate.
  pose proof (advanceClock_currentDate now s) as T.
  set (s0 := advanceClock now s) in *.
  assert (C0 : isRunning s0 = isRunning s
               /\ timeMultiplier s0 = timeMultiplier s
               /\ lastUpdateTime s0 = now
               /\ frameCount s0 = S (frameCount s)
               /\ engine s0 = engine s
               /\ lastCTSUpdate s0 = lastCTSUpdate s)
    by (repeat split; reflexivity).
  destruct C0 as (R0 & M0 & U0 & F0 & E0 & L0).
  pose proof (sameControls_trans _ _ _
                (sameControls_trans _ _ _ (playerUpdates_controls s0)
                   (debrisUpdates_controls now (playerUpdates s0)))
                (activeSatellitesUpdates_controls now
                   (debrisUpdates now (playerUpdates s0)))) as C3.
  set (s3 := activeSatellitesUpdates now
               (debrisUpdates now (playerUpdates s0))) in *.
  destruct C3 as (R3 & T3 & U3 & M3 & F3 & L3 & E3).
  set (s4 := ctsCalculation distanceTo getPlayerPosition getDebrisPositions
               now s3).
  assert (C4 : isRunning s4 = isRunning s
               /\ timeMultiplier s4 = timeMultiplier s
               /\ lastUpdateTime s4 = now
               /\ frameCount s4 = S (frameCount s)
               /\ currentDate s4 = advanced now s
               /\ engine s4
                  = (if scoringDue now s
                     then scoredEngine distanceTo getPlayerPosition
                            getDebrisPositions (advanced now s) (engine s)
                     else engine s)
               /\ lastCTSUpdate s4
                  = (if scoringDue now s then now else lastCTSUpdate s)).
  { subst s4. unfold ctsCalculation, scoringDue.
    rewrite R3, L3, R0, L0.
    destruct (isRunning s && (CTS_UPDATE_INTERVAL <? now - lastCTSUpdate s)%Z).
    - destruct (updateCTSScore_controls s3) as (A1 & A2 & A3 & A4 & A5).
      destruct (updateCTSScore_fields distanceTo getPlayerPosition
                  getDebrisPositions s3) as (_ & _ & _ & A6).
      cbn [setLastCTSUpdate isRunning timeMultiplier lastUpdateTime
           frameCount currentDate engine lastCTSUpdate].
      rewrite A6.
      repeat split; congruence.
    - repeat split; congruence. }
  destruct C4 as (R4 & M4 & U4 & F4 & T4 & E4 & L4).
  destruct (uiUpdates_controls now s4) as (R5 & T5 & U5 & M5 & F5 & L5 & E5).
  repeat split; congruence.
Qed.

(** The scoring block leaves a history that is no shorter and at most
    one sample longer, whether [calculateScore] returns or throws. *)
Lemma scoredEngine_length (date : Date) (e : CTSEngine.State) :
  (length (CTSEngine.historicalScores e) <= CTSEngine.MAX_HISTORY)%nat ->
  (length (CTSEngine.historicalScores e)
   <= length (CTSEngine.historicalScores
                (scoredEngine distanceTo getPlayerPosition
                   getDebrisPositions date e))
   <= Nat.min (S (length (CTSEngine.historicalScores e)))
              CTSEngine.MAX_HISTORY)%nat.
Proof.
  intro H. unfold scoredEngine.
  destruct (getPlayerPosition date) as [p|];
    [|unfold CTSEngine.MAX_HISTORY in *; lia].
  destruct (getDebrisPositions date) as [|d ds];
    [unfold CTSEngine.MAX_HISTORY in *; lia|].
  pose proof (calculateScore_outcome distanceTo (CTSCall.Position p)
                (CTSCall.Positions (d :: ds)) e) as O.
  destruct (CTSCall.calculateScore distanceTo (CTSCall.Position p)
              (CTSCall.Positions (d :: ds)) e) as [score e'|e'].
  - destruct O as [O _]. cbn [CTSCall.stateOf]. rewrite O.
    rewrite pushHistory_length by exact H.
    unfold CTSEngine.MAX_HISTORY in *. lia.
  - cbn [CTSCall.stateOf]. subst e'.
    unfold CTSEngine.MAX_HISTORY in *. lia.
Qed.

End FrameFacts.



(** X11.  The scoring is throttled: a frame that comes 100 ms or less
    after the time of the last scoring leaves the scoring engine as it
    is, so after a frame on which the scoring ran, no frame within the
    next 100 ms scores again. *)
Theorem scoring_throttled
    (distanceTo : Vector3 -> Vector3 -> num)
    (getPlayerPosition : App.Date -> option Vector3)
    (getDebrisPositions : App.Date -> list (option Vector3)) :
  let frame := App.animate distanceTo getPlayerPosition getDebrisPositions in
  (forall (s : App.State) (now : Z),
     (now - App.lastCTSUpdate s <= App.CTS_UPDATE_INTERVAL)%Z ->
     App.engine (frame now s) = App.engine s
     /\ App.lastCTSUpdate (frame now s) = App.lastCTSUpdate s)
  /\ (forall (s : App.State) (t1 t2 : Z),
        scoringDue t1 s = true ->
        (t2 - t1 <= App.CTS_UPDATE_INTERVAL)%Z ->
        App.lastCTSUpdate (frame t1 s) = t1
        /\ App.engine (frame t2 (frame t1 s)) = App.engine (frame t1 s)).
Proof.
  cbv zeta.
  assert (A : forall (s : App.State) (now : Z),
            (now - App.lastCTSUpdate s <= App.CTS_UPDATE_INTERVAL)%Z ->
            App.engine (App.animate distanceTo getPlayerPosition
                          getDebrisPositions now s) = App.engine s
            /\ App.lastCTSUpdate
                 (App.animate distanceTo getPlayerPosition
                    getDebrisPositions now s) = App.lastCTSUpdate s).
  { intros s now H.
    destruct (animate_summary distanceTo getPlayerPosition
                getDebrisPositions now s) as (_ & _ & _ & _ & _ & E & L).
    assert (N : scoringDue now s = false).
    { unfold scoringDue.
      destruct (Z.ltb_spec App.CTS_UPDATE_INTERVAL
                  (now - App.lastCTSUpdate s)); [lia|].
      apply andb_false_r. }
    rewrite N in E, L. split; assumption. }
  split; [exact A|].
  intros s t1 t2 D H.
  destruct (animate_summary distanceTo getPlayerPosition
              getDebrisPositions t1 s) as (_ & _ & _ & _ & _ & _ & L).
  rewrite D in L. split; [exact L|].
  apply A. rewrite L. exact H.
Qed.

Lemma scoring_throttled_witness :
  let frame := App.animate Examples.alongAxis ClockExamples.playerAt
                 ClockExamples.debrisNear in
  scoringDue 1700000000017%Z ClockExamples.runningTenfold = true
  /\ (1700000000100 - 1700000000017 <= App.CTS_UPDATE_INTERVAL)%Z
  /\ App.engine
       (frame 1700000000100%Z (frame 1700000000017%Z
                               ClockExamples.runningTenfold))
     = App.engine (frame 1700000000017%Z ClockExamples.runningTenfold).
Proof.
  cbv zeta.
  assert (D : scoringDue 1700000000017%Z ClockExamples.runningTenfold = true)
    by reflexivity.
  assert (H : (1700000000100 - 1700000000017
               <= App.CTS_UPDATE_INTERVAL)%Z)
    by (unfold App.CTS_UPDATE_INTERVAL; lia).
  split; [exact D|]. split; [exact H|].
  exact (proj2 (proj2 (scoring_throttled Examples.alongAxis
                         ClockExamples.playerAt ClockExamples.debrisNear)
                  ClockExamples.runningTenfold _ _ D H)).
Defined.

(** X12.  A frame on which the player has no position, or on which
    there is no debris position, leaves the scoring engine as it is: the
    scheduler does not call [calculateScore] then, so no sample is put
    into the history. *)
Theorem no_scoring_without_positions
    (distanceTo : Vector3 -> Vector3 -> num)
    (getPlayerPosition : App.Date -> option Vector3)
    (getDebrisPositions : App.Date -> list (option Vector3))
    (s : App.State) (now : Z) :
  getPlayerPosition (advanced now s) = None
  \/ getDebrisPositions (advanced now s) = [] ->
  App.engine
    (App.animate distanceTo getPlayerPosition getDebrisPositions now s)
  = App.engine s.
Proof.
  intro H.
  destruct (animate_summary distanceTo getPlayerPosition
              getDebrisPositions now s) as (_ & _ & _ & _ & _ & E & _).
  rewrite E. destruct (scoringDue now s); [|reflexivity].
  unfold scoredEngine. destruct H as [-> | ->]; [reflexivity|].
  destruct (getPlayerPosition (advanced now s)); reflexivity.
Qed.

Lemma no_scoring_without_positions_witness :
  ((fun _ : App.Date => @None Vector3)
     (advanced 1700000000017%Z ClockExamples.runningTenfold) = None
   \/ ClockExamples.debrisNear (advanced 1700000000017%Z
                                  ClockExamples.runningTenfold) = [])
  /\ App.engine
       (App.animate Examples.alongAxis (fun _ : App.Date => None)
          ClockExamples.debrisNear 1700000000017%Z
          ClockExamples.runningTenfold)
     = App.engine ClockExamples.runningTenfold.
Proof.
  assert (H : (fun _ : App.Date => @None Vector3)
                (advanced 1700000000017%Z ClockExamples.runningTenfold)
              = None
              \/ ClockExamples.debrisNear
                   (advanced 1700000000017%Z ClockExamples.runningTenfold)
                 = [])
    by (left; reflexivity).
  split; [exact H|].
  exact (no_scoring_without_positions Examples.alongAxis
           (fun _ : App.Date => None) ClockExamples.debrisNear
           ClockExamples.runningTenfold 1700000000017%Z H).
Defined.

(** X13.  With a time multiplier that is a whole number and a
    simulation time that stays in the range of time values, the
    simulation time after any frames is the time before plus the
    multiplier times the real time between the last update and the last
    frame, however the frames are spaced and whether the scheduler is
    running or paused. *)
Theorem virtual_time_whole_multiplier
    (distanceTo : Vector3 -> Vector3 -> num)
    (getPlayerPosition : App.Date -> option Vector3)
    (getDebrisPositions : App.Date -> list (option Vector3))
    (m t : Z) (nows : list Z) (s : App.State) :
  eqv (App.timeMultiplier s) (Fin (inject_Z m)) ->
  App.currentDate s = Some t ->
  Forall (fun now : Z =>
            (Z.abs (t + m * (now - App.lastUpdateTime s))
             <= App.MAX_TIME)%Z) nows ->
  App.currentDate
    (App.frames distanceTo getPlayerPosition getDebrisPositions nows s)
  = Some (t + m * (last nows (App.lastUpdateTime s)
                   - App.lastUpdateTime s))%Z.
Proof.
  revert s t. induction nows as [|now nows IH]; intros s t Hm Ht HB.
  - cbn [App.frames last]. rewrite Ht. f_equal. lia.
  - cbn [App.frames].
    destruct (animate_summary distanceTo getPlayerPosition
                getDebrisPositions now s)
      as (_ & M & U & _ & T & _ & _).
    inversion HB as [|? ? B0 B1]; subst.
    destruct (App.timeMultiplier s) as [q| | |] eqn:Eq;
      cbn [eqv] in Hm; try contradiction.
    assert (T1 : advanced now s
                 = Some (t + m * (now - App.lastUpdateTime s))%Z).
    { apply (advanced_whole now s t _ q Ht Eq); [|exact B0].
      rewrite Hm, inject_Z_mult. ring. }
    rewrite (IH _ (t + m * (now - App.lastUpdateTime s))%Z).
    + rewrite U, last_cons_default. f_equal. ring.
    + rewrite M. exact Hm.
    + rewrite T. exact T1.
    + rewrite U. eapply Forall_impl; [|exact B1].
      intros n Hn. cbv beta in *.
      replace (t + m * (now - App.lastUpdateTime s) + m * (n - now))%Z
        with (t + m * (n - App.lastUpdateTime s))%Z by ring.
      exact Hn.
Qed.

Lemma virtual_time_whole_multiplier_witness :
  eqv (App.timeMultiplier ClockExamples.runningTenfold) (Fin (inject_Z 10))
  /\ App.currentDate ClockExamples.runningTenfold = Some 1700000000000%Z
  /\ App.currentDate
       (App.frames Examples.alongAxis ClockExamples.playerAt
          ClockExamples.debrisNear
          [1700000000017; 1700000000021; 1700000000400]%Z
          ClockExamples.runningTenfold)
     = Some 1700000004000%Z.
Proof.
  assert (H : eqv (App.timeMultiplier ClockExamples.runningTenfold)
                (Fin (inject_Z 10))) by reflexivity.
  assert (D : App.currentDate ClockExamples.runningTenfold
              = Some 1700000000000%Z) by reflexivity.
  assert (B : Forall
                (fun now : Z =>
                   (Z.abs (1700000000000
                           + 10 * (now - App.lastUpdateTime
                                           ClockExamples.runningTenfold))
                    <= App.MAX_TIME)%Z)
                [1700000000017; 1700000000021; 1700000000400]%Z).
  { repeat constructor; vm_compute; discriminate. }
  split; [exact H|]. split; [exact D|].
  exact (virtual_time_whole_multiplier Examples.alongAxis
           ClockExamples.playerAt ClockExamples.debrisNear 10
           1700000000000
           [1700000000017; 1700000000021; 1700000000400]%Z
           ClockExamples.runningTenfold H D B).
Defined.

(** X14.  From a history of at most 120 samples, any frames leave a
    history that is no shorter, that is at most 120 samples long, and
    that has grown by at most one sample for each frame, whatever the
    debris arrays hold. *)
Theorem frames_keep_history_bounded
    (distanceTo : Vector3 -> Vector3 -> num)
    (getPlayerPosition : App.Date -> option Vector3)
    (getDebrisPositions : App.Date -> list (option Vector3))
    (nows : list Z) (s : App.State) :
  (length (CTSEngine.historicalScores (App.engine s)) <= 120)%nat ->
  (length (CTSEngine.historicalScores (App.engine s))
   <= length (CTSEngine.historicalScores
                (App.engine
                   (App.frames distanceTo getPlayerPosition
                      getDebrisPositions nows s)))
   <= Nat.min (length (CTSEngine.historicalScores (App.engine s))
               + length nows) 120)%nat.
Proof.
  revert s. induction nows as [|now nows IH]; intros s H.
  - cbn [App.frames length]. lia.
  - cbn [App.frames length].
    destruct (animate_summary distanceTo getPlayerPosition
                getDebrisPositions now s)
      as (_ & _ & _ & _ & _ & E & _).
    assert (B : (length (CTSEngine.historicalScores (App.engine s))
                 <= length (CTSEngine.historicalScores
                              (App.engine
                                 (App.animate distanceTo getPlayerPosition
                                    getDebrisPositions now s)))
                 <= Nat.min (S (length (CTSEngine.historicalScores
                                          (App.engine s))))
                            CTSEngine.MAX_HISTORY)%nat).
    { rewrite E. destruct (scoringDue now s).
      - apply scoredEngine_length. exact H.
      - unfold CTSEngine.MAX_HISTORY in *. lia. }
    unfold CTSEngine.MAX_HISTORY in B.
    assert (H' : (length (CTSEngine.historicalScores
                            (App.engine
                               (App.animate distanceTo getPlayerPosition
                                  getDebrisPositions now s)))
                  <= 120)%nat) by lia.
    specialize (IH _ H'). lia.
Qed.

Lemma frames_keep_history_bounded_witness :
  (length (CTSEngine.historicalScores
             (App.engine ClockExamples.runningTenfold)) <= 120)%nat
  /\ (length (CTSEngine.historicalScores
                (App.engine
                   (App.frames Examples.alongAxis ClockExamples.playerAt
                      ClockExamples.debrisNear
                      [1700000000017; 1700000000021; 1700000000400]%Z
                      ClockExamples.runningTenfold)))
      <= Nat.min (length (CTSEngine.historicalScores
                            (App.engine ClockExamples.runningTenfold))
                  + length [1700000000017; 1700000000021;
                            1700000000400]%Z) 120)%nat.
Proof.
  assert (H : (length (CTSEngine.historicalScores
                         (App.engine ClockExamples.runningTenfold))
               <= 120)%nat) by (simpl; lia).
  split; [exact H|].
  exact (proj2 (frames_keep_history_bounded Examples.alongAxis
                  ClockExamples.playerAt ClockExamples.debrisNear
                  [1700000000017; 1700000000021; 1700000000400]%Z
                  ClockExamples.runningTenfold H)).
Defined.

Example three_frames_two_scores :
  map (fun n => match n with Fin q => Qfloor q | _ => (-1)%Z end)
    (CTSEngine.historicalScores
       (App.engine
          (App.frames Examples.alongAxis ClockExamples.playerAt
             ClockExamples.debrisNear
             [1700000000017; 1700000000021; 1700000000400]%Z
             ClockExamples.runningTenfold)))
  = [25%Z; 25%Z].
Proof. vm_compute. reflexivity. Qed.

(** X15.  A frame of a paused scheduler runs no player update, no
    debris refresh, no scoring and no panel update -- at most the
    refresh of the active satellites -- and leaves the scoring engine,
    its history included, as it is, while the simulation time is made
    from the time before and the elapsed time as on any frame.  Neither
    [pause()] nor [resume()] touches the history or the simulation
    time; and on a frame after [resume()] on which the debris refresh
    and the scoring are due, the player update, the debris refresh and
    the scoring run on the engine from before the pause. *)
Theorem pause_gates_updates
    (distanceTo : Vector3 -> Vector3 -> num)
    (getPlayerPosition : App.Date -> option Vector3)
    (getDebrisPositions : App.Date -> list (option Vector3))
    (s : App.State) (nows : list Z) (now : Z) :
  let frame := App.animate distanceTo getPlayerPosition getDebrisPositions in
  let paused :=
    App.frames distanceTo getPlayerPosition getDebrisPositions nows
      (App.pause s) in
  let resumed := App.resume paused in
  (forall (t : Z) (p : App.State),
     App.isRunning p = false ->
     App.currentDate (frame t p) = advanced t p
     /\ App.ran (frame t p) = App.ran p ++ pausedUpdates t p
     /\ App.engine (frame t p) = App.engine p
     /\ App.isRunning (frame t p) = false)
  /\ App.isRunning paused = false
  /\ App.engine paused = App.engine s
  /\ (exists l,
        App.ran paused = App.ran s ++ l
        /\ Forall (fun u => u = App.UpdateActiveSatellites) l)
  /\ App.currentDate (App.pause s) = App.currentDate s
  /\ App.engine (App.pause s) = App.engine s
  /\ App.isRunning resumed = true
  /\ App.engine resumed = App.engine s
  /\ App.currentDate resumed = App.currentDate paused
  /\ ((App.DEBRIS_UPDATE_INTERVAL < now - App.lastDebrisUpdate resumed)%Z ->
      (App.CTS_UPDATE_INTERVAL < now - App.lastCTSUpdate resumed)%Z ->
      (exists l,
         App.ran (frame now resumed) = App.ran resumed ++ l
         /\ In App.UpdatePlayer l /\ In App.UpdateDebris l
         /\ In App.UpdateCTSScore l)
      /\ App.engine (frame now resumed)
         = scoredEngine distanceTo getPlayerPosition getDebrisPositions
             (advanced now resumed) (App.engine s)
      /\ App.currentDate (frame now resumed) = advanced now resumed).
Proof.
  cbv zeta.
  destruct (frames_paused distanceTo getPlayerPosition getDebrisPositions
              nows (App.pause s) eq_refl) as (R & E & L).
  split; [|split; [exact R|split; [exact E|split; [exact L|]]]].
  - intros t p Hp.
    destruct (animate_paused distanceTo getPlayerPosition getDebrisPositions
                t p Hp) as (R' & E' & L' & _).
    split; [apply animate_currentDate|].
    split; [exact L'|split; [exact E'|exact R']].
  - split; [reflexivity|]. split; [reflexivity|]. split; [reflexivity|].
    split; [exact E|]. split; [reflexivity|].
    intros D C.
    destruct (animate_running_due distanceTo getPlayerPosition
                getDebrisPositions now
                (App.resume
                   (App.frames distanceTo getPlayerPosition
                      getDebrisPositions nows (App.pause s)))
                eq_refl D C) as (Hran & Hhist).
    split; [exact Hran|]. split.
    + rewrite Hhist. cbn [App.resume App.setRunning App.engine].
      rewrite E. reflexivity.
    + apply animate_currentDate.
Qed.

Lemma pause_gates_updates_witness :
  let frame := App.animate Examples.alongAxis ClockExamples.playerAt
                 ClockExamples.debrisNear in
  let paused :=
    App.frames Examples.alongAxis ClockExamples.playerAt
      ClockExamples.debrisNear [1700000000017; 1700000000034]%Z
      (App.pause ClockExamples.runningTenfold) in
  let resumed := App.resume paused in
  let now := 1700000000051%Z in
  (App.isRunning paused = false
   /\ App.engine (frame now paused) = App.engine paused)
  /\ (App.DEBRIS_UPDATE_INTERVAL < now - App.lastDebrisUpdate resumed)%Z
  /\ (App.CTS_UPDATE_INTERVAL < now - App.lastCTSUpdate resumed)%Z
  /\ App.engine (frame now resumed)
     = scoredEngine Examples.alongAxis ClockExamples.playerAt
         ClockExamples.debrisNear (advanced now resumed)
         (App.engine ClockExamples.runningTenfold).
Proof.
  cbv zeta.
  pose proof (pause_gates_updates Examples.alongAxis ClockExamples.playerAt
                ClockExamples.debrisNear ClockExamples.runningTenfold
                [1700000000017; 1700000000034]%Z 1700000000051%Z) as T.
  cbv zeta in T.
  destruct T as (Tick & Rp & _ & _ & _ & _ & _ & _ & _ & Due).
  assert (D : (App.DEBRIS_UPDATE_INTERVAL
               < 1700000000051
                 - App.lastDebrisUpdate
                     (App.resume
                        (App.frames Examples.alongAxis ClockExamples.playerAt
                           ClockExamples.debrisNear
                           [1700000000017; 1700000000034]%Z
                           (App.pause ClockExamples.runningTenfold))))%Z)
    by (vm_compute; reflexivity).
  assert (C : (App.CTS_UPDATE_INTERVAL
               < 1700000000051
                 - App.lastCTSUpdate
                     (App.resume
                        (App.frames Examples.alongAxis ClockExamples.playerAt
                           ClockExamples.debrisNear
                           [1700000000017; 1700000000034]%Z
                           (App.pause ClockExamples.runningTenfold))))%Z)
    by (vm_compute; reflexivity).
  split.
  - split; [exact Rp|]. exact (proj1 (proj2 (proj2 (Tick _ _ Rp)))).
  - split; [exact D|]. split; [exact C|].
    exact (proj1 (proj2 (Due D C))).
Defined.

Example history_across_pause :
  let paused :=
    App.frames Examples.alongAxis ClockExamples.playerAt
      ClockExamples.debrisNear [1700000000017; 1700000000034]%Z
      (App.pause ClockExamples.runningTenfold) in
  let next :=
    App.animate Examples.alongAxis ClockExamples.playerAt
      ClockExamples.debrisNear 1700000000051 (App.resume paused) in
  App.currentDate paused = Some 1700000000340%Z
  /\ CTSEngine.historicalScores (App.engine paused) = []
  /\ App.currentDate next = Some 1700000000510%Z
  /\ CTSEngine.historicalScores (App.engine next) = [Fin 25].
Proof.
  cbv zeta. repeat split; vm_compute; reflexivity.
Qed.

(** X16.  On a frame on which the scoring is due and no override is
    set, a debris array that holds [null] behind any number of vectors
    makes [calculateScore] throw inside [updateCTSScore], which catches
    it: the scoring engine is left as it is -- no sample is put into the
    history and the closest threats stay -- while the time of the last
    scoring is set to the time of the frame, so the next attempt waits
    for the whole interval again. *)
Theorem null_debris_entry_skips_scoring
    (distanceTo : Vector3 -> Vector3 -> num)
    (getPlayerPosition : App.Date -> option Vector3)
    (getDebrisPositions : App.Date -> list (option Vector3))
    (s : App.State) (now : Z) (p : Vector3) (ds : list Vector3)
    (rest : list (option Vector3)) :
  scoringDue now s = true ->
  CTSEngine.forceScore (App.engine s) = None ->
  getPlayerPosition (advanced now s) = Some p ->
  getDebrisPositions (advanced now s) = map Some ds ++ None :: rest ->
  let s' := App.animate distanceTo getPlayerPosition getDebrisPositions
              now s in
  App.engine s' = App.engine s
  /\ App.lastCTSUpdate s' = now
  /\ App.isRunning s' = true.
Proof.
  intros D Hf Hp Hd s'. subst s'.
  destruct (animate_summary distanceTo getPlayerPosition
              getDebrisPositions now s) as (R & _ & _ & _ & _ & E & L).
  rewrite D in E, L. split; [|split; [exact L|]].
  - rewrite E. unfold scoredEngine. rewrite Hp, Hd.
    destruct ds as [|d ds'].
    + cbn [map app]. unfold CTSCall.calculateScore. rewrite Hf.
      reflexivity.
    + cbn [map app]. unfold CTSCall.calculateScore. rewrite Hf.
      change (Some d :: map Some ds' ++ None :: rest)
        with (map Some (d :: ds') ++ None :: rest).
      rewrite forEachEntry_null. reflexivity.
  - rewrite R. unfold scoringDue in D.
    apply andb_true_iff in D. exact (proj1 D).
Qed.

Lemma null_debris_entry_skips_scoring_witness :
  scoringDue 1700000000017%Z ClockExamples.runningTenfold = true
  /\ CTSEngine.forceScore (App.engine ClockExamples.runningTenfold) = None
  /\ App.engine
       (App.animate Examples.alongAxis ClockExamples.playerAt
          ClockExamples.debrisWithNull 1700000000017%Z
          ClockExamples.runningTenfold)
     = App.engine ClockExamples.runningTenfold
  /\ CTSEngine.getHistory
       (App.engine
          (App.animate Examples.alongAxis ClockExamples.playerAt
             ClockExamples.debrisNear 1700000000017%Z
             ClockExamples.runningTenfold))
     = [Fin 25].
Proof.
  assert (D : scoringDue 1700000000017%Z ClockExamples.runningTenfold = true)
    by reflexivity.
  assert (F : CTSEngine.forceScore (App.engine ClockExamples.runningTenfold)
              = None) by reflexivity.
  split; [exact D|]. split; [exact F|]. split; [|vm_compute; reflexivity].
  exact (proj1 (null_debris_entry_skips_scoring Examples.alongAxis
                  ClockExamples.playerAt ClockExamples.debrisWithNull
                  ClockExamples.runningTenfold 1700000000017%Z
                  Examples.player [Scenario.debrisAt 50] [] D F
                  eq_refl eq_refl)).
Defined.

(* ================================================================== *)
(** ** Properties of the satellite store *)
(* ================================================================== *)

Section StoreFacts.

Import OrbitalPropagator OrbitalStore.

Variable Satrec : Type.
Variable isSatelliteError : Field -> bool.
Variable satellite_propagate : Satrec -> Z -> Outcome.
Variable threeLoaded : bool.
Variable satrecError : Satrec -> Z.
Variable twoline2satrec : String.string -> String.string -> option Satrec.

Lemma pushValid_completed (tles : list Tle) :
  forall stored r : list (Satellite Satrec),
  pushValid Satrec satrecError twoline2satrec tles stored = (r, true) ->
  r = stored ++ validSatellites Satrec satrecError twoline2satrec (Some tles).
Proof.
  induction tles as [|tle tles IH]; intros stored r H.
  - cbn in H. injection H as <-. cbn. rewrite app_nil_r. reflexivity.
  - cbn [pushValid] in H. cbn [validSatellites flat_map].
    destruct (twoline2satrec (tle1 tle) (tle2 tle)) as [satrec|];
      [|discriminate H].
    destruct (satrecError satrec =? 0)%Z.
    + rewrite (IH _ _ H). cbn [validSatellites]. rewrite <- app_assoc.
      reflexivity.
    + rewrite (IH _ _ H). reflexivity.
Qed.

Lemma pushCategory_completed (category : option (list Tle))
    (r : list (Satellite Satrec)) :
  pushCategory Satrec satrecError twoline2satrec category [] = (r, true) ->
  r = validSatellites Satrec satrecError twoline2satrec category.
Proof.
  destruct category as [tles|]; cbn [pushCategory].
  - intro H. apply pushValid_completed in H. exact H.
  - intro H. injection H as <-. reflexivity.
Qed.

Lemma validSatellites_error_free (category : option (list Tle)) :
  Forall (fun sat => satrecError (satrec Satrec sat) = 0%Z)
    (validSatellites Satrec satrecError twoline2satrec category).
Proof.
  destruct category as [tles|]; [|constructor].
  cbn [validSatellites]. induction tles as [|tle tles IH]; [constructor|].
  cbn [flat_map]. apply Forall_app. split; [|exact IH].
  destruct (twoline2satrec (tle1 tle) (tle2 tle)) as [satrec|];
    [|constructor].
  destruct (Z.eqb_spec (satrecError satrec) 0); repeat constructor.
  assumption.
Qed.

Lemma validSatellites_length (tles : list Tle) :
  (length (validSatellites Satrec satrecError twoline2satrec (Some tles))
   <= length tles)%nat.
Proof.
  cbn [validSatellites]. induction tles as [|tle tles IH]; [cbn; lia|].
  cbn [flat_map length]. rewrite length_app.
  destruct (twoline2satrec (tle1 tle) (tle2 tle)) as [satrec|];
    [destruct (satrecError satrec =? 0)%Z|]; cbn [length]; lia.
Qed.

(** The [forEach] of [getDebrisPositions] adds the position of every
    satellite whose propagation gives a result. *)
Lemma fold_pushPosition (date : Z) (sats : list (Satellite Satrec)) :
  forall positions : list (option Vector3),
  fold_left
    (pushPosition Satrec isSatelliteError satellite_propagate threeLoaded
       date) sats positions
  = positions
    ++ flat_map
         (positionOf Satrec isSatelliteError satellite_propagate
            threeLoaded date) sats.
Proof.
  induction sats as [|sat sats IH]; intro positions.
  - cbn. rewrite app_nil_r. reflexivity.
  - cbn [fold_left flat_map]. rewrite IH, app_assoc. f_equal.
    unfold pushPosition, positionOf.
    destruct (propagate _ _ _ _ _); [reflexivity|].
    rewrite app_nil_r. reflexivity.
Qed.

Lemma flat_map_positionOf_locatable (date : Z)
    (sats : list (Satellite Satrec)) :
  length (flat_map
            (positionOf Satrec isSatelliteError satellite_propagate
               threeLoaded date) sats)
  = length (filter
              (locatable Satrec isSatelliteError satellite_propagate date)
              sats).
Proof.
  induction sats as [|sat sats IH]; [reflexivity|].
  cbn [flat_map filter]. rewrite length_app, IH.
  unfold positionOf, locatable.
  destruct (propagate _ _ _ _ _); reflexivity.
Qed.

End StoreFacts.

(** X17.  When [initSatellites] returns its counts, each of the three
    arrays holds, in the order of the input, exactly the element sets of
    its category whose parsed record has error 0 (none for a category
    that is missing or no array), whatever was stored before; the counts
    are the lengths of the three arrays and no larger than the inputs;
    and the player satellite is the one from before. *)
Theorem initSatellites_keeps_valid_records
    (Satrec : Type) (satrecError : Satrec -> Z)
    (twoline2satrec : String.string -> String.string -> option Satrec)
    (tleData : OrbitalStore.TleData)
    (st st' : OrbitalStore.Store Satrec) (counts : OrbitalStore.Counts) :
  OrbitalStore.initSatellites Satrec satrecError twoline2satrec tleData st
  = (st', Some counts) ->
  let valid := OrbitalStore.validSatellites Satrec satrecError
                 twoline2satrec in
  OrbitalStore.activeSatellites Satrec st'
  = valid (OrbitalStore.active tleData)
  /\ OrbitalStore.debrisSatellites Satrec st'
     = valid (OrbitalStore.debris tleData)
  /\ OrbitalStore.criticalSatellites Satrec st'
     = valid (OrbitalStore.critical tleData)
  /\ Forall (fun sat => satrecError (OrbitalPropagator.satrec Satrec sat)
                        = 0%Z)
       (OrbitalStore.activeSatellites Satrec st'
        ++ OrbitalStore.debrisSatellites Satrec st'
        ++ OrbitalStore.criticalSatellites Satrec st')
  /\ counts
     = OrbitalStore.mkCounts
         (length (OrbitalStore.activeSatellites Satrec st'))
         (length (OrbitalStore.debrisSatellites Satrec st'))
         (length (OrbitalStore.criticalSatellites Satrec st'))
  /\ (forall tles, OrbitalStore.active tleData = Some tles ->
        (OrbitalStore.activeCount counts <= length tles)%nat)
  /\ (forall tles, OrbitalStore.debris tleData = Some tles ->
        (OrbitalStore.debrisCount counts <= length tles)%nat)
  /\ (forall tles, OrbitalStore.critical tleData = Some tles ->
        (OrbitalStore.criticalCount counts <= length tles)%nat)
  /\ OrbitalStore.playerSatellite Satrec st'
     = OrbitalStore.playerSatellite Satrec st.
Proof.
  intros H valid. subst valid. unfold OrbitalStore.initSatellites in H.
  destruct (OrbitalStore.pushCategory Satrec satrecError twoline2satrec
              (OrbitalStore.active tleData) []) as [a [|]] eqn:Ea;
    cbn [negb] in H; [|discriminate H].
  destruct (OrbitalStore.pushCategory Satrec satrecError twoline2satrec
              (OrbitalStore.debris tleData) []) as [d [|]] eqn:Ed;
    cbn [negb] in H; [|discriminate H].
  destruct (OrbitalStore.pushCategory Satrec satrecError twoline2satrec
              (OrbitalStore.critical tleData) []) as [c [|]] eqn:Ec;
    cbn [negb] in H; [|discriminate H].
  injection H as <- <-.
  apply pushCategory_completed in Ea, Ed, Ec. subst a d c.
  cbn [OrbitalStore.activeSatellites OrbitalStore.debrisSatellites
       OrbitalStore.criticalSatellites OrbitalStore.playerSatellite
       OrbitalStore.activeCount OrbitalStore.debrisCount
       OrbitalStore.criticalCount].
  split; [reflexivity|]. split; [reflexivity|]. split; [reflexivity|].
  split.
  { repeat (apply Forall_app; split); apply validSatellites_error_free. }
  split; [reflexivity|].
  split; [|split; [|split; [|reflexivity]]];
    intros tles ->; apply validSatellites_length.
Qed.

Lemma initSatellites_keeps_valid_records_witness :
  let r := OrbitalStore.initSatellites Z StoreExamples.errorOf
             StoreExamples.parseRecord StoreExamples.catalogue
             StoreExamples.emptyStore in
  r = (fst r, Some (OrbitalStore.mkCounts 1 1 0))
  /\ OrbitalStore.activeSatellites Z (fst r)
     = OrbitalStore.validSatellites Z StoreExamples.errorOf
         StoreExamples.parseRecord
         (OrbitalStore.active StoreExamples.catalogue).
Proof.
  cbv zeta.
  assert (H : OrbitalStore.initSatellites Z StoreExamples.errorOf
                StoreExamples.parseRecord StoreExamples.catalogue
                StoreExamples.emptyStore
              = (fst (OrbitalStore.initSatellites Z StoreExamples.errorOf
                        StoreExamples.parseRecord StoreExamples.catalogue
                        StoreExamples.emptyStore),
                 Some (OrbitalStore.mkCounts 1 1 0)))
    by (vm_compute; reflexivity).
  split; [exact H|].
  exact (proj1 (initSatellites_keeps_valid_records Z StoreExamples.errorOf
                  StoreExamples.parseRecord StoreExamples.catalogue
                  StoreExamples.emptyStore _ _ H)).
Defined.

(** X18.  [initPlayerSatellite] returns true exactly when the element
    set parses to a record with error 0, and then the player satellite
    is that record under the given name; when it returns false (the
    parser has thrown or reports an error) all variables, the player
    satellite of before included, are as they were, so that
    [getPlayerPosition] goes on giving the position of the satellite of
    before. *)
Theorem initPlayerSatellite_failure_keeps_player
    (Satrec : Type) (isSatelliteError : OrbitalPropagator.Field -> bool)
    (satellite_propagate : Satrec -> Z -> OrbitalPropagator.Outcome)
    (threeLoaded : bool) (satrecError : Satrec -> Z)
    (twoline2satrec : String.string -> String.string -> option Satrec)
    (tle : Tle) (st : OrbitalStore.Store Satrec) :
  let r := OrbitalStore.initPlayerSatellite Satrec satrecError
             twoline2satrec tle st in
  (snd r = true <->
   exists satrec, twoline2satrec (tle1 tle) (tle2 tle) = Some satrec
                  /\ satrecError satrec = 0%Z)
  /\ (snd r = false ->
      fst r = st
      /\ forall date,
           OrbitalStore.getPlayerPosition Satrec isSatelliteError
             satellite_propagate threeLoaded (fst r) date
           = OrbitalStore.getPlayerPosition Satrec isSatelliteError
               satellite_propagate threeLoaded st date)
  /\ (forall satrec, twoline2satrec (tle1 tle) (tle2 tle) = Some satrec ->
      satrecError satrec = 0%Z ->
      OrbitalStore.playerSatellite Satrec (fst r)
      = Some (OrbitalPropagator.mkSatellite Satrec (tleName tle) satrec)
      /\ OrbitalStore.debrisSatellites Satrec (fst r)
         = OrbitalStore.debrisSatellites Satrec st
      /\ OrbitalStore.activeSatellites Satrec (fst r)
         = OrbitalStore.activeSatellites Satrec st
      /\ OrbitalStore.criticalSatellites Satrec (fst r)
         = OrbitalStore.criticalSatellites Satrec st).
Proof.
  intro r. subst r. unfold OrbitalStore.initPlayerSatellite.
  destruct (twoline2satrec (tle1 tle) (tle2 tle)) as [satrec|].
  - destruct (Z.eqb_spec (satrecError satrec) 0) as [E|E]; cbn [fst snd].
    + split; [|split].
      * split; [intros _; exists satrec; split; [reflexivity|exact E]
               |reflexivity].
      * discriminate.
      * intros satrec' [= <-] _. repeat split; reflexivity.
    + split; [|split].
      * split; [discriminate|]. intros (satrec' & [= <-] & E'). contradiction.
      * intros _. split; reflexivity.
      * intros satrec' [= <-] E'. contradiction.
  - cbn [fst snd]. split; [|split].
    + split; [discriminate|]. intros (satrec' & E' & _). discriminate E'.
    + intros _. split; reflexivity.
    + intros satrec' E'. discriminate E'.
Qed.

Lemma initPlayerSatellite_failure_keeps_player_witness :
  let st := fst (OrbitalStore.initPlayerSatellite Z StoreExamples.errorOf
                   StoreExamples.parseRecord StoreExamples.station
                   StoreExamples.emptyStore) in
  snd (OrbitalStore.initPlayerSatellite Z StoreExamples.errorOf
         StoreExamples.parseRecord StoreExamples.truncated st) = false
  /\ fst (OrbitalStore.initPlayerSatellite Z StoreExamples.errorOf
            StoreExamples.parseRecord StoreExamples.truncated st) = st.
Proof.
  cbv zeta.
  assert (H : snd (OrbitalStore.initPlayerSatellite Z StoreExamples.errorOf
                     StoreExamples.parseRecord StoreExamples.truncated
                     (fst (OrbitalStore.initPlayerSatellite Z
                             StoreExamples.errorOf StoreExamples.parseRecord
                             StoreExamples.station
                             StoreExamples.emptyStore))) = false)
    by (vm_compute; reflexivity).
  split; [exact H|].
  exact (proj1 (proj1 (proj2
           (initPlayerSatellite_failure_keeps_player Z
              OrbitExamples.errorIsUndefined OrbitExamples.still true
              StoreExamples.errorOf StoreExamples.parseRecord
              StoreExamples.truncated _)) H)).
Defined.

(** A vector [eciToScenePosition] returns comes from a position with
    three finite components, with [THREE] defined. *)
Lemma eciToScenePosition_some (threeLoaded : bool)
    (e : option OrbitalPropagator.EciPosition) (v : Vector3) :
  OrbitalPropagator.eciToScenePosition threeLoaded e = Some v ->
  exists x y z : Q,
    e = Some (OrbitalPropagator.mkEci
                (Some (Fin x)) (Some (Fin y)) (Some (Fin z)))
    /\ v = mkVector3 (Fin (x / 1000)) (Fin (z / 1000)) (Fin (- y / 1000))
    /\ threeLoaded = true.
Proof.
  destruct e as [[[[x| | |]|] [[y| | |]|] [[z| | |]|]]|];
    cbn; try discriminate.
  destruct threeLoaded; cbn; [|discriminate].
  intros [= <-]. exists x, y, z. repeat split; reflexivity.
Qed.

(** X19.  Whenever [getPlayerPosition] returns a vector, there is a
    player satellite, [THREE] is defined, the SGP4 library has returned
    for it a position object with three finite components [x], [y],
    [z], and the vector is [(x/1000, z/1000, -y/1000)]; so every
    component of a returned vector is a finite number.  Without a
    player satellite the result is null. *)
Theorem getPlayerPosition_finite
    (Satrec : Type) (isSatelliteError : OrbitalPropagator.Field -> bool)
    (satellite_propagate : Satrec -> Z -> OrbitalPropagator.Outcome)
    (threeLoaded : bool) (st : OrbitalStore.Store Satrec) (date : Z) :
  (forall v : Vector3,
     OrbitalStore.getPlayerPosition Satrec isSatelliteError
       satellite_propagate threeLoaded st date = Some v ->
     exists (sat : OrbitalPropagator.Satellite Satrec)
            (velocity : OrbitalPropagator.Field) (x y z : Q),
       OrbitalStore.playerSatellite Satrec st = Some sat
       /\ threeLoaded = true
       /\ satellite_propagate (OrbitalPropagator.satrec Satrec sat) date
          = OrbitalPropagator.Returned
              (OrbitalPropagator.mkPV
                 (OrbitalPropagator.FObject
                    (OrbitalPropagator.mkEci
                       (Some (Fin x)) (Some (Fin y)) (Some (Fin z))))
                 velocity)
       /\ v = mkVector3 (Fin (x / 1000)) (Fin (z / 1000))
                (Fin (- y / 1000))
       /\ isFinite (vx v) && isFinite (vy v) && isFinite (vz v) = true)
  /\ (OrbitalStore.playerSatellite Satrec st = None ->
      OrbitalStore.getPlayerPosition Satrec isSatelliteError
        satellite_propagate threeLoaded st date = None).
Proof.
  split.
  - intros v H. unfold OrbitalStore.getPlayerPosition in H.
    destruct (OrbitalStore.playerSatellite Satrec st) as [sat|];
      [|discriminate H].
    unfold OrbitalPropagator.propagate, OrbitalPropagator.propagateOutcome
      in H.
    destruct (satellite_propagate (OrbitalPropagator.satrec Satrec sat) date)
      as [[pos vel]|] eqn:El; [|discriminate H].
    cbn [OrbitalPropagator.position OrbitalPropagator.velocity] in H.
    destruct ((match pos with
               | OrbitalPropagator.FFalse => true
               | _ => false
               end) || isSatelliteError pos); [discriminate H|].
    cbn [OrbitalPropagator.position] in H.
    apply eciToScenePosition_some in H.
    destruct H as (x & y & z & Ht & -> & ->).
    destruct pos as [| |e]; try discriminate Ht.
    cbn [OrbitalPropagator.truthy] in Ht. injection Ht as ->.
    exists sat, vel, x, y, z.
    split; [reflexivity|]. split; [reflexivity|]. split; [exact El|].
    split; reflexivity.
  - intro H. unfold OrbitalStore.getPlayerPosition. rewrite H. reflexivity.
Qed.

Lemma getPlayerPosition_finite_witness :
  let st := OrbitalStore.mkStore Z [] [] []
              (Some (OrbitalPropagator.mkSatellite Z
                       String.EmptyString 6771%Z)) in
  OrbitalStore.getPlayerPosition Z OrbitExamples.errorIsUndefined
    OrbitExamples.still true st 0
  = Some (mkVector3 (Fin (6771 / 1000)) (Fin (0 / 1000))
                    (Fin (- 0 / 1000)))
  /\ exists (sat : OrbitalPropagator.Satellite Z)
            (velocity : OrbitalPropagator.Field) (x y z : Q),
       OrbitalStore.playerSatellite Z st = Some sat
       /\ true = true
       /\ OrbitExamples.still (OrbitalPropagator.satrec Z sat) 0
          = OrbitalPropagator.Returned
              (OrbitalPropagator.mkPV
                 (OrbitalPropagator.FObject
                    (OrbitalPropagator.mkEci
                       (Some (Fin x)) (Some (Fin y)) (Some (Fin z))))
                 velocity)
       /\ mkVector3 (Fin (6771 / 1000)) (Fin (0 / 1000)) (Fin (- 0 / 1000))
          = mkVector3 (Fin (x / 1000)) (Fin (z / 1000)) (Fin (- y / 1000))
       /\ isFinite (Fin (6771 / 1000)) && isFinite (Fin (0 / 1000))
          && isFinite (Fin (- 0 / 1000)) = true.
Proof.
  cbv zeta.
  assert (H : OrbitalStore.getPlayerPosition Z
                OrbitExamples.errorIsUndefined OrbitExamples.still true
                (OrbitalStore.mkStore Z [] [] []
                   (Some (OrbitalPropagator.mkSatellite Z
                            String.EmptyString 6771%Z))) 0
              = Some (mkVector3 (Fin (6771 / 1000)) (Fin (0 / 1000))
                                (Fin (- 0 / 1000))))
    by reflexivity.
  split; [exact H|].
  exact (proj1 (getPlayerPosition_finite Z OrbitExamples.errorIsUndefined
                  OrbitExamples.still true _ 0) _ H).
Defined.

(** X20.  [getDebrisPositions] and [getCriticalDebrisPositions] have no
    cap: each returns one entry, in order, for every stored satellite of
    its array whose propagation gives a result (so as many entries as
    there are such satellites, and entries for two catalogues put
    together are the entries of each put together), and
    [getActiveSatellitePositions] returns what [getDebrisPositions]
    returns for the first 500 satellites of its array. *)
Theorem debris_positions_uncapped
    (Satrec : Type) (isSatelliteError : OrbitalPropagator.Field -> bool)
    (satellite_propagate : Satrec -> Z -> OrbitalPropagator.Outcome)
    (threeLoaded : bool)
    (sats more : list (OrbitalPropagator.Satellite Satrec))
    (player : option (OrbitalPropagator.Satellite Satrec)) (date : Z) :
  let debrisOf l :=
    OrbitalStore.getDebrisPositions Satrec isSatelliteError
      satellite_propagate threeLoaded
      (OrbitalStore.mkStore Satrec [] l [] player) date in
  let criticalOf l :=
    OrbitalStore.getCriticalDebrisPositions Satrec isSatelliteError
      satellite_propagate threeLoaded
      (OrbitalStore.mkStore Satrec [] [] l player) date in
  debrisOf sats
  = flat_map (OrbitalPropagator.positionOf Satrec isSatelliteError
                satellite_propagate threeLoaded date) sats
  /\ criticalOf sats = debrisOf sats
  /\ length (debrisOf sats)
     = length (filter (OrbitalStore.locatable Satrec isSatelliteError
                         satellite_propagate date) sats)
  /\ debrisOf (sats ++ more) = debrisOf sats ++ debrisOf more
  /\ OrbitalPropagator.getActiveSatellitePositions Satrec isSatelliteError
       satellite_propagate threeLoaded sats date
     = debrisOf (firstn 500 sats).
Proof.
  cbv zeta.
  unfold OrbitalStore.getDebrisPositions,
    OrbitalStore.getCriticalDebrisPositions.
  cbn [OrbitalStore.debrisSatellites OrbitalStore.criticalSatellites].
  rewrite !fold_pushPosition. cbn [app].
  split; [reflexivity|]. split; [reflexivity|].
  split; [apply flat_map_positionOf_locatable|].
  split; [apply flat_map_app|].
  unfold OrbitalPropagator.getActiveSatellitePositions.
  rewrite activeLoop_flat_map by (simpl; lia).
  cbn [app skipn]. f_equal.
  unfold OrbitalPropagator.MAX_ACTIVE_RENDER.
  destruct (Nat.le_gt_cases (length sats) 500) as [L|L].
  - rewrite Nat.min_l by exact L.
    rewrite !firstn_all2 by lia. reflexivity.
  - rewrite Nat.min_r by lia. reflexivity.
Qed.

Example debris_positions_not_capped :
  length (OrbitalStore.getDebrisPositions Z OrbitExamples.errorIsUndefined
            OrbitExamples.still true
            (OrbitalStore.mkStore Z [] (OrbitExamples.fleet 600) [] None)
            0) = 600%nat.
Proof. vm_compute. reflexivity. Qed.

Example adrift_debris_makes_scoring_throw :
  let debris :=
    OrbitalStore.getDebrisPositions Z OrbitExamples.errorIsUndefined
      OrbitExamples.adrift true
      (OrbitalStore.mkStore Z []
         [OrbitalPropagator.mkSatellite Z String.EmptyString 7050%Z;
          OrbitalPropagator.mkSatellite Z String.EmptyString 0%Z] [] None)
      0 in
  map (fun e : option Vector3 =>
         match e with Some _ => true | None => false end) debris
    = [true; false]
  /\ CTSCall.calculateScore Examples.alongAxis
       (CTSCall.Position Examples.player) (CTSCall.Positions debris)
       CTSEngine.initial
     = CTSCall.Thrown CTSEngine.initial.
Proof. cbv zeta. split; vm_compute; reflexivity. Qed.

(* ================================================================== *)
(** ** Properties of the data loader *)
(* ================================================================== *)

Section TrimFacts.

Import Ascii String DataLoader.

Lemma trimStart_headKept (s : string) : headKept (trimStart s).
Proof.
  induction s as [|c s IH]; [exact I|].
  cbn [trimStart]. destruct (isWhiteSpace c) eqn:E; [exact IH | exact E].
Qed.

Lemma trimStart_fixed (s : string) : headKept s -> trimStart s = s.
Proof.
  destruct s as [|c s]; [reflexivity|].
  cbn [headKept trimStart]. intros ->. reflexivity.
Qed.

Lemma trimEnd_headKept (s : string) : headKept s -> headKept (trimEnd s).
Proof.
  destruct s as [|c s]; [intros _; exact I|].
  cbn [headKept trimEnd]. intro E.
  destruct (trimEnd s); [rewrite E|]; exact E.
Qed.

Lemma trimEnd_idempotent (s : string) : trimEnd (trimEnd s) = trimEnd s.
Proof.
  induction s as [|c s IH]; [reflexivity|].
  cbn [trimEnd]. destruct (trimEnd s) as [|c' kept] eqn:E.
  - destruct (isWhiteSpace c) eqn:W; [reflexivity|].
    cbn [trimEnd]. rewrite W. reflexivity.
  - change (trimEnd (String c (String c' kept)))
      with (match trimEnd (String c' kept) with
            | EmptyString => if isWhiteSpace c then EmptyString
                             else String c EmptyString
            | k => String c k
            end).
    rewrite IH. reflexivity.
Qed.

Lemma trim_idempotent (s : string) : trim (trim s) = trim s.
Proof.
  unfold trim.
  rewrite (trimStart_fixed (trimEnd (trimStart s))).
  - apply trimEnd_idempotent.
  - apply trimEnd_headKept, trimStart_headKept.
Qed.

(** The lines [linesOf] gives are trimmed and not empty. *)
Lemma linesOf_trimmed (text : string) :
  Forall (fun line => trim line = line /\ line <> EmptyString)
    (linesOf text).
Proof.
  unfold linesOf. apply Forall_forall. intros line H.
  apply filter_In in H. destruct H as (H & L).
  apply in_map_iff in H. destruct H as (raw & <- & _).
  split; [apply trim_idempotent|].
  intro E. rewrite E in L. discriminate L.
Qed.

End TrimFacts.

Section ParseFacts.

Import Ascii String DataLoader.

Variable lines : list string.

Hypothesis lines_trimmed :
  Forall (fun line => trim line = line /\ line <> EmptyString) lines.

Lemma line_trimmed (i : nat) (line : string) :
  nth_error lines i = Some line -> trim line = line /\ line <> EmptyString.
Proof.
  intro H. apply nth_error_In in H.
  rewrite Forall_forall in lines_trimmed. apply lines_trimmed. exact H.
Qed.

Lemma nameBefore_name (i : nat) :
  startsWith "1 " (nameBefore lines i) = false
  /\ startsWith "2 " (nameBefore lines i) = false
  /\ nameBefore lines i <> EmptyString
  /\ trim (nameBefore lines i) = nameBefore lines i.
Proof.
  unfold nameBefore. destruct i as [|j].
  - repeat split; (reflexivity || discriminate).
  - destruct (nth_error lines j) as [previous|] eqn:E.
    + destruct (startsWith "1 " previous) eqn:E1;
        [repeat split; (reflexivity || discriminate)|].
      destruct (startsWith "2 " previous) eqn:E2;
        [repeat split; (reflexivity || discriminate)|].
      cbn [negb andb]. destruct (line_trimmed j previous E) as (T & N).
      split; [exact E1|]. split; [exact E2|]. split; [exact N | exact T].
    + repeat split; (reflexivity || discriminate).
Qed.

(** Every element set the loop adds has its two lines and a name. *)
Lemma parseLoop_sound (fuel : nat) :
  forall (i : nat) (satellites : list Tle),
  Forall parsedRecord satellites ->
  Forall parsedRecord (parseLoop lines fuel i satellites).
Proof.
  induction fuel as [|fuel IH]; intros i satellites H; [exact H|].
  cbn [parseLoop].
  destruct (nth_error lines i) as [line|] eqn:E; [|exact H].
  destruct (startsWith "1 " line) eqn:E1; [|apply IH; exact H].
  destruct (nth_error lines (i + 1)) as [next|] eqn:E'; [|apply IH; exact H].
  destruct (startsWith "2 " next) eqn:E2; [|apply IH; exact H].
  apply IH. apply Forall_app. split; [exact H|].
  constructor; [|constructor].
  destruct (line_trimmed _ _ E) as (T & _).
  destruct (line_trimmed _ _ E') as (T' & _).
  destruct (nameBefore_name i) as (N1 & N2 & N3 & N4).
  unfold parsedRecord. cbn [tle1 tle2 tleName].
  rewrite !T, !T', !N4.
  repeat split; assumption.
Qed.

(** An element set takes two lines. *)
Lemma parseLoop_count (fuel : nat) :
  forall (i : nat) (satellites : list Tle),
  (2 * List.length (parseLoop lines fuel i satellites)
   <= 2 * List.length satellites + (List.length lines - i))%nat.
Proof.
  induction fuel as [|fuel IH]; intros i satellites; [cbn; lia|].
  cbn [parseLoop].
  destruct (nth_error lines i) as [line|] eqn:E; [|lia].
  assert (L : (i < List.length lines)%nat)
    by (apply nth_error_Some; congruence).
  assert (Step : (2 * List.length (parseLoop lines fuel (i + 1) satellites)
                  <= 2 * List.length satellites
                     + (List.length lines - i))%nat)
    by (specialize (IH (i + 1)%nat satellites); lia).
  destruct (startsWith "1 " line); [|exact Step].
  destruct (nth_error lines (i + 1)) as [next|] eqn:E'; [|exact Step].
  destruct (startsWith "2 " next); [|exact Step].
  assert (L' : (i + 1 < List.length lines)%nat)
    by (apply nth_error_Some; congruence).
  specialize (IH (i + 2)%nat
                (satellites
                   ++ [mkTle (trim (nameBefore lines i)) (trim line)
                         (trim next)])).
  rewrite length_app in IH. cbn [List.length] in IH. lia.
Qed.

End ParseFacts.

(** X21.  Every element set [parseTLE] returns has a first line that
    starts with 1 and a space and a second line that starts with 2 and a
    space, both without white space at the ends, and a name that is not
    empty and starts with neither; an element set takes two of the
    lines of the text that are not blank, so there are at most half as
    many element sets as such lines; and an argument that is no string,
    or the empty string, gives none. *)
Theorem parseTLE_sound (tleText : option String.string)
    (text : String.string) :
  Forall DataLoader.parsedRecord (DataLoader.parseTLE tleText)
  /\ (2 * length (DataLoader.parseTLE (Some text))
      <= length (DataLoader.linesOf text))%nat
  /\ DataLoader.parseTLE None = []
  /\ DataLoader.parseTLE (Some String.EmptyString) = [].
Proof.
  split; [|split; [|split; reflexivity]].
  - destruct tleText as [[|c text']|]; try constructor.
    unfold DataLoader.parseTLE.
    apply parseLoop_sound; [apply linesOf_trimmed | constructor].
  - destruct text as [|c text]; [cbn; lia|].
    unfold DataLoader.parseTLE.
    pose proof (parseLoop_count
                  (DataLoader.linesOf (String.String c text))
                  (length (DataLoader.linesOf (String.String c text)))
                  0 []) as B.
    cbn [length] in B. lia.
Qed.

Section RoundTrip.

Import Ascii String DataLoader.

Lemma split_line (line : string) :
  ~ In newline (list_ascii_of_string line) -> split line = [line].
Proof.
  induction line as [|c line IH]; intro H; [reflexivity|].
  cbn [list_ascii_of_string In] in H. cbn [split].
  assert (N : Ascii.eqb c newline = false)
    by (apply Ascii.eqb_neq; intro E; apply H; left; exact E).
  rewrite N, IH; [reflexivity|]. intro I. apply H. right. exact I.
Qed.

Lemma split_line_rest (line rest : string) :
  ~ In newline (list_ascii_of_string line) ->
  split (line ++ String newline rest) = line :: split rest.
Proof.
  induction line as [|c line IH]; intro H.
  - cbn [append split]. rewrite Ascii.eqb_refl. reflexivity.
  - cbn [list_ascii_of_string In] in H. cbn [append split].
    assert (N : Ascii.eqb c newline = false)
      by (apply Ascii.eqb_neq; intro E; apply H; left; exact E).
    rewrite N, IH; [reflexivity|]. intro I. apply H. right. exact I.
Qed.

Lemma split_joinLines (ls : list string) :
  ls <> [] ->
  Forall (fun line => ~ In newline (list_ascii_of_string line)) ls ->
  split (joinLines ls) = ls.
Proof.
  induction ls as [|a ls IH]; intros N H; [congruence|].
  inversion H as [|? ? Ha Hls]; subst.
  destruct ls as [|b ls].
  - cbn [joinLines]. apply split_line. exact Ha.
  - change (joinLines (a :: b :: ls))
      with (a ++ String newline (joinLines (b :: ls)))%string.
    rewrite split_line_rest by exact Ha.
    rewrite IH; [reflexivity | discriminate | exact Hls].
Qed.

Lemma linesOf_joinLines (ls : list string) :
  ls <> [] -> Forall cleanLine ls -> linesOf (joinLines ls) = ls.
Proof.
  intros N H. unfold linesOf. rewrite split_joinLines.
  - induction H as [|a ls (Ne & T & _) _ IH]; [reflexivity|].
    cbn [map filter]. rewrite T.
    destruct a as [|c a]; [congruence|]. cbn [length Nat.ltb Nat.leb].
    f_equal. destruct ls as [|b ls]; [reflexivity|].
    apply IH. discriminate.
  - exact N.
  - apply Forall_impl with (2 := H). intros a (_ & _ & Hn). exact Hn.
Qed.

Lemma linesOfRecords_clean (records : list Tle) :
  Forall wellFormed records -> Forall cleanLine (linesOfRecords records).
Proof.
  induction 1 as [|r records (Cn & C1 & C2 & _) _ IH]; [constructor|].
  cbn [linesOfRecords flat_map app].
  constructor; [exact Cn|]. constructor; [exact C1|].
  constructor; [exact C2 | exact IH].
Qed.

(** The loop over the lines of well formed element sets, entered at the
    name of the first of them, returns them. *)
Lemma parseLoop_records (records : list Tle) :
  Forall wellFormed records ->
  forall (before : list string) (fuel : nat) (satellites : list Tle),
  (2 * List.length records <= fuel)%nat ->
  parseLoop (before ++ linesOfRecords records) fuel (List.length before)
    satellites
  = satellites ++ records.
Proof.
  induction 1 as [|r records Hr _ IH]; intros before fuel satellites F.
  - cbn [linesOfRecords flat_map]. rewrite !app_nil_r.
    destruct fuel as [|fuel]; [reflexivity|]. cbn [parseLoop].
    assert (E : nth_error before (List.length before) = None)
      by (apply nth_error_None; lia).
    rewrite E. reflexivity.
  - destruct Hr as ((_ & Tn & _) & (_ & T1 & _) & (_ & T2 & _)
                    & N1 & N2 & P1 & P2).
    cbn [List.length] in F.
    destruct fuel as [|[|fuel]]; [lia|lia|].
    cbn [linesOfRecords flat_map app].
    fold (linesOfRecords records).
    set (lines := before ++ tleName r :: tle1 r :: tle2 r
                            :: linesOfRecords records).
    assert (E0 : nth_error lines (List.length before) = Some (tleName r)).
    { subst lines. rewrite nth_error_app2 by lia.
      rewrite Nat.sub_diag. reflexivity. }
    assert (E1 : nth_error lines (List.length before + 1)
                 = Some (tle1 r)).
    { subst lines. rewrite nth_error_app2 by lia.
      replace (List.length before + 1 - List.length before)%nat
        with 1%nat by lia. reflexivity. }
    assert (E2 : nth_error lines (List.length before + 1 + 1)
                 = Some (tle2 r)).
    { subst lines. rewrite nth_error_app2 by lia.
      replace (List.length before + 1 + 1 - List.length before)%nat
        with 2%nat by lia. reflexivity. }
    cbn [parseLoop]. rewrite E0, N1.
    cbn [parseLoop]. rewrite E1, P1, E2, P2.
    assert (Nm : nameBefore lines (List.length before + 1) = tleName r).
    { unfold nameBefore.
      replace (List.length before + 1)%nat with (S (List.length before))
        by lia.
      rewrite E0, N1, N2. reflexivity. }
    rewrite Nm, Tn, T1, T2.
    assert (R : mkTle (tleName r) (tle1 r) (tle2 r) = r)
      by (destruct r; reflexivity).
    rewrite R.
    specialize (IH (before ++ [tleName r; tle1 r; tle2 r]) fuel
                  (satellites ++ [r])).
    rewrite <- app_assoc in IH. cbn [app] in IH.
    rewrite length_app in IH. cbn [List.length] in IH.
    replace (List.length before + 1 + 2)%nat
      with (List.length before + 3)%nat by lia.
    subst lines. rewrite IH by lia.
    rewrite <- app_assoc. reflexivity.
Qed.

End RoundTrip.

(** X22.  Writing well formed element sets to a text, for each one its
    name, its first line and its second line, one to a line, and parsing
    the text with [parseTLE] gives the element sets back, in order. *)
Theorem parseTLE_formatTLE (records : list Tle) :
  Forall DataLoader.wellFormed records ->
  DataLoader.parseTLE (Some (DataLoader.formatTLE records)) = records.
Proof.
  intro H. destruct records as [|r records]; [reflexivity|].
  assert (L : DataLoader.linesOf (DataLoader.formatTLE (r :: records))
              = DataLoader.linesOfRecords (r :: records)).
  { apply linesOf_joinLines; [discriminate|].
    apply linesOfRecords_clean. exact H. }
  unfold DataLoader.parseTLE.
  destruct (DataLoader.formatTLE (r :: records)) as [|c text] eqn:E.
  - exfalso. cbn in L. discriminate L.
  - rewrite L.
    pose proof (parseLoop_records (r :: records) H [] 
                  (length (DataLoader.linesOfRecords (r :: records))) [])
      as P.
    cbn [app length] in P. apply P.
    clear. induction records as [|x records IH]; cbn in *; lia.
Qed.

Lemma parseTLE_formatTLE_witness :
  Forall DataLoader.wellFormed
    [StoreExamples.station;
     StoreExamples.telescope]
  /\ DataLoader.parseTLE
       (Some (DataLoader.formatTLE
                [StoreExamples.station;
                 StoreExamples.telescope]))
     = [StoreExamples.station;
        StoreExamples.telescope].
Proof.
  assert (H : Forall DataLoader.wellFormed
                [StoreExamples.station;
                 StoreExamples.telescope]).
  { repeat constructor; try discriminate;
      cbn; intro C; repeat (destruct C as [C|C]; [discriminate C|]);
      exact C. }
  split; [exact H|].
  exact (parseTLE_formatTLE _ H).
Defined.

Section ValidateFacts.

Import Ascii String DataLoader.

Lemma findIndexFrom_first (p : string) (lines : list string) :
  forall i k : nat,
  findIndexFrom p lines i = Some k ->
  exists (j : nat) (line : string),
    k = (i + j)%nat
    /\ nth_error lines j = Some line
    /\ startsWith p line = true
    /\ forall (j' : nat) (l' : string),
         (j' < j)%nat -> nth_error lines j' = Some l' ->
         startsWith p l' = false.
Proof.
  induction lines as [|a lines IH]; intros i k H; [discriminate H|].
  cbn [findIndexFrom] in H. destruct (startsWith p a) eqn:E.
  - injection H as <-. exists 0%nat, a.
    split; [lia|]. split; [reflexivity|]. split; [exact E|].
    intros j' l' L. lia.
  - destruct (IH _ _ H) as (j & line & -> & N & P & B).
    exists (S j), line. split; [lia|]. split; [exact N|].
    split; [exact P|]. intros [|j'] l' L Hn.
    + injection Hn as <-. exact E.
    + apply (B j' l'); [lia | exact Hn].
Qed.

(** The loop passes over lines that do not start an element set. *)
Lemma parseLoop_skip (lines : list string) (k : nat) :
  forall (fuel i : nat) (satellites : list Tle),
  (forall (j : nat) (l : string),
     (i <= j < i + k)%nat -> nth_error lines j = Some l ->
     startsWith "1 " l = false) ->
  (i + k <= List.length lines)%nat ->
  parseLoop lines (k + fuel) i satellites
  = parseLoop lines fuel (i + k) satellites.
Proof.
  induction k as [|k IH]; intros fuel i satellites H L.
  - rewrite Nat.add_0_r. reflexivity.
  - cbn [Nat.add parseLoop].
    destruct (nth_error lines i) as [line|] eqn:E.
    + rewrite (H i line) by (lia || exact E).
      rewrite IH; [f_equal; lia| |lia].
      intros j l Hj. apply H. lia.
    + apply nth_error_None in E. lia.
Qed.

(** What the loop returns starts with what it has been given. *)
Lemma parseLoop_accumulates (lines : list string) (fuel : nat) :
  forall (i : nat) (satellites : list Tle),
  parseLoop lines fuel i satellites
  = satellites ++ parseLoop lines fuel i [].
Proof.
  induction fuel as [|fuel IH]; intros i satellites.
  - cbn. rewrite app_nil_r. reflexivity.
  - cbn [parseLoop].
    destruct (nth_error lines i) as [line|];
      [|rewrite app_nil_r; reflexivity].
    destruct (startsWith "1 " line); [|apply IH].
    destruct (nth_error lines (i + 1)) as [next|]; [|apply IH].
    destruct (startsWith "2 " next); [|apply IH].
    rewrite IH. rewrite (IH _ ([] ++ _)). rewrite <- app_assoc.
    reflexivity.
Qed.

(** The cases in which [validateTLEInput] accepts. *)
Lemma validateTLEInput_accepts (text : string) (v : Validation) :
  validateTLEInput (Some text) = v ->
  valid v = true ->
  exists (k : nat) (line1 line2 : string),
    findIndexFrom "1 " (linesOf text) 0 = Some k
    /\ nth_error (linesOf text) k = Some line1
    /\ nth_error (linesOf text) (k + 1) = Some line2
    /\ startsWith "2 " line2 = true
    /\ (69 <= length line1)%nat /\ (69 <= length line2)%nat
    /\ text <> EmptyString
    /\ v = mkValidation true
             (Some (mkTle
                      (trim (match k with
                             | O => "USER SATELLITE"%string
                             | S j => nth j (linesOf text)
                                        "USER SATELLITE"%string
                             end))
                      (trim line1) (trim line2)))
             None.
Proof.
  intros <-. unfold validateTLEInput.
  destruct (length (trim text) =? 0)%nat eqn:E0; [discriminate|].
  destruct (List.length (linesOf text) <? 2)%nat; [discriminate|].
  destruct (findIndexFrom "1 " (linesOf text) 0) as [k|] eqn:Ek;
    [|discriminate].
  destruct (nth_error (linesOf text) (k + 1)) as [line2|] eqn:E2;
    [|discriminate].
  destruct (nth_error (linesOf text) k) as [line1|] eqn:E1; [|discriminate].
  destruct (startsWith "2 " line2) eqn:P2; [|discriminate].
  cbn [negb].
  destruct (Nat.ltb_spec (length line1) 69) as [L1|L1]; [discriminate|].
  destruct (Nat.ltb_spec (length line2) 69) as [L2|L2]; [discriminate|].
  intros _. exists k, line1, line2.
  split; [reflexivity|]. split; [exact E1|]. split; [exact E2|].
  split; [exact P2|]. split; [exact L1|]. split; [exact L2|].
  split; [|reflexivity].
  intros ->. discriminate E0.
Qed.

(** X23.  When [validateTLEInput] accepts an input, it returns an
    element set and no error message: the first line starts with 1 and
    a space, the second with 2 and a space, both are 69 letters long at
    least, and the name is not empty; when it rejects an input it
    returns no element set and an error message.  A missing input, an
    empty one and one of white space only are rejected. *)
Theorem validateTLEInput_sound (inputText : option string) :
  let v := validateTLEInput inputText in
  (valid v = true ->
   exists t : Tle,
     satellite v = Some t
     /\ error v = None
     /\ startsWith "1 " (tle1 t) = true
     /\ startsWith "2 " (tle2 t) = true
     /\ (69 <= length (tle1 t))%nat
     /\ (69 <= length (tle2 t))%nat
     /\ tleName t <> EmptyString)
  /\ (valid v = false ->
      satellite v = None /\ error v <> None)
  /\ (inputText = None
      \/ (exists text, inputText = Some text
                       /\ trim text = EmptyString) ->
      valid v = false).
Proof.
  intro v. subst v. split; [|split].
  - intro H. destruct inputText as [text|]; [|discriminate H].
    destruct (validateTLEInput_accepts text _ eq_refl H)
      as (k & line1 & line2 & Ek & E1 & E2 & P2 & L1 & L2 & _ & Ev).
    rewrite Ev. cbn [satellite error].
    eexists. split; [reflexivity|]. split; [reflexivity|].
    cbn [tle1 tle2 tleName].
    pose proof (linesOf_trimmed text) as T.
    rewrite Forall_forall in T.
    destruct (T line1 (nth_error_In _ _ E1)) as (T1 & _).
    destruct (T line2 (nth_error_In _ _ E2)) as (T2 & _).
    rewrite T1, T2.
    destruct (findIndexFrom_first _ _ _ _ Ek) as (j & l & -> & Ej & Pj & _).
    cbn [Nat.add] in E1. rewrite E1 in Ej. injection Ej as <-.
    split; [exact Pj|]. split; [exact P2|]. split; [exact L1|].
    split; [exact L2|].
    cbn [Nat.add]. destruct j as [|j]; [discriminate|].
    assert (Lj : (j < List.length (linesOf text))%nat).
    { assert (S j < List.length (linesOf text))%nat
        by (apply nth_error_Some; congruence). lia. }
    destruct (T (nth j (linesOf text) "USER SATELLITE"%string)
                (nth_In _ _ Lj)) as (Tn & Nn).
    rewrite Tn. exact Nn.
  - destruct inputText as [text|];
      [|intros _; split; [reflexivity | discriminate]].
    unfold validateTLEInput, invalid.
    destruct (length (trim text) =? 0)%nat;
      [intros _; split; [reflexivity | discriminate]|].
    destruct (List.length (linesOf text) <? 2)%nat;
      [intros _; split; [reflexivity | discriminate]|].
    destruct (findIndexFrom "1 " (linesOf text) 0) as [k|];
      [|intros _; split; [reflexivity | discriminate]].
    destruct (nth_error (linesOf text) (k + 1)) as [line2|];
      [|intros _; split; [reflexivity | discriminate]].
    destruct (nth_error (linesOf text) k) as [line1|];
      [|intros _; split; [reflexivity | discriminate]].
    destruct (startsWith "2 " line2); cbn [negb];
      [|intros _; split; [reflexivity | discriminate]].
    destruct (length line1 <? 69)%nat;
      [intros _; split; [reflexivity | discriminate]|].
    destruct (length line2 <? 69)%nat;
      [intros _; split; [reflexivity | discriminate]|].
    cbn [valid]. discriminate.
  - intros [-> | (text & -> & E)]; [reflexivity|].
    unfold validateTLEInput. rewrite E. reflexivity.
Qed.

End ValidateFacts.

Lemma validateTLEInput_sound_witness :
  DataLoader.valid
    (DataLoader.validateTLEInput
       (Some (DataLoader.formatTLE [StoreExamples.station]))) = true
  /\ exists t : Tle,
       DataLoader.satellite
         (DataLoader.validateTLEInput
            (Some (DataLoader.formatTLE [StoreExamples.station])))
       = Some t
       /\ DataLoader.error
            (DataLoader.validateTLEInput
               (Some (DataLoader.formatTLE [StoreExamples.station])))
          = None
       /\ DataLoader.startsWith StoreExamples.one (tle1 t) = true
       /\ DataLoader.startsWith StoreExamples.two (tle2 t) = true
       /\ (69 <= String.length (tle1 t))%nat
       /\ (69 <= String.length (tle2 t))%nat
       /\ tleName t <> String.EmptyString.
Proof.
  assert (H : DataLoader.valid
                (DataLoader.validateTLEInput
                   (Some (DataLoader.formatTLE [StoreExamples.station])))
              = true) by (vm_compute; reflexivity).
  split; [exact H|].
  exact (proj1 (validateTLEInput_sound
                  (Some (DataLoader.formatTLE [StoreExamples.station])))
           H).
Defined.

Section ValidateAgreement.

Import Ascii String DataLoader.

(** X24.  An input [validateTLEInput] accepts is one [parseTLE] finds an
    element set in: the first element set [parseTLE] returns for the
    same text has the two lines of the element set that
    [validateTLEInput] returns. *)
Theorem validated_input_parses (text : string) :
  valid (validateTLEInput (Some text)) = true ->
  exists (t r : Tle) (rest : list Tle),
    satellite (validateTLEInput (Some text)) = Some t
    /\ parseTLE (Some text) = r :: rest
    /\ tle1 r = tle1 t
    /\ tle2 r = tle2 t.
Proof.
  intro H.
  destruct (validateTLEInput_accepts text _ eq_refl H)
    as (k & line1 & line2 & Ek & E1 & E2 & P2 & _ & _ & Ne & Ev).
  destruct (findIndexFrom_first _ _ _ _ Ek) as (j & l & -> & Ej & Pj & B).
  cbn [Nat.add] in *. rewrite E1 in Ej. injection Ej as <-.
  rewrite Ev. cbn [satellite].
  assert (L : (j + 1 < List.length (linesOf text))%nat)
    by (apply nth_error_Some; congruence).
  unfold parseTLE. destruct text as [|c text]; [congruence|].
  set (lines := linesOf (String c text)) in *.
  replace (List.length lines)
    with (j + S (List.length lines - j - 1))%nat by lia.
  rewrite parseLoop_skip.
  - cbn [Nat.add parseLoop]. rewrite E1, Pj, E2, P2.
    rewrite parseLoop_accumulates. cbn [app].
    eexists. eexists. eexists.
    split; [reflexivity|]. split; [reflexivity|].
    split; reflexivity.
  - intros j' l' Hj Hn. apply (B j' l'); [lia | exact Hn].
  - lia.
Qed.

End ValidateAgreement.

Lemma validated_input_parses_witness :
  DataLoader.valid
    (DataLoader.validateTLEInput
       (Some (DataLoader.formatTLE [StoreExamples.station]))) = true
  /\ exists (t r : Tle) (rest : list Tle),
       DataLoader.satellite
         (DataLoader.validateTLEInput
            (Some (DataLoader.formatTLE [StoreExamples.station])))
       = Some t
       /\ DataLoader.parseTLE
            (Some (DataLoader.formatTLE [StoreExamples.station]))
          = r :: rest
       /\ tle1 r = tle1 t
       /\ tle2 r = tle2 t.
Proof.
  assert (H : DataLoader.valid
                (DataLoader.validateTLEInput
                   (Some (DataLoader.formatTLE [StoreExamples.station])))
              = true) by (vm_compute; reflexivity).
  split; [exact H|].
  exact (validated_input_parses _ H).
Defined.

Example validate_and_parse_names_differ :
  DataLoader.validateTLEInput
    (Some (DataLoader.joinLines
             [StoreExamples.line1; StoreExamples.line2]))
  = DataLoader.mkValidation true
      (Some (mkTle StoreExamples.userSatellite StoreExamples.line1
               StoreExamples.line2)) None
  /\ DataLoader.parseTLE
       (Some (DataLoader.joinLines
                [StoreExamples.line1; StoreExamples.line2]))
     = [mkTle StoreExamples.unknown StoreExamples.line1
          StoreExamples.line2].
Proof. split; vm_compute; reflexivity. Qed.

(** X25.  Whatever the order in which the three fetches of
    [loadAllData] settle, and whichever of them fail, the callback is
    called exactly once, when the last one has settled and not before,
    with a null error and with the element sets [parseTLE] finds in
    each file that could be fetched and an empty array for each file
    that could not; this holds also when the callback throws. *)
Theorem loadAllData_calls_back_once
    (callbackThrows : bool)
    (fetched : DataLoading.Key -> option String.string)
    (k1 k2 k3 : DataLoading.Key) :
  k1 <> k2 -> k1 <> k3 -> k2 <> k3 ->
  DataLoading.called
    (DataLoading.loadAllData callbackThrows fetched [k1; k2; k3])
  = [DataLoading.mkResults
       (DataLoading.loaded (fetched DataLoading.Active))
       (DataLoading.loaded (fetched DataLoading.Debris))
       (DataLoading.loaded (fetched DataLoading.Critical))]
  /\ DataLoading.called
       (DataLoading.loadAllData callbackThrows fetched [k1; k2]) = []
  /\ DataLoading.called
       (DataLoading.loadAllData callbackThrows fetched [k1]) = []
  /\ DataLoading.called
       (DataLoading.loadAllData callbackThrows fetched []) = [].
Proof.
  intros H12 H13 H23.
  assert (P : forall (k : DataLoading.Key) (l : DataLoading.Loading),
            DataLoading.pending l <> 1%Z ->
            DataLoading.loadTLEFile callbackThrows k (fetched k) l
            = DataLoading.mkLoading
                (DataLoading.setResult k
                   (match fetched k with
                    | Some _ => DataLoading.loaded (fetched k)
                    | None =>
                        match k with
                        | DataLoading.Active =>
                            DataLoading.active (DataLoading.results l)
                        | DataLoading.Debris =>
                            DataLoading.debris (DataLoading.results l)
                        | DataLoading.Critical =>
                            DataLoading.critical (DataLoading.results l)
                        end
                    end) (DataLoading.results l))
                (DataLoading.pending l - 1) (DataLoading.called l)).
  { intros k l Hp. unfold DataLoading.loadTLEFile, DataLoading.fileCallback.
    assert (E : (DataLoading.pending l - 1 =? 0)%Z = false)
      by (apply Z.eqb_neq; lia).
    destruct (fetched k) as [text|]; rewrite E.
    - reflexivity.
    - cbn [fst]. destruct l as [[a d c] p cl], k; reflexivity. }
  assert (L : forall (k : DataLoading.Key) (l : DataLoading.Loading),
            DataLoading.pending l = 1%Z ->
            DataLoading.called
              (DataLoading.loadTLEFile callbackThrows k (fetched k) l)
            = DataLoading.called l
              ++ [match fetched k with
                  | Some _ =>
                      DataLoading.setResult k
                        (DataLoading.loaded (fetched k))
                        (DataLoading.results l)
                  | None => DataLoading.results l
                  end]).
  { intros k l Hp. unfold DataLoading.loadTLEFile, DataLoading.fileCallback.
    rewrite Hp. change (1 - 1 =? 0)%Z with true.
    destruct (fetched k) as [text|]; [|reflexivity].
    destruct callbackThrows; reflexivity. }
  unfold DataLoading.loadAllData. cbn [fold_left].
  rewrite (P k1 DataLoading.started) by (cbn; lia).
  split; [|split; [|split; reflexivity]].
  - set (l1 := DataLoading.mkLoading _ _ _).
    rewrite (P k2 l1) by (cbn; lia).
    set (l2 := DataLoading.mkLoading _ _ _).
    rewrite (L k3 l2) by reflexivity.
    subst l2 l1.
    cbn [DataLoading.called DataLoading.results DataLoading.started app].
    destruct k1, k2, k3; try congruence;
      destruct (fetched DataLoading.Active),
        (fetched DataLoading.Debris), (fetched DataLoading.Critical);
      reflexivity.
  - set (l1 := DataLoading.mkLoading _ _ _).
    rewrite (P k2 l1) by (cbn; lia). reflexivity.
Qed.

Lemma loadAllData_calls_back_once_witness :
  (DataLoading.Critical <> DataLoading.Active
   /\ DataLoading.Critical <> DataLoading.Debris
   /\ DataLoading.Active <> DataLoading.Debris)
  /\ DataLoading.called
       (DataLoading.loadAllData true
          (fun k =>
             match k with
             | DataLoading.Debris => None
             | _ => Some (DataLoader.formatTLE [StoreExamples.station])
             end)
          [DataLoading.Critical; DataLoading.Active; DataLoading.Debris])
     = [DataLoading.mkResults [StoreExamples.station] []
          [StoreExamples.station]].
Proof.
  assert (H1 : DataLoading.Critical <> DataLoading.Active) by discriminate.
  assert (H2 : DataLoading.Critical <> DataLoading.Debris) by discriminate.
  assert (H3 : DataLoading.Active <> DataLoading.Debris) by discriminate.
  split; [split; [exact H1 | split; [exact H2 | exact H3]]|].
  exact (eq_trans
           (proj1 (loadAllData_calls_back_once true
                     (fun k =>
                        match k with
                        | DataLoading.Debris => None
                        | _ =>
                            Some (DataLoader.formatTLE [StoreExamples.station])
                        end)
                     DataLoading.Critical DataLoading.Active
                     DataLoading.Debris H1 H2 H3))
           eq_refl).
Defined.
